(** * MarketMind: query-time pipeline, checked against its specification

    A shallow embedding of the parts of the MarketMind code base that the
    specification makes claims about: evidence ranking
    ([core/pipeline/ranking.py]), the entity and financial-period upserts
    ([core/entities.py], [core/db/financials.py]), the provider rate budget
    and dispatch loop ([connectors/providers/base_provider.py],
    [core/source_discovery.py]), scenario building
    ([core/pipeline/enrichment.py]), the streaming and batch pipelines
    ([core/pipeline/stream.py], [core/pipeline/intelligence.py]) and text
    chunking ([core/processing.py]).

    Conventions.
    - Python [float]s are modelled as exact rationals ([Q]); binary rounding
      error is outside the model.  Python's [round(x, n)] is modelled as
      round-half-to-even on the exact rational value.
    - Python [str] is modelled as [string] over 8-bit characters; case
      conversion and character classes are the ASCII ones.
    - A [dict] read with [.get] is modelled by a three-valued [field]
      (key missing, value [None], value present) because the source uses
      different defaults at different call sites. *)

From stdpp Require Import gmap strings list.
From Stdlib Require Import ZArith QArith Qround Qminmax Lqa Lia.
From Stdlib Require Import String Ascii List Bool Sorted.
Import ListNotations.

Local Open Scope string_scope.

(* ===================================================================== *)
(** ** Python values *)
(* ===================================================================== *)

Module Py.

(** What [d.get(k)] can see: no key, a key bound to [None], or a value. *)
Inductive field (A : Type) : Type :=
| Missing
| Null
| Val (a : A).
Arguments Missing {A}.
Arguments Null {A}.
Arguments Val {A} a.

(** [d.get(k)]: a missing key reads as [None]. *)
Definition get {A} (f : field A) : option A :=
  match f with Val a => Some a | _ => None end.

(** [d.get(k, dflt)]: only a missing key takes the default. *)
Definition get_default {A} (dflt : A) (f : field A) : option A :=
  match f with Missing => Some dflt | Null => None | Val a => Some a end.

(** [x or ""] on an optional string. *)
Definition or_empty (o : option string) : string :=
  match o with Some s => s | None => "" end.

(** [float(x or 0.0)] on an optional number. *)
Definition or_zero (o : option Q) : Q :=
  match o with Some q => q | None => 0 end.

(** Truthiness of an optional string: [None] and [""] are falsy. *)
Definition truthy (o : option string) : bool :=
  match o with
  | Some (String _ _) => true
  | _ => false
  end.

(** [str(x)] of an optional string: [None] prints as ["None"]. *)
Definition str (o : option string) : string :=
  match o with Some s => s | None => "None" end.

(** *** Characters *)

Definition is_upper (c : ascii) : bool :=
  let n := nat_of_ascii c in (65 <=? n)%nat && (n <=? 90)%nat.

Definition is_lower (c : ascii) : bool :=
  let n := nat_of_ascii c in (97 <=? n)%nat && (n <=? 122)%nat.

Definition is_digit (c : ascii) : bool :=
  let n := nat_of_ascii c in (48 <=? n)%nat && (n <=? 57)%nat.

(** [\w] of the [re] module, on ASCII. *)
Definition is_word (c : ascii) : bool :=
  is_upper c || is_lower c || is_digit c || Ascii.eqb c "_"%char.

(** The characters [str.split()] and [str.strip()] treat as blank. *)
Definition is_space (c : ascii) : bool :=
  let n := nat_of_ascii c in
  ((9 <=? n)%nat && (n <=? 13)%nat) || ((28 <=? n)%nat && (n <=? 32)%nat).

Definition lower_char (c : ascii) : ascii :=
  if is_upper c then ascii_of_nat (nat_of_ascii c + 32) else c.

(** *** Strings *)

(** [s.lower()] on ASCII text: the letters A to Z are lowered and every
    other character is kept.  Python's [str.lower] also maps capitals
    beyond ASCII, which these 8-bit strings do not hold; what is proved
    about upper case below is about A to Z. *)
Fixpoint lower (s : string) : string :=
  match s with
  | EmptyString => EmptyString
  | String c r => String (lower_char c) (lower r)
  end.

(** [s.startswith(p)] *)
Definition startswith (p s : string) : bool := String.prefix p s.

(** [p in s] *)
Fixpoint contains (p s : string) : bool :=
  String.prefix p s ||
  match s with
  | EmptyString => false
  | String _ r => contains p r
  end.

(** [s.replace(c, "")] for a one-character [c]. *)
Fixpoint remove_char (c : ascii) (s : string) : string :=
  match s with
  | EmptyString => EmptyString
  | String d r =>
      if Ascii.eqb c d then remove_char c r else String d (remove_char c r)
  end.

(** [s.split()]: maximal runs of non-blank characters.  [cur] is the word
    being read, in reverse. *)
Fixpoint split_go (cur : list ascii) (s : string) : list string :=
  let flush (k : list string) :=
    match cur with
    | [] => k
    | _ => string_of_list_ascii (rev cur) :: k
    end in
  match s with
  | EmptyString => flush []
  | String c r =>
      if is_space c then flush (split_go [] r) else split_go (c :: cur) r
  end.

Definition split (s : string) : list string := split_go [] s.

(** *** [re.compile(r'\b' + re.escape(pat) + r'\b').search(s)] *)

Definition word_opt (o : option ascii) : bool :=
  match o with Some c => is_word c | None => false end.

Definition head_char (s : string) : option ascii :=
  match s with String c _ => Some c | EmptyString => None end.

Fixpoint last_char (s : string) : option ascii :=
  match s with
  | EmptyString => None
  | String c EmptyString => Some c
  | String _ r => last_char r
  end.

(** The text that follows an occurrence of [pat] at the head of [s]. *)
Fixpoint after_prefix (pat s : string) : string :=
  match pat, s with
  | String _ p, String _ r => after_prefix p r
  | _, _ => s
  end.

(** A [\b] sits between [l] and [r] when exactly one of them is a word
    character; the ends of the string count as non-word. *)
Definition boundary (l r : option ascii) : bool :=
  xorb (word_opt l) (word_opt r).

(** Is there a match of [\b pat \b] starting here, [prev] being the
    character just before? *)
Definition match_here (prev : option ascii) (pat s : string) : bool :=
  String.prefix pat s
  && boundary prev (head_char pat)
  && boundary (last_char pat) (head_char (after_prefix pat s)).

Fixpoint search_from (prev : option ascii) (pat s : string) : bool :=
  match_here prev pat s ||
  match s with
  | EmptyString => false
  | String c r => search_from (Some c) pat r
  end.

Definition word_search (pat s : string) : bool := search_from None pat s.

(** [s[:n]] for [n >= 0] *)
Fixpoint take (n : nat) (s : string) : string :=
  match n, s with
  | S k, String c r => String c (take k r)
  | _, _ => EmptyString
  end.

(** [s[n:]] for [n >= 0] *)
Fixpoint drop (n : nat) (s : string) : string :=
  match n, s with
  | S k, String _ r => drop k r
  | _, _ => s
  end.

(** A slice bound as Python normalises it: negative bounds count from the
    end, and everything is clamped to [0, len]. *)
Definition clamp_index (len : nat) (i : Z) : nat :=
  let l := Z.of_nat len in
  Z.to_nat (if (i <? 0)%Z then Z.max (i + l) 0 else Z.min i l).

(** [s[a:b]] *)
Definition slice (s : string) (a b : Z) : string :=
  let len := String.length s in
  let i := clamp_index len a in
  let j := clamp_index len b in
  take (j - i) (drop i s).

Fixpoint lstrip (s : string) : string :=
  match s with
  | String c r => if is_space c then lstrip r else s
  | EmptyString => EmptyString
  end.

Fixpoint rstrip (s : string) : string :=
  match s with
  | EmptyString => EmptyString
  | String c r =>
      match rstrip r with
      | EmptyString => if is_space c then EmptyString else String c EmptyString
      | r' => String c r'
      end
  end.

(** [s.strip()] *)
Definition strip (s : string) : string := rstrip (lstrip s).

(** *** Numbers *)

(** [x < y] on floats. *)
Definition Qltb (x y : Q) : bool := negb (Qle_bool y x).

(** Round half to even, on the exact value. *)
Definition round_half_even (q : Q) : Z :=
  let f := Qfloor q in
  match Qcompare (q - inject_Z f) (1 # 2) with
  | Lt => f
  | Gt => (f + 1)%Z
  | Eq => if Z.even f then f else (f + 1)%Z
  end.

(** [round(q, n)] *)
Definition round (n : nat) (q : Q) : Q :=
  inject_Z (round_half_even (q * inject_Z (10 ^ Z.of_nat n)))
  / inject_Z (10 ^ Z.of_nat n).

(** [a / b] with [a], [b] the lengths or counts of lists. *)
Definition ratio (a b : nat) : Q :=
  inject_Z (Z.of_nat a) / inject_Z (Z.of_nat b).

(** [sum(1 for x in l if p x)] *)
Definition count {A} (p : A -> bool) (l : list A) : nat :=
  List.length (List.filter p l).

End Py.

Import Py.


Local Open Scope Q_scope.

(* ===================================================================== *)
(** ** Evidence ranking ([core/pipeline/ranking.py]) *)
(* ===================================================================== *)

Module Ranking.

(** An evidence row as [_rank_items] reads it.  [created_at] is a UTC
    timestamp in seconds. *)
Record item : Type := {
  source_name : field string;
  insight : field string;
  recommendation : field string;
  evidence_ref : field string;
  confidence : field Q;
  text_rank : field Q;
  similarity_score : field Q;
  created_at : field Q;
  critic_status : field string;
  threat_level : field string
}.

(** The entries of [query_context] that ranking reads; [sector] is
    [entity_record["sector"]] when there is an entity record. *)
Record query_context : Type := {
  tokens : list string;
  ticker : option string;
  entity : option string;
  sector : option string
}.

(** [_recency_score], [now] being [datetime.now(timezone.utc)] in seconds. *)
Definition _recency_score (now : Q) (created : option Q) : Q :=
  match created with
  | None => 0
  | Some t =>
      let age_hours := Qmax ((now - t) / 3600) 0 in
      1 / (1 + age_hours / 24)
  end.

Definition _source_quality_factor (source_name evidence_ref : option string) : Q :=
  let source := lower (or_empty source_name) in
  let ref := lower (or_empty evidence_ref) in
  if contains "sec" source || contains "edgar" source || contains "sec.gov" ref
  then 1
  else if contains "yahoo finance" source || contains "finance.yahoo.com" ref
  then 0.98
  else if contains "fmp" source || contains "alpha vantage" source
  then 0.95
  else if contains "google news" source || contains "news.google.com" ref
  then 0.9
  else if contains "rss" source then 0.85
  else if contains "reddit" source then 0.7
  else if contains "duckduckgo" source then 0.75
  else 0.8.

Definition _token_relevance (query_tokens : list string)
    (insight recommendation : option string) : Q :=
  let text := lower (or_empty insight ++ " " ++ or_empty recommendation) in
  match query_tokens with
  | [] => 0
  | _ =>
      let matches := count (fun token => contains token text) query_tokens in
      Qmin (ratio matches (Nat.max (List.length query_tokens) 1)) 1
  end.

Definition _ENTITY_STOP_WORDS : list string :=
  [ "limited"; "inc"; "corp"; "company"; "group"; "holdings";
    "technologies"; "international"; "services"; "the"; "and";
    "new"; "one"; "first"; "global"; "systems"; "solutions";
    "enterprises"; "partners"; "capital"; "financial"; "industries";
    "associates"; "consulting"; "management"; "ltd"; "plc"; "llc";
    "co"; "sa"; "ag"; "nv"; "se"; "gmbh" ].

Definition is_stop_word (p : string) : bool :=
  existsb (String.eqb p) _ENTITY_STOP_WORDS.

(** The significant parts of a lowercased entity name. *)
Definition name_parts_of (name_lower : string) : list string :=
  List.filter
    (fun p => (2 <? String.length p)%nat && negb (is_stop_word p))
    (split (remove_char "." (remove_char "," name_lower))).

Definition _entity_relevance (ticker entity_name : option string) (it : item) : Q :=
  if negb (truthy ticker) && negb (truthy entity_name) then 0.5
  else
    let title := lower (or_empty (get (source_name it))) in
    let insight := lower (or_empty (get (insight it))) in
    let evidence_ref := lower (or_empty (get (evidence_ref it))) in
    let text := title ++ " " ++ insight ++ " " ++ evidence_ref in
    let score := 0 in
    let tick_lower := lower (or_empty ticker) in
    let name_lower := lower (or_empty entity_name) in
    let name_parts := name_parts_of name_lower in
    (* ticker matching *)
    let score :=
      if (1 <=? String.length tick_lower)%nat then
        if word_search tick_lower title then Qmax score 1
        else if word_search tick_lower text then Qmax score 0.8
        else score
      else score in
    (* company name, or its major parts, in the title *)
    let score :=
      if negb (String.eqb name_lower "") && contains name_lower title
      then Qmax score 0.95
      else
        match name_parts with
        | [] => score
        | _ =>
            let name_hits := count (fun p => contains p title) name_parts in
            if (0 <? name_hits)%nat
            then Qmax score (0.85 * ratio name_hits (List.length name_parts))
            else score
        end in
    (* company name fragments in the body *)
    let score :=
      match name_parts with
      | [] => score
      | _ =>
          if Qltb score 0.5 then
            let body_hits := count (fun p => contains p text) name_parts in
            if (0 <? body_hits)%nat
            then Qmax score (0.4 * ratio body_hits (List.length name_parts))
            else score
          else score
      end in
    round 4 score.

(** The weighted sum of the seven factors, before the multipliers. *)
Definition weighted_sum
    (entity_rel source_factor confidence semantic_score text_rank
     token_relevance recency : Q) : Q :=
  0.35 * entity_rel
  + 0.15 * source_factor
  + 0.15 * confidence
  + 0.10 * semantic_score
  + 0.10 * text_rank
  + 0.10 * token_relevance
  + 0.05 * recency.

Definition critic_factor (it : item) : Q :=
  match get_default "approved" (critic_status it) with
  | Some s => if String.eqb s "approved" then 1 else 0.5
  | None => 0.5
  end.

(** The "sector penalty": a boost when the item mentions the entity's
    sector. *)
Definition sector_penalty (ctx : query_context) (it : item) : Q :=
  let entity_sector := lower (or_empty (sector ctx)) in
  let item_text := lower (or_empty (get (insight it))) in
  if (3 <? String.length entity_sector)%nat && contains entity_sector item_text
  then 1.1 else 1.

(** The cross-pollution check on an item's [source_name]. *)
Definition pollution_penalty (entity_name : option string) (it : item) : Q :=
  let src_name := lower (str (get_default "" (source_name it))) in
  if contains "google news:" src_name || contains "yahoo finance news:" src_name
  then
    if truthy entity_name && negb (contains (lower (or_empty entity_name)) src_name)
    then 0.2 else 1
  else 1.

(** An item with the scores [_rank_items] attaches to it. *)
Record enriched : Type := {
  row : item;
  recency_score : Q;
  source_quality : Q;
  token_relevance : Q;
  semantic_score : Q;
  entity_relevance : Q;
  rank_score : Q
}.

(** The unrounded [rank_score] of one item. *)
Definition raw_rank_score (now : Q) (ctx : query_context) (it : item) : Q :=
  let confidence := or_zero (get (confidence it)) in
  let text_rank := or_zero (get (text_rank it)) in
  let recency := _recency_score now (get (created_at it)) in
  let source_factor :=
    _source_quality_factor (get (source_name it)) (get (evidence_ref it)) in
  let token_relevance :=
    _token_relevance (tokens ctx) (get (insight it)) (get (recommendation it)) in
  let semantic_score := or_zero (get (similarity_score it)) in
  let entity_rel := _entity_relevance (ticker ctx) (entity ctx) it in
  weighted_sum entity_rel source_factor confidence semantic_score text_rank
    token_relevance recency
  * (critic_factor it * sector_penalty ctx it * pollution_penalty (entity ctx) it).

(** The body of the scoring loop of [_rank_items]. *)
Definition rank_item (now : Q) (ctx : query_context) (it : item) : enriched :=
  {| row := it;
     recency_score := round 4 (_recency_score now (get (created_at it)));
     source_quality :=
       round 4 (_source_quality_factor (get (source_name it)) (get (evidence_ref it)));
     token_relevance :=
       round 4 (_token_relevance (tokens ctx) (get (insight it)) (get (recommendation it)));
     semantic_score := round 4 (or_zero (get (similarity_score it)));
     entity_relevance := _entity_relevance (ticker ctx) (entity ctx) it;
     rank_score := round 4 (raw_rank_score now ctx it) |}.

(** [l.sort(key=rank_score, reverse=True)]: stable, highest score first. *)
Fixpoint insert_desc (x : enriched) (l : list enriched) : list enriched :=
  match l with
  | [] => [x]
  | y :: r =>
      if Qltb (rank_score y) (rank_score x) then x :: l else y :: insert_desc x r
  end.

Definition sort_desc (l : list enriched) : list enriched :=
  fold_left (fun acc x => insert_desc x acc) l [].

Section Dedup.

(** [hashlib.md5(s.encode()).hexdigest()] *)
Variable md5 : string -> string.

Definition dedup_key (e : enriched) : string :=
  let insight_text := lower (strip (take 200 (or_empty (get (insight (row e)))))) in
  let src := str (get_default "" (source_name (row e))) in
  src ++ "::" ++ md5 insight_text.

(** [seen[key] = e] unless a row with at least that score is there; the
    dict keeps the position of the first insertion. *)
Fixpoint seen_put (key : string) (e : enriched)
    (seen : list (string * enriched)) : list (string * enriched) :=
  match seen with
  | [] => [(key, e)]
  | (k, old) :: r =>
      if String.eqb k key
      then (k, if Qltb (rank_score old) (rank_score e) then e else old) :: r
      else (k, old) :: seen_put key e r
  end.

Definition _rank_items (now : Q) (items : list item) (ctx : query_context)
    : list enriched :=
  let ranked := sort_desc (List.map (rank_item now ctx) items) in
  let relevant := List.filter (fun r => Qltb 0.3 (entity_relevance r)) ranked in
  let ranked := if (3 <=? List.length relevant)%nat then relevant else ranked in
  let seen := fold_left (fun seen e => seen_put (dedup_key e) e seen) ranked [] in
  sort_desc (List.map snd seen).

End Dedup.

End Ranking.

(* ===================================================================== *)
(** ** Entity cache ([core/entities.py]) *)
(* ===================================================================== *)

Module Entities.

(** A row of the [entities] table. *)
Record entity_row : Type := {
  id : Z;
  name : string;
  ticker : string;
  cik : string;
  sector : string;
  industry : string;
  exchange : string;
  entity_type : string;
  aliases : list string;
  created_at : Z;
  updated_at : Z
}.

(** The table, keyed by its [UNIQUE] column [ticker], with the [SERIAL]
    sequence behind [id]. *)
Record table : Type := {
  rows : gmap string entity_row;
  next_id : Z
}.

(** The keyword arguments of [_upsert_entity]. *)
Record upsert_args : Type := {
  arg_name : string;
  arg_ticker : string;
  arg_cik : string;
  arg_sector : string;
  arg_industry : string;
  arg_exchange : string;
  arg_entity_type : string;
  arg_aliases : option (list string)
}.

(** [COALESCE(NULLIF(EXCLUDED.col, ''), entities.col)] *)
Definition coalesce_nonempty (excluded current : string) : string :=
  if String.eqb excluded "" then current else excluded.

(** [_upsert_entity]: the [INSERT ... ON CONFLICT (ticker) DO UPDATE]
    statement run at time [now]; returns the row and the new table.  The
    sequence advances on either branch, as Postgres evaluates the column
    default before it detects the conflict. *)
Definition _upsert_entity (now : Z) (a : upsert_args) (t : table)
    : entity_row * table :=
  let alias_json := match arg_aliases a with Some l => l | None => [] end in
  let r :=
    match rows t !! arg_ticker a with
    | None =>
        {| id := next_id t;
           name := arg_name a;
           ticker := arg_ticker a;
           cik := arg_cik a;
           sector := arg_sector a;
           industry := arg_industry a;
           exchange := arg_exchange a;
           entity_type := arg_entity_type a;
           aliases := alias_json;
           created_at := now;
           updated_at := now |}
    | Some old =>
        {| id := id old;
           name := coalesce_nonempty (arg_name a) (name old);
           ticker := ticker old;
           cik := coalesce_nonempty (arg_cik a) (cik old);
           sector := coalesce_nonempty (arg_sector a) (sector old);
           industry := coalesce_nonempty (arg_industry a) (industry old);
           exchange := coalesce_nonempty (arg_exchange a) (exchange old);
           entity_type := entity_type old;
           aliases := alias_json;
           created_at := created_at old;
           updated_at := now |}
    end in
  (r, {| rows := <[arg_ticker a := r]> (rows t); next_id := (next_id t + 1)%Z |}).

(** The second upsert of the round-trip property: same ticker, every other
    field empty ([entity_type] is a required column of the insert and is
    ignored on conflict). *)
Definition empty_args (tk etype : string) : upsert_args :=
  {| arg_name := "";
     arg_ticker := tk;
     arg_cik := "";
     arg_sector := "";
     arg_industry := "";
     arg_exchange := "";
     arg_entity_type := etype;
     arg_aliases := Some [] |}.

End Entities.

(* ===================================================================== *)
(** ** Financial periods ([core/db/financials.py]) *)
(* ===================================================================== *)

Module Financials.

(** The JSON values a statement map holds. *)
Inductive json : Type :=
| JNull
| JBool (b : bool)
| JNum (q : Q)
| JStr (s : string)
| JNested (text : string).
    (* an array or object, by its jsonb text: [||] replaces it whole *)

(** The unique key [(ticker, period_type, period_end_date, source_provider)]. *)
Definition period_key : Type := string * string * string * string.

Record period_row : Type := {
  entity_id : option Z;
  fiscal_year : option Z;
  fiscal_quarter : option Z;
  income_statement : gmap string json;
  balance_sheet : gmap string json;
  cash_flow : gmap string json;
  key_metrics : gmap string json
}.

(** The keyword arguments of [upsert_financial_period] besides the key. *)
Record upsert_args : Type := {
  arg_entity_id : option Z;
  arg_fiscal_year : option Z;
  arg_fiscal_quarter : option Z;
  arg_income_statement : option (gmap string json);
  arg_balance_sheet : option (gmap string json);
  arg_cash_flow : option (gmap string json);
  arg_key_metrics : option (gmap string json)
}.

(** [json.dumps(d or {})] *)
Definition or_empty_map (d : option (gmap string json)) : gmap string json :=
  match d with Some m => m | None => ∅ end.

(** [COALESCE(EXCLUDED.col, financial_periods.col)] *)
Definition coalesce (excluded current : option Z) : option Z :=
  match excluded with Some _ => excluded | None => current end.

(** The jsonb operator [target || excluded] on two objects: one level of
    keys, the right operand wins. *)
Definition jsonb_concat (target excluded : gmap string json) : gmap string json :=
  excluded ∪ target.

(** [CASE WHEN EXCLUDED.col::text = '{}' THEN target ELSE target || EXCLUDED.col END] *)
Definition deep_merge (target excluded : gmap string json) : gmap string json :=
  if decide (excluded = ∅) then target else jsonb_concat target excluded.

(** [upsert_financial_period]: returns the stored row and the new table. *)
Definition upsert_financial_period (k : period_key) (a : upsert_args)
    (t : gmap period_key period_row) : period_row * gmap period_key period_row :=
  let r :=
    match t !! k with
    | None =>
        {| entity_id := arg_entity_id a;
           fiscal_year := arg_fiscal_year a;
           fiscal_quarter := arg_fiscal_quarter a;
           income_statement := or_empty_map (arg_income_statement a);
           balance_sheet := or_empty_map (arg_balance_sheet a);
           cash_flow := or_empty_map (arg_cash_flow a);
           key_metrics := or_empty_map (arg_key_metrics a) |}
    | Some old =>
        {| entity_id := coalesce (arg_entity_id a) (entity_id old);
           fiscal_year := coalesce (arg_fiscal_year a) (fiscal_year old);
           fiscal_quarter := coalesce (arg_fiscal_quarter a) (fiscal_quarter old);
           income_statement :=
             deep_merge (income_statement old) (or_empty_map (arg_income_statement a));
           balance_sheet :=
             deep_merge (balance_sheet old) (or_empty_map (arg_balance_sheet a));
           cash_flow := deep_merge (cash_flow old) (or_empty_map (arg_cash_flow a));
           key_metrics :=
             deep_merge (key_metrics old) (or_empty_map (arg_key_metrics a)) |}
    end in
  (r, <[k := r]> t).

End Financials.

(* ===================================================================== *)
(** ** Provider budget and dispatch
       ([connectors/providers/base_provider.py], [core/source_discovery.py]) *)
(* ===================================================================== *)

Module Providers.

(** The process clock: the instant in seconds since the epoch (UTC) and the
    offset of the process's time zone from UTC, in seconds. *)
Record clock : Type := {
  utc_seconds : Z;
  utc_offset : Z
}.

(** [date.today()]: the calendar day of the local time, as a day number. *)
Definition date_today (c : clock) : Z := ((utc_seconds c + utc_offset c) / 86400)%Z.


(** The budget attributes of [BaseProvider].  [_last_reset_date] holds the
    day of the last reset; [None] stands for the initial [""]. *)
Record budget : Type := {
  _daily_limit : Z;
  _calls_today : Z;
  _last_reset_date : option Z
}.

(** The shared prologue of [rate_limit_ok] and [_track_call]. *)
Definition reset_if_new_day (today : Z) (b : budget) : budget :=
  if decide (_last_reset_date b = Some today) then b
  else {| _daily_limit := _daily_limit b;
          _calls_today := 0;
          _last_reset_date := Some today |}.

(** [BaseProvider.rate_limit_ok]: the answer and the budget it leaves. *)
Definition rate_limit_ok (c : clock) (b : budget) : bool * budget :=
  if (_daily_limit b <=? 0)%Z then (true, b)
  else
    let b' := reset_if_new_day (date_today c) b in
    ((_calls_today b' <? _daily_limit b')%Z, b').

(** [BaseProvider._track_call] *)
Definition _track_call (c : clock) (b : budget) : budget :=
  let b' := reset_if_new_day (date_today c) b in
  {| _daily_limit := _daily_limit b';
     _calls_today := (_calls_today b' + 1)%Z;
     _last_reset_date := _last_reset_date b' |}.

Record ProviderResult : Type := {
  provider : string;
  data_type : string;
  records_stored : Z;
  success : bool;
  error : string
}.

(** What a call of [fetch_company_data] comes to. *)
Inductive outcome : Type :=
| Returned (results : list ProviderResult)
| Raised (exc : string).

(** A configured provider: its name, its budget, and what its
    [fetch_company_data] does to the budget and answers. *)
Record provider_obj : Type := {
  provider_name : string;
  state : budget;
  fetch_company_data : clock -> budget -> outcome * budget
}.

(** The part of the enrichment summary that the dispatch loop fills in,
    with a log of the providers whose [fetch_company_data] was called. *)
Record summary : Type := {
  providers_run : list ProviderResult;
  total_records : Z;
  fetch_calls : list string
}.

Definition empty_summary : summary :=
  {| providers_run := []; total_records := 0; fetch_calls := [] |}.

(** One iteration of the dispatch loop of [run_full_enrichment]. *)
Definition dispatch_one (c : clock) (s : summary) (p : provider_obj) : summary :=
  let '(ok, b) := rate_limit_ok c (state p) in
  if negb ok then s
  else
    match fst (fetch_company_data p c b) with
    | Returned results =>
        {| providers_run := providers_run s ++ results;
           total_records :=
             fold_left (fun n r => (n + records_stored r)%Z) results (total_records s);
           fetch_calls := fetch_calls s ++ [provider_name p] |}
    | Raised exc =>
        {| providers_run :=
             providers_run s ++
             [ {| provider := provider_name p;
                  data_type := "all";
                  records_stored := 0;
                  success := false;
                  error := exc |} ];
           total_records := total_records s;
           fetch_calls := fetch_calls s ++ [provider_name p] |}
    end.

(** Step 3 of [run_full_enrichment]: the loop over the configured providers. *)
Definition dispatch (c : clock) (ps : list provider_obj) : summary :=
  fold_left (dispatch_one c) ps empty_summary.

(** A provider class as the registry knows it: its name, its class-level
    [_daily_limit], and what [fetch_company_data] does to the budget of the
    object it runs on and answers. *)
Record provider_class : Type := {
  class_name : string;
  class_daily_limit : Z;
  class_fetch : clock -> budget -> outcome * budget
}.

(** [Provider()]: a new object starts from the class attributes
    [_calls_today = 0] and [_last_reset_date = ""]; the counters it writes
    afterwards are its own. *)
Definition new_provider (k : provider_class) : provider_obj :=
  {| provider_name := class_name k;
     state := {| _daily_limit := class_daily_limit k;
                 _calls_today := 0;
                 _last_reset_date := None |};
     fetch_company_data := class_fetch k |}.

(** [_get_configured_providers]: a new object of every class whose
    [is_configured()] holds, in the order of the registry; [configured]
    lists these classes. *)
Definition _get_configured_providers (configured : list provider_class)
    : list provider_obj :=
  List.map new_provider configured.

(** [run_full_enrichment], as far as providers are concerned: [entity] is
    the answer of [resolve_entity]; without an entity no provider is asked,
    otherwise the loop runs over the objects [_get_configured_providers]
    has just built.  The [entity], [rss_sources_discovered] and [coverage]
    entries of the summary are left out. *)
Definition run_full_enrichment (c : clock) (entity : option Entities.entity_row)
    (configured : list provider_class) : summary :=
  match entity with
  | None => empty_summary
  | Some _ => dispatch c (_get_configured_providers configured)
  end.

End Providers.

(* ===================================================================== *)
(** ** Scenario building ([core/pipeline/enrichment.py]) *)
(* ===================================================================== *)

Module Scenarios.

Record scenario : Type := {
  name : field string;
  probability : field Q;
  assumption : field string;
  impact : field string;
  trigger_signals : field (list string)
}.

(** [float(s.get("probability", 0.33))]; [float(None)] raises. *)
Definition prob_float (s : scenario) : option Q :=
  get_default 0.33 (probability s).

(** [sum(float(s.get("probability", 0.33)) for s in l)] *)
Fixpoint total_prob (l : list scenario) : option Q :=
  match l with
  | [] => Some 0
  | s :: r =>
      match prob_float s, total_prob r with
      | Some p, Some t => Some (p + t)
      | _, _ => None
      end
  end.

(** [d.setdefault(k, dflt)] *)
Definition setdefault {A} (dflt : A) (f : field A) : field A :=
  match f with Missing => Val dflt | _ => f end.

(** The body of the renormalisation loop. *)
Definition normalize_one (total : Q) (s : scenario) : option scenario :=
  match prob_float s with
  | Some p =>
      Some {| name := name s;
              probability := Val (round 3 (p / total));
              assumption := setdefault "" (assumption s);
              impact := setdefault "" (impact s);
              trigger_signals := setdefault [] (trigger_signals s) |}
  | None => None
  end.

Fixpoint normalize_all (total : Q) (l : list scenario) : option (list scenario) :=
  match l with
  | [] => Some []
  | s :: r =>
      match normalize_one total s, normalize_all total r with
      | Some s', Some r' => Some (s' :: r')
      | _, _ => None
      end
  end.

(** The arithmetic bull/base/bear baseline. *)
Definition fallback_scenarios (base_confidence : Q) (top_source : string)
    : list scenario :=
  let bull_raw := Qmin (base_confidence + 0.12) 0.92 in
  let base_raw := Qmax (Qmin base_confidence 0.8) 0.1 in
  let bear_raw := Qmax (1 - base_confidence + 0.05) 0.1 in
  let total := bull_raw + base_raw + bear_raw in
  let bull_prob := round 3 (bull_raw / total) in
  let base_prob := round 3 (base_raw / total) in
  let bear_prob := round 3 (Qmax (1 - bull_prob - base_prob) 0) in
  [ {| name := Val "bull";
       probability := Val bull_prob;
       assumption :=
         Val "Positive execution and demand signals hold across latest sources.";
       impact :=
         Val ("Upside scenario if momentum from " ++ top_source ++ " continues.");
       trigger_signals :=
         Val ["accelerating revenue growth"; "margin expansion";
              "positive narrative shift"] |};
    {| name := Val "base";
       probability := Val base_prob;
       assumption :=
         Val "Current trajectory persists without major external shocks.";
       impact :=
         Val "Moderate performance with manageable risk and incremental changes.";
       trigger_signals :=
         Val ["stable guidance"; "mixed but non-deteriorating sentiment";
              "controlled risk levels"] |};
    {| name := Val "bear";
       probability := Val bear_prob;
       assumption :=
         Val "Competitive pressure or macro events weaken current momentum.";
       impact :=
         Val "Downside risk rises; defensive posture and tighter monitoring required.";
       trigger_signals :=
         Val ["negative earnings revisions"; "rising risk indicators";
              "narrative deterioration"] |} ].

(** [float(decision.get("confidence", 0.5) or 0.5)] *)
Definition base_confidence_of (confidence : field Q) : Q :=
  match get_default 0.5 confidence with
  | Some q => if Qeq_bool q 0 then 0.5 else q
  | None => 0.5
  end.

(** [evidence[0].get("source_name", "current evidence") if evidence else
    "current evidence"] as it is spliced into the f-string. *)
Definition top_source_of (evidence : list Ranking.enriched) : string :=
  match evidence with
  | e :: _ => str (get_default "current evidence" (Ranking.source_name (Ranking.row e)))
  | [] => "current evidence"
  end.

(** [_build_scenarios].  [llm_scenarios] is the answer of
    [llm_module.generate_scenarios] ([None] when the model declines or its
    output does not parse).  The result is [None] when the function raises
    (a [null] probability). *)
Definition _build_scenarios (decision_confidence : field Q)
    (evidence : list Ranking.enriched) (llm_scenarios : option (list scenario))
    : option (list scenario) :=
  let base_confidence := base_confidence_of decision_confidence in
  let top_source := top_source_of evidence in
  let fallback := Some (fallback_scenarios base_confidence top_source) in
  match llm_scenarios with
  | Some l =>
      if (List.length l =? 3)%nat then
        match total_prob l with
        | Some total =>
            if Qltb 0 total then normalize_all total l else Some l
        | None => None
        end
      else fallback
  | None => fallback
  end.


(** [sum(s["probability"] for s in scenarios)] of a returned list, as the
    exact sum of the decimal values.  Python adds binary floats: what it
    returns differs from this sum by the floating-point error, which
    [float_sum] bounds. *)
Definition sum_probability (l : list scenario) : Q :=
  fold_right (fun s acc => or_zero (get (probability s)) + acc) 0 l.


End Scenarios.

(* ===================================================================== *)
(** ** The streaming pipeline ([core/pipeline/stream.py]) *)
(* ===================================================================== *)

Module Stream.

(** The [stage] names the generator emits. *)
Inductive stage : Type :=
| query_parsed | enrichment_started | provider_complete | warning
| enrichment_complete | retrieval_started | retrieval_complete
| ranking_complete | financial_snapshot_started | financial_snapshot
| analyst_consensus_started | analyst_consensus | historical_started
| trend_analysis_started | historical_trends | macro_started | macro_context
| sentiment_started | social_sentiment | market_news_started | market_news
| coverage | filings_started | filings | insider_activity_started
| insider_activity | analyzing | decision_token | decision_ready
| narrative_started | narrative_token | narrative_ready | scenarios_started
| scenarios_ready | competitive_started | competitive_token
| competitive_landscape | price_history_started | price_history | complete.

#[global] Instance stage_eq_dec : EqDecision stage.
Proof. solve_decision. Defined.

(** An event as the consumer sees it; the [data] and [message] payloads play
    no part in the order of the stream and are left out. *)
Record event : Type := {
  ev_stage : stage;
  progress : Q
}.

(** [_event(stage, progress, ...)] *)
Definition _event (s : stage) (p : Q) : event :=
  {| ev_stage := s; progress := round 2 p |}.

(** How the enrichment [try] block went. *)
Inductive enrichment_run : Type :=
| NoRefresh
    (* [_needs_refresh] answered [False] *)
| LookupFailed
    (* [db.search_insights_by_query] or [_needs_refresh] raised *)
| Refreshed (providers_run : nat) (rss_ok : bool).
    (* enrichment ran and reported [providers_run] results; [rss_ok] is
       [false] when RSS discovery or [db.add_source] raised afterwards *)

(** What the collaborators of one run did, as far as it steers the events. *)
Record run : Type := {
  has_ticker : bool;
  enrichment : enrichment_run;
  analyst_ok : bool;
  trends_available : bool;
  news_ok : bool;
  insider_ok : bool;
  decision_tokens : list string;
  narrative_tokens : list string;
  competitive_tokens : list string
}.

Definition enrichment_events (e : enrichment_run) : list event :=
  match e with
  | NoRefresh => []
  | LookupFailed => [_event warning 0.18]
  | Refreshed n rss_ok =>
      repeat (_event provider_complete 0.12) n
      ++ (if rss_ok then [] else [_event warning 0.18])
  end.

(** A block guarded by [if ticker:] whose fetch may raise and be swallowed. *)
Definition optional_block (r : run) (started done : stage) (p_started p_done : Q)
    (ok : bool) : list event :=
  if has_ticker r
  then _event started p_started :: (if ok then [_event done p_done] else [])
  else [].

(** One event per streamed LLM token. *)
Definition token_events (s : stage) (p : Q) (toks : list string) : list event :=
  List.map (fun _ => _event s p) toks.

(** The events [run_market_intelligence_query_stream] yields when it runs
    to its last [yield]. *)
Definition run_market_intelligence_query_stream (r : run) : list event :=
  [_event query_parsed 0.05; _event enrichment_started 0.08]
  ++ enrichment_events (enrichment r)
  ++ [_event enrichment_complete 0.20;
      _event retrieval_started 0.22;
      _event retrieval_complete 0.30;
      _event ranking_complete 0.35;
      _event financial_snapshot_started 0.38;
      _event financial_snapshot 0.42]
  ++ optional_block r analyst_consensus_started analyst_consensus 0.43 0.435
       (analyst_ok r)
  ++ [_event historical_started 0.44]
  ++ (if trends_available r && has_ticker r
      then [_event trend_analysis_started 0.46] else [])
  ++ [_event historical_trends 0.50;
      _event macro_started 0.52;
      _event macro_context 0.56;
      _event sentiment_started 0.58;
      _event social_sentiment 0.62]
  ++ optional_block r market_news_started market_news 0.63 0.64 (news_ok r)
  ++ [_event coverage 0.65;
      _event filings_started 0.67;
      _event filings 0.70]
  ++ optional_block r insider_activity_started insider_activity 0.71 0.715
       (insider_ok r)
  ++ [_event analyzing 0.72]
  ++ token_events decision_token 0.74 (decision_tokens r)
  ++ [_event decision_ready 0.78;
      _event narrative_started 0.80]
  ++ token_events narrative_token 0.82 (narrative_tokens r)
  ++ [_event narrative_ready 0.85;
      _event scenarios_started 0.87;
      _event scenarios_ready 0.90;
      _event competitive_started 0.91]
  ++ token_events competitive_token 0.92 (competitive_tokens r)
  ++ [_event competitive_landscape 0.93]
  ++ (if has_ticker r then [_event price_history_started 0.94] else [])
  ++ [_event price_history 0.95;
      _event complete 1.0].

(** A generator that is closed by its consumer, or that raises, has yielded
    an initial part of these events. *)
Definition emitted (r : run) (k : nat) : list event := firstn k (run_market_intelligence_query_stream r).

(** The mandatory stages in their order; [true] marks the
    starred stages, which may repeat or be absent. *)
Definition mandatory_order : list (stage * bool) :=
  [ (query_parsed, false); (enrichment_started, false);
    (provider_complete, true); (enrichment_complete, false);
    (retrieval_started, false); (retrieval_complete, false);
    (ranking_complete, false); (financial_snapshot, false);
    (historical_trends, false); (macro_context, false);
    (social_sentiment, false); (coverage, false); (filings, false);
    (analyzing, false); (decision_token, true); (decision_ready, false);
    (narrative_started, false); (narrative_token, true);
    (narrative_ready, false); (scenarios_ready, false);
    (competitive_started, false); (competitive_token, true);
    (competitive_landscape, false); (price_history, false);
    (complete, false) ].

Definition is_mandatory (s : stage) : bool :=
  existsb (fun x => bool_decide (fst x = s)) mandatory_order.

(** The mandatory stages of a list of events, in the order of emission. *)
Definition mandatory_stages (l : list event) : list stage :=
  List.filter is_mandatory (List.map ev_stage l).

(** Does a sequence of stages run through [order] from start to end, each
    unstarred stage once and each starred stage any number of times? *)
Fixpoint follows (order : list (stage * bool)) (l : list stage) : bool :=
  match order with
  | [] => match l with [] => true | _ => false end
  | (s, starred) :: rest =>
      if starred then
        (fix skip (l : list stage) : bool :=
           match l with
           | x :: l' => if bool_decide (x = s) then skip l' else follows rest l
           | [] => follows rest []
           end) l
      else
        match l with
        | x :: l' => bool_decide (x = s) && follows rest l'
        | [] => false
        end
  end.

(** [key] never decreases from one event to the next. *)
Fixpoint nondecreasing_by (key : event -> Q) (l : list event) : bool :=
  match l with
  | a :: (b :: _) as r => Qle_bool (key a) (key b) && nondecreasing_by key r
  | _ => true
  end.

(** [progress] never decreases from one event to the next. *)
Definition nondecreasing (l : list event) : bool := nondecreasing_by progress l.

(** The progress literal each stage is passed to [_event] with. *)
Definition anchor (s : stage) : Q :=
  match s with
  | query_parsed => 0.05
  | enrichment_started => 0.08
  | provider_complete => 0.12
  | warning => 0.18
  | enrichment_complete => 0.20
  | retrieval_started => 0.22
  | retrieval_complete => 0.30
  | ranking_complete => 0.35
  | financial_snapshot_started => 0.38
  | financial_snapshot => 0.42
  | analyst_consensus_started => 0.43
  | analyst_consensus => 0.435
  | historical_started => 0.44
  | trend_analysis_started => 0.46
  | historical_trends => 0.50
  | macro_started => 0.52
  | macro_context => 0.56
  | sentiment_started => 0.58
  | social_sentiment => 0.62
  | market_news_started => 0.63
  | market_news => 0.64
  | coverage => 0.65
  | filings_started => 0.67
  | filings => 0.70
  | insider_activity_started => 0.71
  | insider_activity => 0.715
  | analyzing => 0.72
  | decision_token => 0.74
  | decision_ready => 0.78
  | narrative_started => 0.80
  | narrative_token => 0.82
  | narrative_ready => 0.85
  | scenarios_started => 0.87
  | scenarios_ready => 0.90
  | competitive_started => 0.91
  | competitive_token => 0.92
  | competitive_landscape => 0.93
  | price_history_started => 0.94
  | price_history => 0.95
  | complete => 1.0
  end.

(** The progress value of an event before [_event] rounds it. *)
Definition unrounded (e : event) : Q := anchor (ev_stage e).

End Stream.

(* ===================================================================== *)
(** ** The batch pipeline ([core/pipeline/intelligence.py]) *)
(* ===================================================================== *)

Module Intelligence.

Import Ranking.

Record decision : Type := {
  answer_summary : string;
  confidence : Q;
  risk_level : string;
  recommendation : string
}.

(** The entries of the financial snapshot that the fallback summary prints,
    each as the text Python prints for it; [None] when the entry is falsy
    (or, for [trailing_pe] and [revenue_growth], is ["n/a"]).  [mc_str] is
    the market capitalisation after its T/B/M formatting. *)
Record financials : Type := {
  price : option string;
  mc_str : option string;
  trailing_pe : option string;
  revenue_growth : option string
}.

(** The answer of [generate_parallel_intelligence], as far as the decision
    reads it. *)
Record parallel_results : Type := {
  executive_summary : option string;
  llm_recommendation : option string
}.

(** [float(item.get("confidence", 0.0) or 0.0)] *)
Definition confidence_of (e : enriched) : Q :=
  or_zero (get (Ranking.confidence (row e))).

(** [sum(... for item in items[:5])] *)
Definition sum_confidence (items : list enriched) : Q :=
  fold_left (fun acc e => acc + confidence_of e) (firstn 5 items) 0.

(** [{"low": 1, "medium": 2, "high": 3}.get(item.get("threat_level", "low"), 1)] *)
Definition threat_rank (e : enriched) : Z :=
  match get_default "low" (threat_level (row e)) with
  | Some s =>
      if String.eqb s "high" then 3
      else if String.eqb s "medium" then 2
      else 1
  | None => 1
  end%Z.

(** [max((... for item in items[:5]), default=1)] *)
Definition max_threat (items : list enriched) : Z :=
  match List.map threat_rank (firstn 5 items) with
  | [] => 1%Z
  | x :: r => fold_left Z.max r x
  end.

Definition risk_level_of (max_threat : Z) : string :=
  if (3 <=? max_threat)%Z then "high"
  else if (max_threat =? 2)%Z then "medium"
  else "low".

(** [_detect_contradictions] of [ranking.py]: the [type]s it reports. *)
Definition _detect_contradictions (items : list enriched) : list string :=
  let top := firstn 8 items in
  let threat_levels :=
    List.map (fun e => get_default "low" (threat_level (row e))) top in
  let has lvl := existsb (fun t => bool_decide (t = Some lvl)) threat_levels in
  let action_words := ["act"; "immediate"; "respond"; "accelerate"; "launch"] in
  let wait_words := ["monitor"; "continue"; "observe"; "hold"; "wait"] in
  let mentions words e :=
    let recommendation := lower (or_empty (get (Ranking.recommendation (row e)))) in
    existsb (fun word => contains word recommendation) words in
  (if has "high" && has "low" then ["threat_level_conflict"] else [])
  ++ (if existsb (mentions action_words) top && existsb (mentions wait_words) top
      then ["recommendation_conflict"] else []).

Section Templates.

(** [f"{x:.0%}"] and [str(n)], the number formats of the templates. *)
Variable fmt_percent : Q -> string.
Variable fmt_count : nat -> string.

Definition join_space (parts : list string) : string :=
  String.concat " " parts.

Definition risk_prefix (risk_level : string) : string :=
  if String.eqb risk_level "high" then "Exercise caution — "
  else if String.eqb risk_level "medium" then "Monitor closely — "
  else "".

(** The data-rich summary used when the LLM gives none. *)
Definition fallback_summary (query_text : string) (items : list enriched)
    (fin : financials) : string :=
  let top_threat :=
    match items with
    | top :: _ => str (get_default "low" (threat_level (row top)))
    | [] => "low"
    end in
  let top_insight :=
    match items with
    | top :: _ =>
        match get (insight (row top)) with
        | Some (String c s) => ["Top signal: " ++ take 150 (String c s)]
        | _ => []
        end
    | [] => []
    end in
  join_space
    (["Analysis for '" ++ query_text ++ "': "]
     ++ match price fin with
        | Some p =>
            ["Current price $" ++ p]
            ++ match mc_str fin with
               | Some mc => ["(market cap " ++ mc ++ ")."]
               | None => []
               end
        | None => []
        end
     ++ match trailing_pe fin with Some pe => ["P/E " ++ pe ++ "."] | None => [] end
     ++ match revenue_growth fin with
        | Some g => ["Revenue growth " ++ g ++ "."]
        | None => []
        end
     ++ ["Based on " ++ fmt_count (List.length items)
         ++ " evidence sources, overall risk is " ++ top_threat ++ "."]
     ++ top_insight).

(** [_summarize_decision].  [llm_summary] and [llm_rec] are the answers of
    [generate_executive_summary] and [generate_recommendation], which are
    only asked when there is evidence. *)
Definition _summarize_decision (query_text : string) (ranked_items : list enriched)
    (fin : financials) (llm_summary llm_rec : option string) : decision :=
  match ranked_items with
  | [] =>
      {| answer_summary :=
           "No strong evidence found for this query in current ingested intelligence.";
         confidence := 0.25;
         risk_level := "low";
         recommendation :=
           "Ingest additional relevant sources or broaden query terms before making a decision." |}
  | _ =>
      let n := Nat.min (List.length ranked_items) 5 in
      let avg_confidence := sum_confidence ranked_items / inject_Z (Z.of_nat n) in
      let risk_level := risk_level_of (max_threat ranked_items) in
      let answer_summary :=
        if truthy llm_summary then or_empty llm_summary
        else fallback_summary query_text ranked_items fin in
      let recommendation :=
        if truthy llm_rec then or_empty llm_rec
        else
          risk_prefix risk_level
          ++ "Evidence confidence is " ++ fmt_percent avg_confidence
          ++ " across " ++ fmt_count n ++ " sources. "
          ++ match _detect_contradictions ranked_items with
             | [] => "Review supporting evidence before making decisions."
             | _ => "Contradictory signals detected; verify before acting."
             end in
      {| answer_summary := answer_summary;
         confidence := round 3 avg_confidence;
         risk_level := risk_level;
         recommendation := recommendation |}
  end.

(** Step 7 of [run_market_intelligence_query]: the decision, from the
    parallel LLM results when they carry an executive summary and from
    [_summarize_decision] otherwise.  [llm_results] is [None] when the
    parallel dispatch raised. *)
Definition build_decision (query_text : string) (top_evidence : list enriched)
    (fin : financials) (llm_results : option parallel_results)
    (llm_summary llm_rec : option string) : decision :=
  let from_llm :=
    match llm_results with
    | Some res => if truthy (executive_summary res) then Some res else None
    | None => None
    end in
  match from_llm with
  | Some res =>
      let n := Nat.min (List.length top_evidence) 5 in
      let avg_confidence :=
        sum_confidence top_evidence / inject_Z (Z.of_nat (Nat.max n 1)) in
      let risk_level := risk_level_of (max_threat top_evidence) in
      {| answer_summary := or_empty (executive_summary res);
         confidence := round 3 avg_confidence;
         risk_level := risk_level;
         recommendation :=
           if truthy (llm_recommendation res) then or_empty (llm_recommendation res)
           else
             risk_prefix risk_level
             ++ "Evidence confidence is " ++ fmt_percent avg_confidence
             ++ " across " ++ fmt_count n ++ " sources." |}
  | None => _summarize_decision query_text top_evidence fin llm_summary llm_rec
  end.

(** The head of the report: [executive_summary] and [decision_card]. *)
Record report_head : Type := {
  report_executive_summary : string;
  card_recommendation : string;
  card_confidence : Q;
  card_risk_level : string
}.

Definition report_of (d : decision) : report_head :=
  {| report_executive_summary := answer_summary d;
     card_recommendation := recommendation d;
     card_confidence := confidence d;
     card_risk_level := risk_level d |}.

(** The report head of a batch query whose ranking step returned [ranked]. *)
Definition run_market_intelligence_query (query_text : string) (limit : nat)
    (ranked : list enriched) (fin : financials)
    (llm_results : option parallel_results) (llm_summary llm_rec : option string)
    : report_head :=
  let top_evidence := firstn limit ranked in
  report_of (build_decision query_text top_evidence fin llm_results llm_summary llm_rec).

End Templates.

End Intelligence.

(* ===================================================================== *)
(** ** Text chunking ([core/processing.py]) *)
(* ===================================================================== *)

Module Processing.

(** The [while] loop of [chunk_text], run for at most [fuel] iterations;
    [None] when the fuel runs out before the loop ends. *)
Fixpoint chunk_loop (fuel : nat) (text : string) (safe_chunk_size safe_overlap : Z)
    (start : Z) (chunks : list string) : option (list string) :=
  match fuel with
  | O => None
  | S fuel' =>
      let length := Z.of_nat (String.length text) in
      if (start <? length)%Z then
        let end_ := Z.min (start + safe_chunk_size) length in
        let chunk := strip (slice text start end_) in
        let chunks :=
          match chunk with
          | EmptyString => chunks
          | _ => (chunks ++ [chunk])%list
          end in
        if (end_ =? length)%Z then Some chunks
        else chunk_loop fuel' text safe_chunk_size safe_overlap
               (end_ - safe_overlap) chunks
      else Some chunks
  end.

Definition safe_chunk_size (chunk_size : Z) : Z := Z.max chunk_size 100.

Definition safe_overlap (chunk_size overlap : Z) : Z :=
  Z.min (Z.max overlap 0) (safe_chunk_size chunk_size - 1).

(** [chunk_text(text, chunk_size, overlap)] with a bound on the number of
    loop iterations. *)
Definition chunk_text (fuel : nat) (text : string) (chunk_size overlap : Z)
    : option (list string) :=
  match text with
  | EmptyString => Some []
  | _ =>
      chunk_loop fuel text (safe_chunk_size chunk_size)
        (safe_overlap chunk_size overlap) 0 []
  end.

(** Where the loop puts [start] after an iteration that does not end it. *)
Definition next_start (text : string) (chunk_size overlap start : Z) : Z :=
  (Z.min (start + safe_chunk_size chunk_size) (Z.of_nat (String.length text))
   - safe_overlap chunk_size overlap)%Z.

End Processing.


(* ===================================================================== *)
(** ** The other helpers of [core/pipeline/ranking.py] *)
(* ===================================================================== *)

Module RankingHelpers.

Import Ranking.

(** [[item.get("created_at") for item in items if ... is not None]] *)
Definition created_times (items : list item) : list Q :=
  flat_map (fun it => match get (created_at it) with Some t => [t] | None => [] end)
    items.

(** [max(..., default=None)] of the creation times. *)
Definition freshest (items : list item) : option Q :=
  match created_times items with
  | [] => None
  | t :: r => Some (fold_left Qmax r t)
  end.

(** [_needs_refresh], [now] being [datetime.now(timezone.utc)] in seconds. *)
Definition _needs_refresh (now : Q) (items : list item)
    (min_evidence stale_after_hours : Z) : bool :=
  if (Z.of_nat (List.length items) <? min_evidence)%Z then true
  else
    match freshest items with
    | None => true
    | Some f =>
        let age_hours := (now - f) / 3600 in
        Qltb (inject_Z stale_after_hours) age_hours
    end.

(** [list(dict.fromkeys(l))]: the first occurrence of each string, in order. *)
Fixpoint unique_in_order (l : list string) : list string :=
  match l with
  | [] => []
  | x :: r => x :: List.filter (fun y => negb (String.eqb x y)) (unique_in_order r)
  end.

Section Formats.

(** [str(x)] of a confidence value, a number or [None]. *)
Variable fmt_value : option Q -> string.

Definition _build_signal_shifts (items : list enriched) : list string :=
  let shift (e : enriched) :=
    let source := str (get_default "unknown source" (source_name (row e))) in
    let threat := str (get_default "low" (threat_level (row e))) in
    let confidence := fmt_value (get_default 0 (Ranking.confidence (row e))) in
    source ++ ": " ++ threat ++ " risk signal at confidence " ++ confidence ++ "." in
  let shifts := List.map shift (firstn 3 items) in
  let shifts :=
    match shifts with
    | [] => ["No strong market shift detected from current evidence."]
    | _ => shifts
    end in
  unique_in_order shifts.

End Formats.

End RankingHelpers.

(* ===================================================================== *)
(** ** Query parsing ([core/pipeline/query.py]) *)
(* ===================================================================== *)

Module Query.

(** [s.replace(c, d)] for one-character [c] and [d]. *)
Fixpoint replace_char (c d : ascii) (s : string) : string :=
  match s with
  | EmptyString => EmptyString
  | String x r => String (if Ascii.eqb x c then d else x) (replace_char c d r)
  end.

(** [any(token in tokens for token in words)] *)
Definition any_in (words tokens : list string) : bool :=
  existsb (fun w => existsb (String.eqb w) tokens) words.

Record parsed_query : Type := {
  entity : string;
  ticker : option string;
  entity_record : option Entities.entity_row;
  timeframe : string;
  intent : string;
  tokens : list string
}.

(** [_parse_query]; [entity_record] is the answer of [resolve_entity], [None]
    also when it raised. *)
Definition _parse_query (query_text : string)
    (entity_record : option Entities.entity_row) : parsed_query :=
  let lowered := strip (lower query_text) in
  let tokens :=
    List.filter (fun token => negb (String.eqb token ""))
      (split (replace_char "," " " lowered)) in
  let timeframe :=
    if any_in ["quarter"; "q1"; "q2"; "q3"; "q4"] tokens then "quarter"
    else if any_in ["year"; "annual"; "yoy"] tokens then "year"
    else if any_in ["week"; "today"; "latest"; "recent"] tokens then "recent"
    else "current" in
  let intent :=
    if any_in ["risk"; "threat"; "exposure"] tokens then "risk"
    else if any_in ["growth"; "revenue"; "earnings"; "profit"; "margin"] tokens
    then "financial"
    else if any_in ["pricing"; "competition"; "market"; "strategy"] tokens
    then "market"
    else "general" in
  let entity_name :=
    match split query_text with
    | w :: _ => w
    | [] => query_text
    end in
  {| entity :=
       match entity_record with
       | Some r =>
           if String.eqb (Entities.name r) "" then entity_name else Entities.name r
       | None => entity_name
       end;
     ticker := option_map Entities.ticker entity_record;
     entity_record := entity_record;
     timeframe := timeframe;
     intent := intent;
     tokens := tokens |}.

(** The part of the parsed query that [_rank_items] reads. *)
Definition ranking_context (q : parsed_query) : Ranking.query_context :=
  {| Ranking.tokens := tokens q;
     Ranking.ticker := ticker q;
     Ranking.entity := Some (entity q);
     Ranking.sector := option_map Entities.sector (entity_record q) |}.

End Query.

(* ===================================================================== *)
(** ** Source discovery ([core/source_discovery.py]) *)
(* ===================================================================== *)

Module Discovery.

Record source_candidate : Type := {
  name : string;
  url : string;
  connector_type : string
}.

Section Urls.

(** [urllib.parse.quote_plus] *)
Variable quote_plus : string -> string.

(** [discover_query_sources]; [symbol] is [pre_resolved_ticker or
    resolve_yahoo_symbol(query_text)]. *)
Definition discover_query_sources (query_text : string) (symbol : option string)
    : list source_candidate :=
  let encoded_query := quote_plus query_text in
  ({| name := "Google News: " ++ query_text;
      url := "https://news.google.com/rss/search?q=" ++ encoded_query;
      connector_type := "rss" |}
   :: (if truthy symbol then
         let symbol := or_empty symbol in
         [ {| name := "Yahoo Finance Quote: " ++ symbol;
              url := "https://finance.yahoo.com/quote/" ++ symbol;
              connector_type := "web" |};
           {| name := "Yahoo Finance News: " ++ symbol;
              url := "https://feeds.finance.yahoo.com/rss/2.0/headline?s="
                     ++ symbol ++ "&region=US&lang=en-US";
              connector_type := "rss" |} ]
       else []))%list.

End Urls.

End Discovery.

(* ===================================================================== *)
(** ** Rule-based analysis ([rules/analyst.py], [rules/critic.py]) *)
(* ===================================================================== *)

Module Rules.

Record analysis : Type := {
  insight : string;
  threat_level : string;
  recommendation : string;
  confidence : Q;
  evidence_ref : string;
  evidence_excerpt : string
}.

Definition build_analysis (source_name source_url : string) (has_changed : bool)
    (excerpt : string) : analysis :=
  if has_changed then
    {| insight := "Change detected for " ++ source_name
                  ++ "; extracted update requires review.";
       threat_level := "medium";
       recommendation :=
         "Compare latest change against prior messaging and assess strategic impact.";
       confidence := 0.72;
       evidence_ref := source_url;
       evidence_excerpt := excerpt |}
  else
    {| insight := "No meaningful change detected for " ++ source_name
                  ++ " in this cycle.";
       threat_level := "low";
       recommendation :=
         "Continue scheduled monitoring and aggregate with trend signals.";
       confidence := 0.61;
       evidence_ref := source_url;
       evidence_excerpt := excerpt |}.

Record critique : Type := {
  critic_status : string;
  critique_confidence : Q;
  has_evidence : bool
}.

(** [bool(s)] of a string *)
Definition nonempty (s : string) : bool := negb (String.eqb s "").

Definition review_analysis (a : analysis) : critique :=
  let confidence := confidence a in
  let has_evidence := nonempty (evidence_ref a) && nonempty (evidence_excerpt a) in
  let critic_status :=
    if Qltb confidence 0.55 || negb has_evidence then "flagged"
    else if String.eqb (threat_level a) "high" && Qltb confidence 0.75 then "flagged"
    else "approved" in
  {| critic_status := critic_status;
     critique_confidence := confidence;
     has_evidence := has_evidence |}.

End Rules.

(* ===================================================================== *)
(** ** Coverage scores ([core/db/coverage.py], [core/pipeline/enrichment.py]) *)
(* ===================================================================== *)

Module Coverage.

(** The six [COUNT( * )] answers [update_entity_coverage] reads. *)
Record counts : Type := {
  fin_q : nat;
  filing_cnt : nat;
  macro_cnt : nat;
  social_cnt : nat;
  news_cnt : nat;
  price_cnt : nat
}.

(** A row of [entity_coverage], without its ids and timestamp. *)
Record coverage_row : Type := {
  has_financials : bool;
  financials_quarters : nat;
  has_filings : bool;
  filings_count : nat;
  has_macro : bool;
  has_social : bool;
  has_news : bool;
  has_price : bool;
  coverage_score : Q
}.

Definition Qofnat (n : nat) : Q := inject_Z (Z.of_nat n).

(** The unrounded weighted score of [update_entity_coverage]. *)
Definition weighted_score (c : counts) : Q :=
  let score := 0 in
  let score :=
    if (0 <? fin_q c)%nat then score + 0.30 * Qmin (Qofnat (fin_q c) / 8) 1
    else score in
  let score :=
    if (0 <? filing_cnt c)%nat then score + 0.20 * Qmin (Qofnat (filing_cnt c) / 5) 1
    else score in
  let score := if (0 <? macro_cnt c)%nat then score + 0.15 else score in
  let score := if (0 <? social_cnt c)%nat then score + 0.10 else score in
  let score := if (0 <? news_cnt c)%nat then score + 0.15 else score in
  let score := if (0 <? price_cnt c)%nat then score + 0.10 else score in
  score.

(** The row [update_entity_coverage] upserts and returns. *)
Definition update_entity_coverage (c : counts) : coverage_row :=
  {| has_financials := (0 <? fin_q c)%nat;
     financials_quarters := fin_q c;
     has_filings := (0 <? filing_cnt c)%nat;
     filings_count := filing_cnt c;
     has_macro := (0 <? macro_cnt c)%nat;
     has_social := (0 <? social_cnt c)%nat;
     has_news := (0 <? news_cnt c)%nat;
     has_price := (0 <? price_cnt c)%nat;
     coverage_score := round 4 (weighted_score c) |}.

(** What [_build_coverage_assessment] reads of the live snapshot and of the
    social sentiment block. *)
Record live_signals : Type := {
  price_known : bool;            (* fin.get("price") is not None *)
  trailing_pe_known : bool;      (* fin.get("trailing_pe") is not None *)
  range_given : bool;            (* bool(fin.get("fifty_two_week_range")) *)
  low_known : bool;              (* fin.get("fifty_two_week_low") is not None *)
  social_available : bool        (* bool(soc.get("available")) *)
}.

Record breakdown : Type := {
  b_has_financials : bool;
  b_financials_quarters : nat;
  b_has_filings : bool;
  b_filings_count : nat;
  b_has_macro : bool;
  b_has_social : bool;
  b_has_news : bool;
  b_has_price : bool
}.

Record assessment : Type := {
  available : bool;
  score : Q;
  details : option breakdown       (* [None] for the empty [{}] *)
}.

(** The breakdown after the overlays. *)
Definition overlay (coverage : option coverage_row) (live : live_signals) : breakdown :=
  let flag (f : coverage_row -> bool) :=
    match coverage with Some r => f r | None => false end in
  let count (f : coverage_row -> nat) :=
    match coverage with Some r => f r | None => 0%nat end in
  {| b_has_financials :=
       if price_known live && trailing_pe_known live then true else flag has_financials;
     b_financials_quarters := count financials_quarters;
     b_has_filings := flag has_filings;
     b_filings_count := count filings_count;
     b_has_macro := flag has_macro;
     b_has_social := if social_available live then true else flag has_social;
     b_has_news := flag has_news;
     b_has_price :=
       if range_given live || low_known live then true else flag has_price |}.

(** The [weights] dict, in its order. *)
Definition weights : list ((breakdown -> bool) * Q) :=
  [ (b_has_financials, 0.25); (b_has_filings, 0.15); (b_has_macro, 0.10);
    (b_has_social, 0.10); (b_has_news, 0.20); (b_has_price, 0.20) ].

Definition computed_score (b : breakdown) : Q :=
  let total_weight := fold_left (fun (t : Q) (kw : (breakdown -> bool) * Q) => t + snd kw) weights 0 in
  let score_parts :=
    fold_left (fun (s : Q) (kw : (breakdown -> bool) * Q) =>
                 if fst kw b then s + snd kw else s) weights 0 in
  if Qltb 0 total_weight then round 4 (score_parts / total_weight) else 0.

(** [_build_coverage_assessment]; [coverage] is the answer of
    [get_entity_coverage], [None] also when it raised. *)
Definition _build_coverage_assessment (ticker : option string)
    (coverage : option coverage_row) (live : live_signals) : assessment :=
  if negb (truthy ticker) then {| available := false; score := 0; details := None |}
  else
    let b := overlay coverage live in
    let db_score :=
      round 4 (match coverage with Some r => coverage_score r | None => 0 end) in
    {| available := true;
       score := Qmax db_score (computed_score b);
       details := Some b |}.

End Coverage.

(* ===================================================================== *)
(** ** Social sentiment block ([core/pipeline/enrichment.py]) *)
(* ===================================================================== *)

Module Social.

(** A row of [social_signals], as far as the block reads it. *)
Record signal : Type := {
  mention_count : Z;
  avg_sentiment : Q;
  top_posts : list string
}.

Record sentiment_block : Type := {
  available : bool;
  total_mentions_7d : Z;
  avg_sentiment_shown : Q;
  sentiment_label : string;
  days_data : nat;
  top_posts_shown : list string
}.

(** [sum(sentiments) / len(sentiments)] *)
Definition average (l : list Q) : Q :=
  match l with
  | [] => 0
  | _ => fold_left Qplus l 0 / inject_Z (Z.of_nat (List.length l))
  end.

Definition label_of (avg_sent : Q) : string :=
  if Qltb 0.2 avg_sent then "bullish"
  else if Qltb avg_sent (-0.2) then "bearish"
  else "neutral".

(** [_build_social_sentiment] on the rows [get_social_signals] returned for
    a ticker; [None] stands for the three early returns, and the [summary]
    text is left out. *)
Definition _build_social_sentiment (signals : list signal) : option sentiment_block :=
  match signals with
  | [] => None
  | _ =>
      let avg_sent := average (List.map avg_sentiment signals) in
      Some {| available := true;
              total_mentions_7d :=
                fold_left Z.add (List.map mention_count signals) 0%Z;
              avg_sentiment_shown := round 3 avg_sent;
              sentiment_label := label_of avg_sent;
              days_data := List.length signals;
              top_posts_shown := firstn 5 (flat_map top_posts signals) |}
  end.

End Social.

(* ===================================================================== *)
(** ** Text normalisation ([core/processing.py]) *)
(* ===================================================================== *)

Module Text.

(** [" ".join(s.split())] *)
Definition normalize_space (s : string) : string := String.concat " " (split s).

(** [build_excerpt] *)
Definition build_excerpt (content : string) (max_length : Z) : string :=
  slice (normalize_space content) 0 max_length.

Section Html.

(** [BeautifulSoup(raw, "html.parser").get_text(separator=" ", strip=True)] *)
Variable get_text : string -> string.

(** [normalize_content]; the [source_url] argument is not read. *)
Definition normalize_content (raw_content source_url : string) : string :=
  if contains "<html" (lower raw_content) || contains "</" raw_content
  then normalize_space (get_text raw_content)
  else normalize_space raw_content.

End Html.

End Text.

(* ===================================================================== *)
(** ** The request gate of the API providers
       ([connectors/providers/alpha_vantage.py], [connectors/providers/fmp.py]) *)
(* ===================================================================== *)

Module ProviderCalls.

Import Providers.

(** The prologue of [_get]: does the call reach the HTTP request, and the
    budget it leaves. *)
Definition _get (c : clock) (b : budget) : bool * budget :=
  let '(ok, b1) := rate_limit_ok c b in
  if negb ok then (false, b1) else (true, _track_call c b1).

(** A series of [_get] calls at the given instants: how many reached the
    HTTP request, and the budget left. *)
Fixpoint calls (cs : list clock) (b : budget) : nat * budget :=
  match cs with
  | [] => (0%nat, b)
  | c :: r =>
      let '(sent, b1) := _get c b in
      let '(n, b2) := calls r b1 in
      ((if sent then S n else n), b2)
  end.

End ProviderCalls.

(* ===================================================================== *)
(** * Predicates and sample data of the properties *)
(* ===================================================================== *)

(** ** For ranking *)

Module RankingCases.

Import Ranking.

(** An item whose three stored scores lie within [0, 1]. *)
Definition scores_in_unit (it : item) : Prop :=
  0 <= or_zero (get (confidence it)) <= 1 /\
  0 <= or_zero (get (text_rank it)) <= 1 /\
  0 <= or_zero (get (similarity_score it)) <= 1.

(** A thin item from a hypothetical feed whose text-search rank is 20: an
    item with many occurrences of the query term. *)
Definition heavy_text_item : item :=
  {| source_name := Val "Example Feed";
     insight := Val "earnings earnings earnings";
     recommendation := Null;
     evidence_ref := Val "https://example.com/a";
     confidence := Val 0.5;
     text_rank := Val 20;
     similarity_score := Missing;
     created_at := Null;
     critic_status := Val "approved";
     threat_level := Val "low" |}.

Definition unresolved_context : query_context :=
  {| tokens := ["earnings"]; ticker := None; entity := None; sector := None |}.

(** A pseudo-insight as [_hybrid_retrieve] builds it from a memory chunk
    whose cosine similarity to the query is -0.5. *)
Definition dissimilar_chunk_item : item :=
  {| source_name := Val "Company blog";
     insight := Val "Quarterly newsletter for subscribers";
     recommendation := Val "";
     evidence_ref := Val "https://example.com/blog";
     confidence := Val (-0.5);
     text_rank := Val 0;
     similarity_score := Val (-0.5);
     created_at := Null;
     critic_status := Val "approved";
     threat_level := Val "low" |}.

Definition tesla_context : query_context :=
  {| tokens := ["tesla"]; ticker := Some "TSLA"; entity := Some "Tesla, Inc.";
     sector := None |}.

(** An ordinary item: a filing note with all three scores in range. *)
Definition filing_item : item :=
  {| source_name := Val "SEC EDGAR: AAPL";
     insight := Val "Apple 10-Q shows services revenue growth";
     recommendation := Val "Monitor margins";
     evidence_ref := Val "https://www.sec.gov/x";
     confidence := Val 0.72;
     text_rank := Val 0.1;
     similarity_score := Val 0.8;
     created_at := Val 0;
     critic_status := Val "approved";
     threat_level := Val "low" |}.

Definition apple_context : query_context :=
  {| tokens := ["apple"; "revenue"];
     ticker := Some "AAPL";
     entity := Some "Apple Inc.";
     sector := Some "Technology" |}.

(** The condition as the specification words it: [source_name] starts with
    one of the two prefixes and the entity name is absent from it, case
    ignored. *)
Definition spec_polluted (entity_name : string) (src : string) : bool :=
  (startswith "Google News:" src || startswith "Yahoo Finance News:" src)
  && negb (contains (lower entity_name) (lower src)).

(** A source as the DuckDuckGo provider registers it: the page title after
    a ["[DDG-news] "] label, the ticker after it. *)
Definition relabelled_item : item :=
  {| source_name := Val "[DDG-news] Google News: Microsoft Q4 results (MSFT)";
     insight := Val "Microsoft beats estimates";
     recommendation := Null;
     evidence_ref := Val "https://news.google.com/rss/search?q=Microsoft";
     confidence := Val 0.6;
     text_rank := Val 0.05;
     similarity_score := Missing;
     created_at := Null;
     critic_status := Val "approved";
     threat_level := Val "low" |}.

(** The lowercased [source_name] the check reads. *)
Definition src_name_of (it : item) : string :=
  lower (str (get_default "" (source_name it))).

Definition occurs_in (p s : string) : Prop :=
  exists pre post, s = (pre ++ p ++ post)%string.

(** An item fetched for an earlier Microsoft query, ranked for Apple. *)
Definition stale_feed_item : item :=
  {| source_name := Val "Google News: Microsoft Q4";
     insight := Val "Microsoft beats estimates";
     recommendation := Null;
     evidence_ref := Val "https://news.google.com/rss/search?q=Microsoft";
     confidence := Val 0.6;
     text_rank := Val 0.05;
     similarity_score := Missing;
     created_at := Null;
     critic_status := Val "approved";
     threat_level := Val "low" |}.

End RankingCases.

(** ** For the entity cache *)

Module EntityCases.

Import Entities.

Definition apple_args : upsert_args :=
  {| arg_name := "Apple Inc.";
     arg_ticker := "AAPL";
     arg_cik := "0000320193";
     arg_sector := "Technology";
     arg_industry := "Consumer Electronics";
     arg_exchange := "NMS";
     arg_entity_type := "company";
     arg_aliases := Some ["apple"; "apple inc."; "aapl"] |}.

Definition empty_table : table := {| rows := ∅; next_id := 1 |}.

End EntityCases.

(** ** For financial periods *)

Module FinancialCases.

Import Financials.

(** What the specification asks of one statement map after an upsert. *)
Definition merged (target excluded result : gmap string json) : Prop :=
  (excluded = ∅ -> result = target)
  /\ (excluded <> ∅ ->
      forall key : string,
        result !! key =
        match excluded !! key with
        | Some v => Some v
        | None => target !! key
        end).

Definition q3_key : period_key := ("AAPL", "quarterly", "2024-06-29", "fmp").

Definition q3_row : period_row :=
  {| entity_id := Some 1%Z;
     fiscal_year := Some 2024%Z;
     fiscal_quarter := Some 3%Z;
     income_statement := {[ "revenue"%string := JNum 85777; "net_income"%string := JNum 21448 ]};
     balance_sheet := {[ "total_assets"%string := JNum 331612 ]};
     cash_flow := ∅;
     key_metrics := ∅ |}.

Definition q3_update : upsert_args :=
  {| arg_entity_id := None;
     arg_fiscal_year := None;
     arg_fiscal_quarter := None;
     arg_income_statement := Some {[ "revenue"%string := JNum 85778; "eps"%string := JNum 1.4 ]};
     arg_balance_sheet := None;
     arg_cash_flow := Some ∅;
     arg_key_metrics := Some {[ "pe_ratio"%string := JNum 33 ]} |}.

End FinancialCases.

(** ** For the provider budget *)

Module ProviderCases.

Import Providers.





Definition noon : clock := {| utc_seconds := 43200; utc_offset := 0 |}.

Definition alpha_vantage_spent : budget :=
  {| _daily_limit := 25; _calls_today := 25; _last_reset_date := Some 0%Z |}.

(** The Alpha Vantage class of the registry (25 calls a day), with a fetch
    that makes five requests on its object and stores three records. *)
Definition alpha_vantage : provider_class :=
  {| class_name := "alpha_vantage";
     class_daily_limit := 25;
     class_fetch := fun c b =>
       (Returned [ {| provider := "alpha_vantage"; data_type := "financials";
                      records_stored := 3; success := true; error := "" |} ],
        _track_call c (_track_call c (_track_call c (_track_call c (_track_call c b))))) |}.

Definition fred : provider_class :=
  {| class_name := "fred";
     class_daily_limit := 0;
     class_fetch := fun c b =>
       (Returned [ {| provider := "fred"; data_type := "macro";
                      records_stored := 12; success := true; error := "" |} ], b) |}.

(** An Alpha Vantage object whose own counter has reached the limit on the
    day [noon] shows. *)
Definition alpha_vantage_at_limit : provider_obj :=
  {| provider_name := "alpha_vantage";
     state := alpha_vantage_spent;
     fetch_company_data := class_fetch alpha_vantage |}.

End ProviderCases.

(** ** For scenarios *)

Module ScenarioCases.

Import Scenarios.


Definition equal_share : scenario :=
  {| name := Val "s"; probability := Val 0.33; assumption := Missing;
     impact := Missing; trigger_signals := Missing |}.

Definition llm_bull : scenario :=
  {| name := Val "bull"; probability := Val 0.3; assumption := Val "demand holds";
     impact := Missing; trigger_signals := Missing |}.

Definition llm_base : scenario :=
  {| name := Val "base"; probability := Val 0.5; assumption := Missing;
     impact := Val "steady"; trigger_signals := Val ["stable guidance"] |}.

Definition llm_bear : scenario :=
  {| name := Val "bear"; probability := Missing; assumption := Missing;
     impact := Missing; trigger_signals := Missing |}.



Definition llm_scenario (p : Q) : scenario :=
  {| name := Val "s"; probability := Val p; assumption := Missing;
     impact := Missing; trigger_signals := Missing |}.

Definition llm_normalized : list scenario :=
  match _build_scenarios (Val 0.6) [] (Some [llm_bull; llm_base; llm_bear]) with
  | Some l => l
  | None => []
  end.

End ScenarioCases.

(** ** For the stream *)

Module StreamCases.

Import Stream.

(** [nd_from key lo l]: [l] is non-decreasing in [key] and starts at or
    above [lo]. *)
Fixpoint nd_from (key : event -> Q) (lo : Q) (l : list event) : bool :=
  match l with
  | [] => true
  | e :: r => Qle_bool lo (key e) && nd_from key (key e) r
  end.

Definition head_differs (s : stage) (l : list stage) : Prop :=
  match l with x :: _ => x <> s | [] => True end.

(** The mandatory stages of a complete run, written out. *)
Definition canonical (providers d n c : nat) : list stage :=
  [query_parsed; enrichment_started]
  ++ repeat provider_complete providers
  ++ [enrichment_complete; retrieval_started; retrieval_complete;
      ranking_complete; financial_snapshot; historical_trends; macro_context;
      social_sentiment; coverage; filings; analyzing]
  ++ repeat decision_token d
  ++ [decision_ready; narrative_started]
  ++ repeat narrative_token n
  ++ [narrative_ready; scenarios_ready; competitive_started]
  ++ repeat competitive_token c
  ++ [competitive_landscape; price_history; complete].

(** The number of [provider_complete] events of a run. *)
Definition provider_events (e : enrichment_run) : nat :=
  match e with Refreshed n _ => n | _ => 0%nat end.

Definition apple_run : run :=
  {| has_ticker := true;
     enrichment := Refreshed 3 true;
     analyst_ok := true;
     trends_available := true;
     news_ok := false;
     insider_ok := true;
     decision_tokens := ["Apple"; " is"; " steady."];
     narrative_tokens := ["Demand"; " holds."];
     competitive_tokens := [] |}.

End StreamCases.

(** ** For the batch pipeline *)

Module IntelligenceCases.

Import Intelligence.

Definition no_financials : financials :=
  {| price := None; mc_str := None; trailing_pe := None; revenue_growth := None |}.

(** The parallel dispatch answered with an executive summary. *)
Definition llm_answered : parallel_results :=
  {| executive_summary := Some "Zzz9 Corp is not covered by the available data.";
     llm_recommendation := None |}.

Definition no_evidence_text : string :=
  "No strong evidence found for this query in current ingested intelligence.".

End IntelligenceCases.

(** ** For chunking *)

Module ProcessingCases.

Import Processing.

(** Three hundred characters: thirty words of nine letters and a blank. *)
Definition long_text : string := String.concat "" (repeat "abcdefghi " 30).

(** What holds of every chunk: it is not empty and fits the chunk size. *)
Definition good_chunk (size : Z) (c : string) : Prop :=
  c <> ""%string /\ (Z.of_nat (String.length c) <= size)%Z.

End ProcessingCases.

(** ** For the further properties *)

Module RankingOrderCases.

Import Ranking.

(** Highest score first. *)
Definition descending (l : list enriched) : Prop :=
  StronglySorted (fun a b => rank_score b <= rank_score a) l.

(** The rows the hard filter keeps. *)
Definition relevant (ctx : query_context) (it : item) : bool :=
  Qltb 0.3 (_entity_relevance (ticker ctx) (entity ctx) it).

(** Does the hard filter let the scored row of [it] through? *)
Definition passes_filter (ctx : query_context) (items : list item) (it : item) : Prop :=
  (List.length (List.filter (relevant ctx) items) < 3)%nat \/ relevant ctx it = true.

Section Stages.

Variable md5 : string -> string.
Variable now : Q.
Variable ctx : query_context.

(** The three stages of [_rank_items] before the final sort: the scored
    rows sorted, the rows left by the hard filter, and the dict [seen]. *)
Definition scored (items : list item) : list enriched :=
  sort_desc (List.map (rank_item now ctx) items).

Definition kept (items : list item) : list enriched :=
  let relevant := List.filter (fun r => Qltb 0.3 (entity_relevance r)) (scored items) in
  if (3 <=? List.length relevant)%nat then relevant else scored items.

Definition seen_of (items : list item) : list (string * enriched) :=
  fold_left (fun seen e => seen_put (dedup_key md5 e) e seen) (kept items) [].

(** The dict [seen] as the loop keeps it: every value sits under its own
    key, and no key occurs twice. *)
Definition well_keyed (seen : list (string * enriched)) : Prop :=
  List.Forall (fun kv => fst kv = dedup_key md5 (snd kv)) seen
  /\ NoDup (List.map fst seen).

(** A row at least as good as [x] sits under the key of [x]. *)
Definition covered (x : enriched) (seen : list (string * enriched)) : Prop :=
  exists v, In (dedup_key md5 x, v) seen /\ rank_score x <= rank_score v.

End Stages.

(** Three copies of a filing note and one item of another company's feed. *)
Definition apple_rows : list item :=
  [RankingCases.filing_item; RankingCases.filing_item; RankingCases.filing_item;
   RankingCases.stale_feed_item].

End RankingOrderCases.

Module TextCases.

(** A word as [str.split] yields it: not empty, without a blank. *)
Definition wordlike (w : string) : Prop :=
  w <> ""%string /\ List.Forall (fun c => is_space c = false) (list_ascii_of_string w).

(** [p] occurs in [s] as a contiguous piece. *)
Definition piece_of (p s : string) : Prop :=
  exists pre post, s = (pre ++ p ++ post)%string.

End TextCases.

Module ProviderCallCases.

Import Providers.

(** The records reported in a list of provider results. *)
Definition records_sum (l : list ProviderResult) : Z :=
  fold_right (fun r n => (records_stored r + n)%Z) 0%Z l.

(** The calls the budget still admits on the day [today]. *)
Definition remaining (today : Z) (b : budget) : nat :=
  Z.to_nat (_daily_limit b - _calls_today (reset_if_new_day today b)).

Definition morning : clock := {| utc_seconds := 36000; utc_offset := 0 |}.

Definition nearly_spent : budget :=
  {| _daily_limit := 25; _calls_today := 23; _last_reset_date := Some 0%Z |}.

End ProviderCallCases.

Module QueryCases.

(** A character a query token can hold: not blank, not a comma, not one
    of the ASCII capitals A to Z. *)
Definition token_char (c : ascii) : bool :=
  negb (is_space c) && negb (Ascii.eqb c ",") && negb (is_upper c).

Definition clean_token (t : string) : Prop :=
  t <> ""%string
  /\ List.Forall (fun c => token_char c = true) (list_ascii_of_string t).

(** The Google News source of the query ["tesla earnings"], and an insight
    stored for it. *)
Definition tesla_feed : Discovery.source_candidate :=
  {| Discovery.name := "Google News: tesla earnings";
     Discovery.url := "https://news.google.com/rss/search?q=tesla earnings";
     Discovery.connector_type := "rss" |}.

Definition tesla_feed_item : Ranking.item :=
  {| Ranking.source_name := Val "Google News: tesla earnings";
     Ranking.insight := Val "Change detected for Google News: tesla earnings";
     Ranking.recommendation := Null;
     Ranking.evidence_ref := Val "https://news.google.com/rss/search?q=tesla earnings";
     Ranking.confidence := Val 0.72;
     Ranking.text_rank := Val 0.1;
     Ranking.similarity_score := Missing;
     Ranking.created_at := Null;
     Ranking.critic_status := Val "approved";
     Ranking.threat_level := Val "medium" |}.

End QueryCases.

Module StoreCases.

Import Entities.

(** What the [UNIQUE] ticker and the [SERIAL] id give a table: every row
    sits under its own ticker, its id was drawn from the sequence, and no
    two tickers share an id. *)
Definition consistent (t : table) : Prop :=
  (forall k r, rows t !! k = Some r -> ticker r = k /\ (id r < next_id t)%Z)
  /\ (forall k1 k2 r1 r2,
        rows t !! k1 = Some r1 -> rows t !! k2 = Some r2 -> id r1 = id r2 -> k1 = k2).

(** A series of upserts of financial periods, in order. *)
Definition upsert_all (ups : list (Financials.period_key * Financials.upsert_args))
    (t : gmap Financials.period_key Financials.period_row)
    : gmap Financials.period_key Financials.period_row :=
  fold_left (fun t ka => snd (Financials.upsert_financial_period (fst ka) (snd ka) t))
    ups t.

End StoreCases.

Module CoverageCases.

Import Coverage.

(** Every kind of data is there, with the eight quarters and five filings
    that count as full. *)
Definition full_coverage (c : counts) : Prop :=
  (8 <= fin_q c)%nat /\ (5 <= filing_cnt c)%nat /\ (0 < macro_cnt c)%nat
  /\ (0 < social_cnt c)%nat /\ (0 < news_cnt c)%nat /\ (0 < price_cnt c)%nat.

Definition apple_counts : counts :=
  {| fin_q := 6; filing_cnt := 5; macro_cnt := 12; social_cnt := 0;
     news_cnt := 3; price_cnt := 1 |}.

Definition live_quote : live_signals :=
  {| price_known := true; trailing_pe_known := true; range_given := true;
     low_known := true; social_available := false |}.

End CoverageCases.

Module SocialCases.

Import Social.

Definition week : list signal :=
  [ {| mention_count := 12; avg_sentiment := 0.4; top_posts := ["a"; "b"; "c"] |};
    {| mention_count := 3; avg_sentiment := 0.1; top_posts := ["d"; "e"; "f"] |} ].

(** The block built from [week]. *)
Definition week_block : sentiment_block :=
  {| available := true;
     total_mentions_7d := 15;
     avg_sentiment_shown := round 3 (average [0.4; 0.1]);
     sentiment_label := "bullish";
     days_data := 2;
     top_posts_shown := ["a"; "b"; "c"; "d"; "e"] |}.

End SocialCases.

Module StreamMoreCases.

Import Stream.

(** How many events of a stage a list holds. *)
Definition count_stage (s : stage) (l : list event) : nat :=
  List.length (List.filter (fun e => bool_decide (ev_stage e = s)) l).

(** The stages behind [if ticker:]. *)
Definition ticker_only (s : stage) : bool :=
  bool_decide (s ∈ [analyst_consensus_started; analyst_consensus;
                    trend_analysis_started; market_news_started; market_news;
                    insider_activity_started; insider_activity;
                    price_history_started]).

(** The [provider_complete] events the enrichment block emits. *)
Definition providers_reported (e : enrichment_run) : nat :=
  match e with Refreshed n _ => n | _ => 0%nat end.

Definition plain_run : run :=
  {| has_ticker := false; enrichment := Refreshed 2 true; analyst_ok := true;
     trends_available := true; news_ok := true; insider_ok := true;
     decision_tokens := ["Hold"; "."]; narrative_tokens := ["Stable"];
     competitive_tokens := [] |}.

End StreamMoreCases.

Module DecisionCases.

Import Ranking Intelligence.

(** An item whose stored [threat_level] is ["high"]. *)
Definition high_threat (e : enriched) : Prop :=
  get_default "low" (threat_level (row e)) = Some "high"%string.

Definition scored_filing : enriched :=
  rank_item 86400 RankingCases.apple_context RankingCases.filing_item.

End DecisionCases.

(* ===================================================================== *)
(** * Properties *)
(* ===================================================================== *)

(** ** Rounding *)

Section RoundFacts.

Lemma scale_pos (n : nat) : 0 < inject_Z (10 ^ Z.of_nat n).
Proof.
  change 0 with (inject_Z 0). rewrite <- Zlt_Qlt.
  apply Z.pow_pos_nonneg; lia.
Qed.

(** The rounded integer is within one half of the value. *)
Lemma round_half_even_near (q : Q) :
  inject_Z (round_half_even q) - (1 # 2) <= q /\
  q <= inject_Z (round_half_even q) + (1 # 2).
Proof.
  unfold round_half_even.
  pose proof (Qfloor_le q) as Hlo.
  pose proof (Qlt_floor q) as Hhi.
  rewrite inject_Z_plus in Hhi. change (inject_Z 1) with 1 in Hhi.
  destruct (Qcompare (q - inject_Z (Qfloor q)) (1 # 2)) eqn:Hc.
  - apply Qeq_alt in Hc.
    destruct (Z.even (Qfloor q)).
    + split; lra.
    + rewrite inject_Z_plus. change (inject_Z 1) with 1. split; lra.
  - apply Qlt_alt in Hc. split; lra.
  - apply Qgt_alt in Hc. rewrite inject_Z_plus. change (inject_Z 1) with 1.
    split; lra.
Qed.

(** Rounding to an integer never crosses an integer. *)
Lemma round_half_even_le (q : Q) (m : Z) :
  q <= inject_Z m -> (round_half_even q <= m)%Z.
Proof.
  intros H. destruct (round_half_even_near q) as [Hlo _].
  assert (Hlt : inject_Z (round_half_even q) < inject_Z (m + 1)).
  { rewrite inject_Z_plus. change (inject_Z 1) with 1. lra. }
  rewrite <- Zlt_Qlt in Hlt. lia.
Qed.

Lemma round_half_even_ge (q : Q) (m : Z) :
  inject_Z m <= q -> (m <= round_half_even q)%Z.
Proof.
  intros H. destruct (round_half_even_near q) as [_ Hhi].
  assert (Hlt : inject_Z m < inject_Z (round_half_even q + 1)).
  { rewrite inject_Z_plus. change (inject_Z 1) with 1. lra. }
  rewrite <- Zlt_Qlt in Hlt. lia.
Qed.

(** An integer rounds to itself. *)
Lemma round_half_even_Z (m : Z) : round_half_even (inject_Z m) = m.
Proof.
  apply Z.le_antisymm.
  - apply round_half_even_le. lra.
  - apply round_half_even_ge. lra.
Qed.


(** [round n] never crosses a multiple of [10 ^ -n]. *)
Lemma round_le (n : nat) (q : Q) (m : Z) :
  q <= inject_Z m / inject_Z (10 ^ Z.of_nat n) ->
  round n q <= inject_Z m / inject_Z (10 ^ Z.of_nat n).
Proof.
  intros H. unfold round.
  pose proof (scale_pos n) as Hs.
  set (s := inject_Z (10 ^ Z.of_nat n)) in *.
  apply Qmult_le_r with (z := s); [exact Hs|].
  unfold Qdiv. rewrite <- !Qmult_assoc, (Qmult_comm (/ s)), Qmult_inv_r by lra.
  rewrite !Qmult_1_r. rewrite <- Zle_Qle.
  apply round_half_even_le.
  apply Qmult_le_r with (z := s) in H; [|exact Hs].
  unfold Qdiv in H.
  rewrite <- Qmult_assoc, (Qmult_comm (/ s)), Qmult_inv_r, Qmult_1_r in H by lra.
  exact H.
Qed.

Lemma round_ge (n : nat) (q : Q) (m : Z) :
  inject_Z m / inject_Z (10 ^ Z.of_nat n) <= q ->
  inject_Z m / inject_Z (10 ^ Z.of_nat n) <= round n q.
Proof.
  intros H. unfold round.
  pose proof (scale_pos n) as Hs.
  set (s := inject_Z (10 ^ Z.of_nat n)) in *.
  apply Qmult_le_r with (z := s); [exact Hs|].
  unfold Qdiv. rewrite <- !Qmult_assoc, (Qmult_comm (/ s)), Qmult_inv_r by lra.
  rewrite !Qmult_1_r. rewrite <- Zle_Qle.
  apply round_half_even_ge.
  apply Qmult_le_r with (z := s) in H; [|exact Hs].
  unfold Qdiv in H.
  rewrite <- Qmult_assoc, (Qmult_comm (/ s)), Qmult_inv_r, Qmult_1_r in H by lra.
  exact H.
Qed.


(** [round n q] is a multiple of [10 ^ -n] ... *)
Lemma round_is_multiple (n : nat) (q : Q) :
  exists m : Z, round n q = inject_Z m / inject_Z (10 ^ Z.of_nat n).
Proof. eexists. reflexivity. Qed.

(** ... within half a unit of [q]. *)
Lemma round_near (n : nat) (q : Q) :
  round n q - (1 # 2) / inject_Z (10 ^ Z.of_nat n) <= q /\
  q <= round n q + (1 # 2) / inject_Z (10 ^ Z.of_nat n).
Proof.
  unfold round.
  pose proof (scale_pos n) as Hs.
  set (s := inject_Z (10 ^ Z.of_nat n)) in *.
  destruct (round_half_even_near (q * s)) as [Hlo Hhi].
  set (r := inject_Z (round_half_even (q * s))) in *.
  split.
  - apply Qmult_le_r with (z := s); [exact Hs|].
    setoid_replace ((r / s - (1 # 2) / s) * s) with (r - (1 # 2)) using relation Qeq by (field; lra).
    exact Hlo.
  - apply Qmult_le_r with (z := s); [exact Hs|].
    setoid_replace ((r / s + (1 # 2) / s) * s) with (r + (1 # 2)) using relation Qeq by (field; lra).
    exact Hhi.
Qed.

End RoundFacts.

(** ** Ranking *)

Section RankingFacts.

Import Ranking.

Lemma count_le_length {A} (p : A -> bool) (l : list A) :
  (count p l <= List.length l)%nat.
Proof. unfold count. apply filter_length_le. Qed.

(** A count out of a non-empty total is a fraction in [0, 1]. *)
Lemma ratio_unit (a b : nat) : (a <= b)%nat -> (0 < b)%nat -> 0 <= ratio a b <= 1.
Proof.
  intros Hab Hb. unfold ratio.
  assert (Hb' : 0 < inject_Z (Z.of_nat b)).
  { change 0 with (inject_Z 0). rewrite <- Zlt_Qlt. lia. }
  assert (Ha' : 0 <= inject_Z (Z.of_nat a)).
  { change 0 with (inject_Z 0). rewrite <- Zle_Qle. lia. }
  assert (Hab' : inject_Z (Z.of_nat a) <= inject_Z (Z.of_nat b)).
  { rewrite <- Zle_Qle. lia. }
  split.
  - apply Qle_shift_div_l; [exact Hb'|]. lra.
  - apply Qle_shift_div_r; [exact Hb'|]. lra.
Qed.

Lemma Qltb_true (x y : Q) : Qltb x y = true <-> x < y.
Proof.
  unfold Qltb. rewrite negb_true_iff.
  destruct (Qle_bool y x) eqn:E.
  - apply Qle_bool_iff in E. split; [discriminate | intros H; lra].
  - split; [intros _ | reflexivity].
    apply Qnot_le_lt. intros H. apply Qle_bool_iff in H. congruence.
Qed.

Lemma round_unit (n : nat) (q : Q) : 0 <= q <= 1 -> 0 <= round n q <= 1.
Proof.
  intros [Hlo Hhi].
  pose proof (scale_pos n) as Hs.
  split.
  - assert (H0 : inject_Z 0 / inject_Z (10 ^ Z.of_nat n) <= round n q).
    { apply round_ge. change (inject_Z 0) with 0.
      unfold Qdiv. rewrite Qmult_0_l. exact Hlo. }
    change (inject_Z 0) with 0 in H0. unfold Qdiv in H0.
    rewrite Qmult_0_l in H0. exact H0.
  - assert (H1 : round n q
                 <= inject_Z (10 ^ Z.of_nat n) / inject_Z (10 ^ Z.of_nat n)).
    { apply round_le. unfold Qdiv. rewrite Qmult_inv_r by lra. exact Hhi. }
    unfold Qdiv in H1. rewrite Qmult_inv_r in H1 by lra. exact H1.
Qed.

Lemma Qmax_unit (x y : Q) : 0 <= x <= 1 -> 0 <= y <= 1 -> 0 <= Qmax x y <= 1.
Proof.
  intros Hx Hy.
  destruct (Q.max_spec x y) as [[_ E] | [_ E]]; rewrite E; assumption.
Qed.

Lemma scaled_ratio_unit (w : Q) (a b : nat) :
  0 <= w <= 1 -> (a <= b)%nat -> (0 < b)%nat -> 0 <= w * ratio a b <= 1.
Proof.
  intros Hw Hab Hb. pose proof (ratio_unit a b Hab Hb) as Hr. nra.
Qed.

(** [_entity_relevance] always answers within [0, 1]. *)
Lemma _entity_relevance_unit (tk nm : option string) (it : item) :
  0 <= _entity_relevance tk nm it <= 1.
Proof.
  unfold _entity_relevance.
  destruct (negb (truthy tk) && negb (truthy nm)); [lra|].
  apply round_unit.
  set (title := lower (or_empty (get (source_name it)))).
  set (text := (title ++ " " ++ _)%string).
  set (parts := name_parts_of _).
  assert (Hfrac : forall (w : Q) (p : string -> bool), 0 <= w <= 1 ->
            parts <> [] ->
            0 <= w * ratio (count p parts) (List.length parts) <= 1).
  { intros w p Hw Hne. apply scaled_ratio_unit; [exact Hw | apply count_le_length |].
    destruct parts; [congruence | simpl; lia]. }
  set (s1 := if (1 <=? _)%nat then _ else _).
  assert (H1 : 0 <= s1 <= 1).
  { subst s1. repeat match goal with
    | |- context [if ?b then _ else _] => destruct b
    end; try apply Qmax_unit; lra. }
  clearbody s1.
  set (s2 := if negb _ && _ then _ else _).
  assert (H2 : 0 <= s2 <= 1).
  { subst s2. destruct (negb _ && _); [apply Qmax_unit; lra|].
    destruct parts eqn:Ep; [exact H1|].
    destruct (0 <? _)%nat; [|exact H1].
    apply Qmax_unit; [exact H1|]. apply Hfrac; [lra | congruence]. }
  clearbody s2.
  destruct parts eqn:Ep; [exact H2|].
  destruct (Qltb s2 0.5); [|exact H2].
  destruct (0 <? _)%nat; [|exact H2].
  apply Qmax_unit; [exact H2|]. apply Hfrac; [lra | congruence].
Qed.

Lemma _source_quality_factor_range (src ref : option string) :
  0.7 <= _source_quality_factor src ref <= 1.
Proof.
  unfold _source_quality_factor.
  repeat match goal with
  | |- context [if ?b then _ else _] => destruct b
  end; lra.
Qed.

Lemma _token_relevance_unit (toks : list string) (ins rec : option string) :
  0 <= _token_relevance toks ins rec <= 1.
Proof.
  unfold _token_relevance. destruct toks as [|t toks]; [lra|].
  set (l := t :: toks). set (p := fun token => _).
  assert (Hr : 0 <= ratio (count p l) (Nat.max (List.length l) 1) <= 1).
  { apply ratio_unit; [|lia]. pose proof (count_le_length p l). lia. }
  destruct (Q.min_spec (ratio (count p l) (Nat.max (List.length l) 1)) 1)
    as [[_ E] | [_ E]]; rewrite E; lra.
Qed.

Lemma _recency_score_unit (now : Q) (created : option Q) :
  0 <= _recency_score now created <= 1.
Proof.
  unfold _recency_score. destruct created as [t|]; [|lra].
  set (age := Qmax _ 0).
  assert (Hage : 0 <= age) by apply Q.le_max_r.
  assert (Hpos : 0 < 1 + age / 24).
  { assert (0 <= age / 24) by (apply Qle_shift_div_l; lra). lra. }
  split.
  - apply Qle_shift_div_l; [exact Hpos | lra].
  - apply Qle_shift_div_r; [exact Hpos|].
    assert (0 <= age / 24) by (apply Qle_shift_div_l; lra). lra.
Qed.

(** The three multipliers together lie between 0 and 1.1. *)
Lemma multipliers_range (ctx : query_context) (it : item) :
  0 <= critic_factor it * sector_penalty ctx it * pollution_penalty (entity ctx) it
    <= 1.1.
Proof.
  unfold critic_factor, sector_penalty, pollution_penalty.
  repeat match goal with
  | |- context [match ?b with _ => _ end] => destruct b
  end; lra.
Qed.

(** The weighted sum of seven factors in [0, 1] is in [0, 1]. *)
Lemma weighted_sum_unit (e s c m t k r : Q) :
  0 <= e <= 1 -> 0 <= s <= 1 -> 0 <= c <= 1 -> 0 <= m <= 1 ->
  0 <= t <= 1 -> 0 <= k <= 1 -> 0 <= r <= 1 ->
  0 <= weighted_sum e s c m t k r <= 1.
Proof. unfold weighted_sum. intros. lra. Qed.

End RankingFacts.

(** ** Strings *)

Section StringFacts.

Lemma prefix_app (p s : string) :
  String.prefix p s = true <-> exists post, s = (p ++ post)%string.
Proof.
  revert s. induction p as [|c p IH]; intros s.
  - split; [intros _; exists s; reflexivity | intros _; destruct s; reflexivity].
  - destruct s as [|d s]; simpl.
    + split; [discriminate | intros [post H]; discriminate].
    + destruct (Ascii.ascii_dec c d) as [Heq|Hne].
      * subst d. rewrite IH. split; intros [post H]; exists post.
        -- rewrite H. reflexivity.
        -- injection H as H. exact H.
      * split; [discriminate | intros [post H]; injection H as H1 H2; congruence].
Qed.

(** [contains p s] is Python's [p in s]: [p] occurs somewhere in [s]. *)
Lemma contains_app (p s : string) :
  contains p s = true <-> exists pre post, s = (pre ++ p ++ post)%string.
Proof.
  induction s as [|c s IH].
  - change (contains p "") with (String.prefix p "" || false).
    rewrite orb_true_iff, prefix_app. split.
    + intros [[post H] | H]; [|discriminate]. exists ""%string, post. exact H.
    + intros [pre [post H]]. left. destruct pre; [exists post; exact H|discriminate].
  - change (contains p (String c s)) with (String.prefix p (String c s) || contains p s).
    rewrite orb_true_iff, prefix_app, IH. split.
    + intros [[post H] | [pre [post H]]].
      * exists ""%string, post. exact H.
      * exists (String c pre), post. rewrite H. reflexivity.
    + intros [pre [post H]]. destruct pre as [|d pre]; simpl in H.
      * left. exists post. exact H.
      * right. exists pre, post. injection H as _ H. exact H.
Qed.

Lemma lower_app (a b : string) : lower (a ++ b) = (lower a ++ lower b)%string.
Proof. induction a as [|c a IH]; simpl; [reflexivity | rewrite IH; reflexivity]. Qed.

(** A prefix, whatever its case, is found by the lowercased containment
    test. *)
Lemma startswith_contains_lower (p s : string) :
  startswith p s = true -> contains (lower p) (lower s) = true.
Proof.
  unfold startswith. rewrite prefix_app, contains_app.
  intros [post ->]. exists ""%string, (lower post). simpl. apply lower_app.
Qed.

End StringFacts.

(** ** What [_rank_items] returns *)

Section RankItemsFacts.

Import Ranking.

Lemma insert_desc_In (x e : enriched) (l : list enriched) :
  In e (insert_desc x l) -> e = x \/ In e l.
Proof.
  induction l as [|y l IH]; simpl.
  - intros [H | []]. left. congruence.
  - destruct (Qltb (rank_score y) (rank_score x)); simpl.
    + intros [H | H]; [left; congruence | right; exact H].
    + intros [H | H]; [right; left; exact H|].
      destruct (IH H) as [H' | H']; [left; exact H' | right; right; exact H'].
Qed.

Lemma sort_desc_In (e : enriched) (l : list enriched) :
  In e (sort_desc l) -> In e l.
Proof.
  unfold sort_desc.
  assert (H : forall acc, In e (fold_left (fun acc x => insert_desc x acc) l acc) ->
                          In e acc \/ In e l).
  { induction l as [|x l IH]; intros acc Hin; simpl in *; [left; exact Hin|].
    destruct (IH _ Hin) as [H | H]; [|right; right; exact H].
    destruct (insert_desc_In _ _ _ H) as [-> | H']; [right; left; reflexivity|].
    left. exact H'. }
  intros Hin. destruct (H [] Hin) as [[] | H']. exact H'.
Qed.

Lemma seen_put_In (key : string) (x e : enriched) (seen : list (string * enriched)) :
  In e (List.map snd (seen_put key x seen)) -> e = x \/ In e (List.map snd seen).
Proof.
  induction seen as [|[k old] seen IH]; simpl.
  - intros [H | []]. left. congruence.
  - destruct (String.eqb k key); simpl.
    + destruct (Qltb (rank_score old) (rank_score x)); intros [H | H].
      * left. congruence.
      * right. right. exact H.
      * right. left. exact H.
      * right. right. exact H.
    + intros [H | H]; [right; left; exact H|].
      destruct (IH H) as [H' | H']; [left; exact H' | right; right; exact H'].
Qed.

(** Every row [_rank_items] returns is one of the input items with the
    scores of the loop body attached. *)
Lemma _rank_items_scored (md5 : string -> string) (now : Q) (items : list item)
    (ctx : query_context) (e : enriched) :
  In e (_rank_items md5 now items ctx) ->
  exists it, In it items /\ e = rank_item now ctx it.
Proof.
  unfold _rank_items. intros Hin. apply sort_desc_In in Hin.
  set (ranked := sort_desc (List.map (rank_item now ctx) items)) in *.
  set (kept := if (3 <=? _)%nat then _ else ranked) in *.
  assert (Hkept : forall x, In x kept -> In x ranked).
  { intros x Hx. subst kept. destruct (3 <=? _)%nat; [|exact Hx].
    apply filter_In in Hx. tauto. }
  assert (Hseen : forall l acc,
            In e (List.map snd (fold_left (fun seen x => seen_put (dedup_key md5 x) x seen) l acc)) ->
            In e (List.map snd acc) \/ In e l).
  { induction l as [|x l IH]; intros acc H; simpl in *; [left; exact H|].
    destruct (IH _ H) as [H' | H']; [|right; right; exact H'].
    destruct (seen_put_In _ _ _ _ H') as [-> | H'']; [right; left; reflexivity|].
    left. exact H''. }
  destruct (Hseen _ _ Hin) as [[] | Hk].
  apply Hkept, sort_desc_In, in_map_iff in Hk as [it [Heq Hit]].
  exists it. split; [exact Hit | symmetry; exact Heq].
Qed.

End RankItemsFacts.

(** ** Claims about ranking *)

Module RankingClaims.

Import Ranking RankingCases.

Lemma raw_rank_score_range (now : Q) (ctx : query_context) (it : item) :
  scores_in_unit it -> 0 <= raw_rank_score now ctx it <= 1.1.
Proof.
  intros (Hc & Ht & Hs). unfold raw_rank_score.
  pose proof (multipliers_range ctx it) as Hm.
  pose proof (_source_quality_factor_range (get (source_name it)) (get (evidence_ref it))).
  assert (Hw := weighted_sum_unit
    (_entity_relevance (ticker ctx) (entity ctx) it)
    (_source_quality_factor (get (source_name it)) (get (evidence_ref it)))
    (or_zero (get (confidence it)))
    (or_zero (get (similarity_score it)))
    (or_zero (get (text_rank it)))
    (_token_relevance (tokens ctx) (get (insight it)) (get (recommendation it)))
    (_recency_score now (get (created_at it)))
    (_entity_relevance_unit _ _ _) ltac:(lra) Hc Hs Ht
    (_token_relevance_unit _ _ _) (_recency_score_unit _ _)).
  nra.
Qed.

(** C1, as stated, fails: [_rank_items] does not clamp [text_rank]
    (PostgreSQL's [ts_rank_cd], unbounded), so an item with a text rank of
    20 gets a rank score of 2.47, outside [0, 1.5]. *)
Lemma rank_score_exceeds_bound :
  ~ Forall (fun e => 0 <= rank_score e <= 1.5)
      (_rank_items (fun s => s) 0 [heavy_text_item] unresolved_context).
Proof.
  assert (E : _rank_items (fun s => s) 0 [heavy_text_item] unresolved_context
              = [rank_item 0 unresolved_context heavy_text_item])
    by (vm_compute; reflexivity).
  rewrite E. intros H. inversion H as [|? ? [_ Hle] _].
  vm_compute in Hle. apply Hle. reflexivity.
Qed.

(** The score of one item, and the monotonicity of the weighted sum. *)
Lemma rank_item_range_and_monotone (now : Q) (ctx : query_context) (it : item)
    (Hunit : scores_in_unit it) :
  (0 <= raw_rank_score now ctx it <= 1.5 /\
   0 <= rank_score (rank_item now ctx it) <= 1.5) /\
  (forall e e' s c m t k r, e <= e' ->
     weighted_sum e s c m t k r <= weighted_sum e' s c m t k r) /\
  (forall e s s' c m t k r, s <= s' ->
     weighted_sum e s c m t k r <= weighted_sum e s' c m t k r) /\
  (forall e s c c' m t k r, c <= c' ->
     weighted_sum e s c m t k r <= weighted_sum e s c' m t k r) /\
  (forall e s c m m' t k r, m <= m' ->
     weighted_sum e s c m t k r <= weighted_sum e s c m' t k r) /\
  (forall e s c m t t' k r, t <= t' ->
     weighted_sum e s c m t k r <= weighted_sum e s c m t' k r) /\
  (forall e s c m t k k' r, k <= k' ->
     weighted_sum e s c m t k r <= weighted_sum e s c m t k' r) /\
  (forall e s c m t k r r', r <= r' ->
     weighted_sum e s c m t k r <= weighted_sum e s c m t k r').
Proof.
  pose proof (raw_rank_score_range now ctx it Hunit) as Hraw.
  split; [split|].
  - lra.
  - simpl. split.
    + assert (H0 : inject_Z 0 / inject_Z (10 ^ Z.of_nat 4)
                   <= round 4 (raw_rank_score now ctx it)).
      { apply round_ge. setoid_replace (inject_Z 0 / inject_Z (10 ^ Z.of_nat 4))
          with 0 using relation Qeq by reflexivity. lra. }
      setoid_replace (inject_Z 0 / inject_Z (10 ^ Z.of_nat 4))
        with 0 using relation Qeq in H0 by reflexivity.
      exact H0.
    + assert (H1 : round 4 (raw_rank_score now ctx it)
                   <= inject_Z 15000 / inject_Z (10 ^ Z.of_nat 4)).
      { apply round_le. setoid_replace (inject_Z 15000 / inject_Z (10 ^ Z.of_nat 4))
          with 1.5 using relation Qeq by reflexivity. lra. }
      setoid_replace (inject_Z 15000 / inject_Z (10 ^ Z.of_nat 4))
        with 1.5 using relation Qeq in H1 by reflexivity.
      exact H1.
  - unfold weighted_sum. repeat split; intros; lra.
Qed.

(** C1, amended: for every evidence item scored by [_rank_items], provided
    the confidence, text_rank and similarity_score of the input items lie
    in [0, 1], the rank score (before and after its rounding to four
    decimals) is in [0, 1.5]; and the weighted sum of the seven factors is
    monotone non-decreasing in each of entity_relevance, source_quality,
    confidence, semantic_score, text_rank, token_relevance and recency, the
    other six held fixed. *)
Theorem rank_score_range_and_monotone (md5 : string -> string) (now : Q)
    (items : list item) (ctx : query_context)
    (Hunit : Forall scores_in_unit items) :
  Forall (fun e => 0 <= rank_score e <= 1.5) (_rank_items md5 now items ctx) /\
  (forall it, In it items ->
     0 <= raw_rank_score now ctx it <= 1.5 /\
     0 <= rank_score (rank_item now ctx it) <= 1.5) /\
  (forall e e' s c m t k r, e <= e' ->
     weighted_sum e s c m t k r <= weighted_sum e' s c m t k r) /\
  (forall e s s' c m t k r, s <= s' ->
     weighted_sum e s c m t k r <= weighted_sum e s' c m t k r) /\
  (forall e s c c' m t k r, c <= c' ->
     weighted_sum e s c m t k r <= weighted_sum e s c' m t k r) /\
  (forall e s c m m' t k r, m <= m' ->
     weighted_sum e s c m t k r <= weighted_sum e s c m' t k r) /\
  (forall e s c m t t' k r, t <= t' ->
     weighted_sum e s c m t k r <= weighted_sum e s c m t' k r) /\
  (forall e s c m t k k' r, k <= k' ->
     weighted_sum e s c m t k r <= weighted_sum e s c m t k' r) /\
  (forall e s c m t k r r', r <= r' ->
     weighted_sum e s c m t k r <= weighted_sum e s c m t k r').
Proof.
  assert (Hitem : forall it, In it items ->
            0 <= raw_rank_score now ctx it <= 1.5 /\
            0 <= rank_score (rank_item now ctx it) <= 1.5).
  { intros it Hin. apply rank_item_range_and_monotone.
    rewrite List.Forall_forall in Hunit. apply Hunit. exact Hin. }
  split; [|split; [exact Hitem|]].
  - apply List.Forall_forall. intros e He.
    apply _rank_items_scored in He as [it [Hin ->]]. apply Hitem, Hin.
  - unfold weighted_sum. repeat split; intros; lra.
Qed.

Lemma rank_score_range_and_monotone_witness :
  Forall (fun e => 0 <= rank_score e <= 1.5)
    (_rank_items (fun s => s) 86400 [filing_item; stale_feed_item] apple_context).
Proof.
  apply (rank_score_range_and_monotone (fun s => s) 86400
           [filing_item; stale_feed_item] apple_context).
  repeat constructor; simpl; lra.
Defined.

Example rank_score_heavy_text :
  rank_score (rank_item 0 unresolved_context heavy_text_item) == 2.47.
Proof. reflexivity. Qed.

(** Nor is a negative similarity clamped: the score can fall below 0. *)
Example rank_score_dissimilar_chunk :
  rank_score (rank_item 0 tesla_context dissimilar_chunk_item) == -0.005.
Proof. reflexivity. Qed.

(** *** The pollution penalty *)

(** C2, as stated, fails: the code looks for the two markers anywhere in
    the lowercased [source_name], not for a prefix, so this item is
    penalised although its name starts with neither prefix. *)
Lemma pollution_penalty_without_prefix :
  ~ (pollution_penalty (Some "Apple") relabelled_item = 0.2
     <-> spec_polluted "Apple" "[DDG-news] Google News: Microsoft Q4 results (MSFT)" = true).
Proof. intros [H _]. specialize (H eq_refl). discriminate H. Qed.

(** C2, amended: the 0.2 multiplier is applied to an item exactly when its
    lowercased source_name contains, at any position, "google news:" or
    "yahoo finance news:", the resolved entity name is non-empty, and the
    lowercased entity name does not occur in the lowercased source_name;
    every other item gets 1.0.  In particular an item whose source_name
    starts with one of the two prefixes and lacks the (non-empty) entity
    name is penalised. *)
Theorem pollution_penalty_exact (entity_name : option string) (it : item) :
  (pollution_penalty entity_name it = 0.2 <->
     (occurs_in "google news:" (src_name_of it)
      \/ occurs_in "yahoo finance news:" (src_name_of it))
     /\ truthy entity_name = true
     /\ ~ occurs_in (lower (or_empty entity_name)) (src_name_of it))
  /\ (pollution_penalty entity_name it = 0.2 \/ pollution_penalty entity_name it = 1)
  /\ (forall src nm,
        source_name it = Val src -> entity_name = Some nm -> nm <> ""%string ->
        spec_polluted nm src = true -> pollution_penalty entity_name it = 0.2).
Proof.
  assert (Hiff : pollution_penalty entity_name it = 0.2 <->
     (occurs_in "google news:" (src_name_of it)
      \/ occurs_in "yahoo finance news:" (src_name_of it))
     /\ truthy entity_name = true
     /\ ~ occurs_in (lower (or_empty entity_name)) (src_name_of it)).
  { unfold pollution_penalty, occurs_in. fold (src_name_of it).
    rewrite <- !contains_app.
    destruct (contains "google news:" (src_name_of it)) eqn:Eg;
    destruct (contains "yahoo finance news:" (src_name_of it)) eqn:Ey;
    destruct (truthy entity_name) eqn:Et;
    destruct (contains (lower (or_empty entity_name)) (src_name_of it)) eqn:Ec;
    simpl; split; try discriminate; try reflexivity;
    try (intros [H1 [H2 H3]]; first
      [ discriminate
      | exfalso; apply H3; reflexivity
      | destruct H1; discriminate ]);
    intros _; repeat split; auto; discriminate. }
  split; [exact Hiff|]. split.
  - unfold pollution_penalty.
    repeat match goal with
    | |- context [if ?b then _ else _] => destruct b
    end; auto.
  - intros src nm Hsrc -> Hne Hspec. apply Hiff.
    unfold spec_polluted in Hspec.
    apply andb_true_iff in Hspec as [Hpre Habs].
    apply negb_true_iff in Habs.
    unfold occurs_in, src_name_of. rewrite Hsrc. simpl.
    rewrite <- !contains_app. repeat split.
    + apply orb_true_iff in Hpre as [H | H];
        apply startswith_contains_lower in H; [left | right]; exact H.
    + destruct nm; [congruence | reflexivity].
    + rewrite Habs. discriminate.
Qed.

Lemma pollution_penalty_exact_witness :
  pollution_penalty (Some "Apple") stale_feed_item = 0.2.
Proof.
  apply (pollution_penalty_exact (Some "Apple") stale_feed_item).
  repeat split.
  - left. exists ""%string, " microsoft q4"%string. reflexivity.
  - intros H. apply contains_app in H. vm_compute in H. discriminate.
Defined.

End RankingClaims.

(** ** Claims about the entity cache *)

Module EntityClaims.

Import Entities EntityCases.

(** The stored row after [_upsert_entity] is the row it returns. *)
Lemma _upsert_entity_stored (now : Z) (a : upsert_args) (t : table) :
  rows (snd (_upsert_entity now a t)) !! arg_ticker a
  = Some (fst (_upsert_entity now a t)).
Proof. unfold _upsert_entity. simpl. apply lookup_insert_eq. Qed.

(** Aliases are taken from the call, on insert and on conflict alike. *)
Lemma _upsert_entity_aliases (now : Z) (a : upsert_args) (t : table) :
  aliases (fst (_upsert_entity now a t))
  = match arg_aliases a with Some l => l | None => [] end.
Proof.
  unfold _upsert_entity. simpl. destruct (rows t !! arg_ticker a); reflexivity.
Qed.

(** On conflict every text column but [aliases] is coalesced. *)
Lemma _upsert_entity_conflict (now : Z) (a : upsert_args) (t : table)
    (old : entity_row) :
  rows t !! arg_ticker a = Some old ->
  fst (_upsert_entity now a t)
  = {| id := id old;
       name := coalesce_nonempty (arg_name a) (name old);
       ticker := ticker old;
       cik := coalesce_nonempty (arg_cik a) (cik old);
       sector := coalesce_nonempty (arg_sector a) (sector old);
       industry := coalesce_nonempty (arg_industry a) (industry old);
       exchange := coalesce_nonempty (arg_exchange a) (exchange old);
       entity_type := entity_type old;
       aliases := match arg_aliases a with Some l => l | None => [] end;
       created_at := created_at old;
       updated_at := now |}.
Proof. intros H. unfold _upsert_entity. rewrite H. reflexivity. Qed.

(** C3, as stated, fails: on conflict the statement assigns
    [aliases = EXCLUDED.aliases] without coalescing, so a second upsert
    with empty fields wipes the aliases the first one stored (here at the
    same instant, so [updated_at] is not what differs). *)
Lemma upsert_empty_changes_row :
  let t1 := snd (_upsert_entity 100 apple_args empty_table) in
  let t2 := snd (_upsert_entity 100 (empty_args "AAPL" "company") t1) in
  rows t2 !! "AAPL"%string <> rows t1 !! "AAPL"%string.
Proof.
  intros t1 t2.
  assert (H1 : rows t1 !! "AAPL"%string
               = Some (fst (_upsert_entity 100 apple_args empty_table)))
    by apply (_upsert_entity_stored 100 apple_args empty_table).
  assert (H2 : rows t2 !! "AAPL"%string
               = Some (fst (_upsert_entity 100 (empty_args "AAPL" "company") t1)))
    by apply (_upsert_entity_stored 100 (empty_args "AAPL" "company") t1).
  rewrite H2, H1. intros H.
  apply (f_equal (option_map aliases)) in H. cbn [option_map] in H.
  rewrite !_upsert_entity_aliases in H. discriminate H.
Qed.

(** C3, amended: for every entity e with a given ticker, upserting e and
    then upserting again with the same ticker and every other field empty
    leaves id, name, ticker, cik, sector, industry, exchange, entity_type
    and created_at of the stored row as they were after the first upsert;
    aliases are not coalesced but replaced by the incoming (empty) list, and
    updated_at is set to the time of the second call.  Rows of other
    tickers are untouched. *)
Theorem upsert_then_empty_upsert (now1 now2 : Z) (e : upsert_args) (etype : string)
    (t : table) :
  let r1 := fst (_upsert_entity now1 e t) in
  let t1 := snd (_upsert_entity now1 e t) in
  let r2 := fst (_upsert_entity now2 (empty_args (arg_ticker e) etype) t1) in
  let t2 := snd (_upsert_entity now2 (empty_args (arg_ticker e) etype) t1) in
  rows t1 !! arg_ticker e = Some r1
  /\ rows t2 !! arg_ticker e = Some r2
  /\ r2 = {| id := id r1; name := name r1; ticker := ticker r1; cik := cik r1;
             sector := sector r1; industry := industry r1;
             exchange := exchange r1; entity_type := entity_type r1;
             aliases := []; created_at := created_at r1; updated_at := now2 |}
  /\ (forall k : string, k <> arg_ticker e -> rows t2 !! k = rows t1 !! k).
Proof.
  intros r1 t1 r2 t2.
  assert (H1 : rows t1 !! arg_ticker e = Some r1)
    by apply _upsert_entity_stored.
  split; [exact H1|]. split; [apply (_upsert_entity_stored now2 (empty_args _ _) t1)|].
  split.
  - subst r2.
    exact (_upsert_entity_conflict now2 (empty_args (arg_ticker e) etype) t1 r1 H1).
  - intros k Hk. subst t2. unfold _upsert_entity at 1. cbn [snd rows].
    apply lookup_insert_ne. cbn [arg_ticker empty_args]. congruence.
Qed.

End EntityClaims.

(** ** Claims about financial periods *)

Module FinancialClaims.

Import Financials FinancialCases.

Lemma deep_merge_merged (target excluded : gmap string json) :
  merged target excluded (deep_merge target excluded).
Proof.
  unfold merged, deep_merge. destruct (decide (excluded = ∅)) as [E|E].
  - split; [reflexivity | intros H; contradiction].
  - split; [intros H; contradiction|]. intros _ key. unfold jsonb_concat.
    rewrite lookup_union. destruct (excluded !! key), (target !! key); reflexivity.
Qed.

(** C4: for an existing row under a key, an upsert with that key leaves
    each of the four statement maps unchanged when the incoming
    sub-document is empty, and otherwise lets the incoming keys override
    the stored ones and keeps the stored keys the incoming map lacks; and
    [deep_merge existing {}] is [existing]. *)
Theorem upsert_financial_period_deep_merge (k : period_key) (a : upsert_args)
    (t : gmap period_key period_row) (old : period_row)
    (Hold : t !! k = Some old) :
  let r := fst (upsert_financial_period k a t) in
  let t' := snd (upsert_financial_period k a t) in
  t' !! k = Some r
  /\ merged (income_statement old) (or_empty_map (arg_income_statement a))
       (income_statement r)
  /\ merged (balance_sheet old) (or_empty_map (arg_balance_sheet a))
       (balance_sheet r)
  /\ merged (cash_flow old) (or_empty_map (arg_cash_flow a)) (cash_flow r)
  /\ merged (key_metrics old) (or_empty_map (arg_key_metrics a)) (key_metrics r)
  /\ (forall existing, deep_merge existing ∅ = existing).
Proof.
  intros r t'. subst r t'. unfold upsert_financial_period. rewrite Hold. simpl.
  split; [apply lookup_insert_eq|].
  repeat split; try apply deep_merge_merged.
Qed.

Lemma upsert_financial_period_deep_merge_witness :
  merged (income_statement q3_row)
    (or_empty_map (arg_income_statement q3_update))
    (income_statement (fst (upsert_financial_period q3_key q3_update {[ q3_key := q3_row ]}))).
Proof.
  apply (upsert_financial_period_deep_merge q3_key q3_update {[ q3_key := q3_row ]} q3_row).
  apply lookup_singleton_eq.
Defined.

Example upsert_financial_period_overrides :
  income_statement (fst (upsert_financial_period q3_key q3_update {[ q3_key := q3_row ]}))
    !! "revenue"%string = Some (JNum 85778)
  /\ income_statement (fst (upsert_financial_period q3_key q3_update {[ q3_key := q3_row ]}))
    !! "net_income"%string = Some (JNum 21448)
  /\ balance_sheet (fst (upsert_financial_period q3_key q3_update {[ q3_key := q3_row ]}))
     = balance_sheet q3_row.
Proof. repeat split; vm_compute; reflexivity. Qed.

End FinancialClaims.

(** ** Claims about the provider budget *)

Module ProviderClaims.

Import Providers ProviderCalls ProviderCases.








(** An object at its limit is passed over by the loop ... *)
Example dispatch_passes_over_spent_object :
  fetch_calls (dispatch noon [alpha_vantage_at_limit; new_provider fred])
  = ["fred"%string]
  /\ total_records (dispatch noon [alpha_vantage_at_limit; new_provider fred]) = 12%Z.
Proof. repeat split. Qed.

(** ... but a run never holds one: run after run the same day, Alpha
    Vantage is fetched again, five requests each time, with no memory of
    the requests before. *)
Example budget_not_kept_between_runs (e : Entities.entity_row) :
  fetch_calls (run_full_enrichment noon (Some e) [alpha_vantage; fred])
  = ["alpha_vantage"; "fred"]%string
  /\ total_records (run_full_enrichment noon (Some e) [alpha_vantage; fred]) = 15%Z
  /\ _calls_today
       (snd (fetch_company_data (new_provider alpha_vantage) noon
               (snd (rate_limit_ok noon (state (new_provider alpha_vantage))))))
     = 5%Z.
Proof. repeat split. Qed.

End ProviderClaims.

(** ** Claims about scenarios *)

Module ScenarioClaims.

Import Scenarios ScenarioCases.



Lemma round3_near (q : Q) :
  round 3 q - (1 # 2000) <= q /\ q <= round 3 q + (1 # 2000).
Proof.
  destruct (round_near 3 q) as [H1 H2].
  setoid_replace ((1 # 2) / inject_Z (10 ^ Z.of_nat 3)) with (1 # 2000)
    using relation Qeq in H1 by reflexivity.
  setoid_replace ((1 # 2) / inject_Z (10 ^ Z.of_nat 3)) with (1 # 2000)
    using relation Qeq in H2 by reflexivity.
  split; assumption.
Qed.








(** The bound of one thousandth leaves no room for the floating-point
    error: these shares add up to exactly 1.001. *)
Example scenarios_sum_at_the_edge :
  option_map sum_probability
    (_build_scenarios (Val 0.6) []
       (Some [llm_scenario 0.2; llm_scenario 0.2; llm_scenario 0.8]))
  = Some (0.167 + (0.167 + (0.667 + 0))).
Proof. reflexivity. Qed.

Example llm_normalized_probabilities :
  List.map (fun s => or_zero (get (probability s))) llm_normalized
  = [0.265; 0.442; 0.292].
Proof. reflexivity. Qed.

(** The bound of one thousandth is attained: three equal shares. *)
Example equal_shares_sum :
  option_map sum_probability
    (_build_scenarios (Val 0.6) []
       (Some [equal_share; equal_share; equal_share]))
  = Some (0.333 + (0.333 + (0.333 + 0))).
Proof. reflexivity. Qed.

Example fallback_probabilities :
  List.map (fun s => or_zero (get (probability s))) (fallback_scenarios 0.25 "x")
  = [0.261; 0.176; 0.563].
Proof. reflexivity. Qed.

End ScenarioClaims.

(** ** Claims about the stream *)

Module StreamClaims.

Import Stream StreamCases.

(** *** Progress *)

Lemma nd_from_nondecreasing (key : event -> Q) (lo : Q) (l : list event) :
  nd_from key lo l = true -> nondecreasing_by key l = true.
Proof.
  revert lo. induction l as [|a l IH]; intros lo H; [reflexivity|].
  simpl in H. apply andb_true_iff in H as [_ H].
  destruct l as [|b l]; [reflexivity|].
  change (Qle_bool (key a) (key b) && nondecreasing_by key (b :: l) = true).
  apply andb_true_iff. split.
  - simpl in H. apply andb_true_iff in H as [H _]. exact H.
  - apply (IH (key a)). exact H.
Qed.

Lemma nd_from_weaken (key : event -> Q) (lo lo' : Q) (l : list event) :
  Qle_bool lo lo' = true -> nd_from key lo' l = true -> nd_from key lo l = true.
Proof.
  intros Hle H. destruct l as [|e l]; [reflexivity|].
  simpl in *. apply andb_true_iff in H as [H1 H2].
  apply andb_true_iff. split; [|exact H2].
  apply Qle_bool_iff in Hle, H1. apply Qle_bool_iff. lra.
Qed.

Lemma nd_from_cons (key : event -> Q) (lo : Q) (e : event) (l : list event) :
  Qle_bool lo (key e) = true -> nd_from key (key e) l = true ->
  nd_from key lo (e :: l) = true.
Proof. intros H1 H2. simpl. rewrite H1, H2. reflexivity. Qed.

(** A run of equal events, as a token loop yields them. *)
Lemma nd_from_repeat (key : event -> Q) (lo : Q) (e : event) (n : nat)
    (l : list event) :
  Qle_bool lo (key e) = true -> nd_from key (key e) l = true ->
  nd_from key lo (repeat e n ++ l) = true.
Proof.
  intros H1 H2. revert lo H1. induction n as [|n IH]; intros lo H1.
  - simpl. apply (nd_from_weaken key lo (key e)); assumption.
  - simpl. rewrite H1. simpl. apply IH. apply Qle_bool_iff. lra.
Qed.

Lemma nondecreasing_by_firstn (key : event -> Q) (k : nat) (l : list event) :
  nondecreasing_by key l = true -> nondecreasing_by key (firstn k l) = true.
Proof.
  revert k. induction l as [|a l IH]; intros k H.
  - destruct k; reflexivity.
  - destruct k as [|k]; [reflexivity|].
    destruct l as [|b l]; [destruct k; reflexivity|].
    change (Qle_bool (key a) (key b) && nondecreasing_by key (b :: l) = true) in H.
    apply andb_true_iff in H as [H1 H2].
    destruct k as [|k]; [reflexivity|].
    change (Qle_bool (key a) (key b)
            && nondecreasing_by key (firstn (S k) (b :: l)) = true).
    rewrite H1. simpl andb. apply (IH (S k)). exact H2.
Qed.

(** Order is kept by any rounding that is monotone, whichever way it
    breaks ties. *)
Lemma nondecreasing_by_monotone (rnd : Q -> Q) (key : event -> Q) (l : list event) :
  (forall x y, x <= y -> rnd x <= rnd y) ->
  nondecreasing_by key l = true ->
  nondecreasing_by (fun e => rnd (key e)) l = true.
Proof.
  intros Hmono. induction l as [|a l IH]; intros H; [reflexivity|].
  destruct l as [|b l]; [reflexivity|].
  change (Qle_bool (key a) (key b) && nondecreasing_by key (b :: l) = true) in H.
  apply andb_true_iff in H as [H1 H2].
  change (Qle_bool (rnd (key a)) (rnd (key b))
          && nondecreasing_by (fun e => rnd (key e)) (b :: l) = true).
  apply andb_true_iff. split; [|apply IH; exact H2].
  apply Qle_bool_iff. apply Hmono. apply Qle_bool_iff. exact H1.
Qed.

Lemma token_events_repeat (s : stage) (p : Q) (toks : list string) :
  token_events s p toks = repeat (_event s p) (List.length toks).
Proof.
  unfold token_events. induction toks as [|t toks IH]; [reflexivity|].
  simpl. rewrite IH. reflexivity.
Qed.

Ltac nd_step :=
  first
    [ apply nd_from_cons; [vm_compute; reflexivity|]
    | apply nd_from_repeat; [vm_compute; reflexivity|]
    | reflexivity ].

(** Both the rounded and the unrounded progress values go up along the
    stream. *)
Lemma run_stream_nd (key : event -> Q) (r : run) :
  key = progress \/ key = unrounded ->
  nd_from key 0 (run_market_intelligence_query_stream r) = true.
Proof.
  intros Hkey.
  destruct r as [tk enr an tr nw ins dts nts cts].
  unfold run_market_intelligence_query_stream, optional_block, enrichment_events.
  cbn [has_ticker enrichment analyst_ok trends_available news_ok insider_ok
       decision_tokens narrative_tokens competitive_tokens].
  rewrite !token_events_repeat.
  destruct Hkey as [-> | ->];
    destruct tk, an, tr, nw, ins; destruct enr as [| |n [|]];
    rewrite <- ?app_assoc; cbn [app andb]; rewrite ?app_nil_r; repeat nd_step.
Qed.

(** Every event carries the rounded literal of its stage. *)
Lemma run_stream_progress (r : run) (e : event) :
  In e (run_market_intelligence_query_stream r) ->
  progress e = round 2 (unrounded e).
Proof.
  destruct r as [tk enr an tr nw ins dts nts cts].
  unfold run_market_intelligence_query_stream, optional_block, enrichment_events.
  cbn [has_ticker enrichment analyst_ok trends_available news_ok insider_ok
       decision_tokens narrative_tokens competitive_tokens].
  rewrite !token_events_repeat. intros Hin.
  repeat (apply in_app_or in Hin; destruct Hin as [Hin | Hin]);
    try (apply repeat_spec in Hin; subst e; reflexivity);
    destruct tk, an, tr, nw, ins; try destruct enr as [| |n [|]];
    repeat (apply in_app_or in Hin; destruct Hin as [Hin | Hin]);
    try (apply repeat_spec in Hin; subst e; reflexivity);
    simpl in Hin; intuition (subst; reflexivity).
Qed.

(** Whatever monotone rounding [_event] applied, progress would not
    decrease; this covers [round] on binary floats, which sends 0.435 to
    0.43 where rounding the exact value gives 0.44. *)
Lemma run_stream_any_rounding (rnd : Q -> Q) (r : run) :
  (forall x y, x <= y -> rnd x <= rnd y) ->
  nondecreasing_by (fun e => rnd (unrounded e))
    (run_market_intelligence_query_stream r) = true.
Proof.
  intros Hmono. apply nondecreasing_by_monotone; [exact Hmono|].
  apply (nd_from_nondecreasing unrounded 0), run_stream_nd. right. reflexivity.
Qed.

(** *** Order *)

Lemma mandatory_stages_app (l1 l2 : list event) :
  mandatory_stages (l1 ++ l2) = (mandatory_stages l1 ++ mandatory_stages l2)%list.
Proof. unfold mandatory_stages. rewrite map_app, filter_app. reflexivity. Qed.

Lemma mandatory_stages_repeat (s : stage) (p : Q) (n : nat) :
  is_mandatory s = true ->
  mandatory_stages (repeat (_event s p) n) = repeat s n.
Proof.
  intros H. unfold mandatory_stages. induction n as [|n IH]; [reflexivity|].
  simpl. simpl in IH. rewrite H, IH. reflexivity.
Qed.

Lemma follows_plain (s : stage) (rest : list (stage * bool)) (l : list stage) :
  follows ((s, false) :: rest) (s :: l) = follows rest l.
Proof. simpl. rewrite bool_decide_eq_true_2 by reflexivity. reflexivity. Qed.

Lemma follows_starred (s : stage) (rest : list (stage * bool)) (n : nat)
    (l : list stage) :
  head_differs s l ->
  follows ((s, true) :: rest) (repeat s n ++ l) = follows rest l.
Proof.
  intros H. induction n as [|n IH].
  - simpl. destruct l as [|x l]; [reflexivity|].
    simpl in H. rewrite bool_decide_eq_false_2 by exact H. reflexivity.
  - simpl. rewrite bool_decide_eq_true_2 by reflexivity. exact IH.
Qed.

Lemma canonical_follows (providers d n c : nat) :
  follows mandatory_order (canonical providers d n c) = true.
Proof.
  unfold canonical, mandatory_order. cbn [app].
  repeat first
    [ rewrite follows_plain
    | rewrite follows_starred by (simpl; congruence) ].
  reflexivity.
Qed.

Lemma run_stream_mandatory (r : run) :
  mandatory_stages (run_market_intelligence_query_stream r)
  = canonical (provider_events (enrichment r)) (List.length (decision_tokens r))
      (List.length (narrative_tokens r)) (List.length (competitive_tokens r)).
Proof.
  destruct r as [tk enr an tr nw ins dts nts cts].
  unfold run_market_intelligence_query_stream, optional_block, enrichment_events, canonical.
  cbn [has_ticker enrichment analyst_ok trends_available news_ok insider_ok
       decision_tokens narrative_tokens competitive_tokens provider_events].
  rewrite !token_events_repeat, !mandatory_stages_app.
  rewrite !mandatory_stages_repeat by reflexivity.
  destruct tk, an, tr, nw, ins; destruct enr as [| |n [|]];
    rewrite ?mandatory_stages_app, ?mandatory_stages_repeat by reflexivity;
    change (mandatory_stages []) with (@nil stage);
    rewrite ?app_nil_r, <- ?app_assoc; reflexivity.
Qed.

(** C7: every run of the streaming pipeline emits the mandatory stage
    events in exactly the order query_parsed, enrichment_started,
    provider_complete*, enrichment_complete, ..., price_history, complete
    (starred stages any number of times); a run that is cut short after
    [k] events has emitted an initial part of such a sequence; and the
    progress field never decreases from one emitted event to the next.
    The same holds of the progress values before [_event] rounds them, so
    the order does not depend on how the rounding breaks ties. *)
Theorem stream_order_and_progress (r : run) (k : nat) :
  follows mandatory_order (mandatory_stages (run_market_intelligence_query_stream r)) = true
  /\ (exists rest,
        follows mandatory_order (mandatory_stages (emitted r k) ++ rest) = true)
  /\ nondecreasing (run_market_intelligence_query_stream r) = true
  /\ nondecreasing (emitted r k) = true
  /\ nondecreasing_by unrounded (run_market_intelligence_query_stream r) = true
  /\ Forall (fun e => progress e = round 2 (unrounded e))
       (run_market_intelligence_query_stream r).
Proof.
  assert (Hfull : follows mandatory_order (mandatory_stages (run_market_intelligence_query_stream r)) = true).
  { rewrite run_stream_mandatory. apply canonical_follows. }
  assert (Hnd : nondecreasing (run_market_intelligence_query_stream r) = true).
  { apply (nd_from_nondecreasing progress 0), run_stream_nd. left. reflexivity. }
  split; [exact Hfull|]. split; [|split; [exact Hnd|split; [|split]]].
  - exists (mandatory_stages (skipn k (run_market_intelligence_query_stream r))).
    unfold emitted. rewrite <- mandatory_stages_app, firstn_skipn. exact Hfull.
  - apply nondecreasing_by_firstn, Hnd.
  - apply (nd_from_nondecreasing unrounded 0), run_stream_nd. right. reflexivity.
  - apply List.Forall_forall. intros e He. apply run_stream_progress with (r := r).
    exact He.
Qed.

Example apple_run_progress :
  List.map progress (firstn 6 (run_market_intelligence_query_stream apple_run))
  = [0.05; 0.08; 0.12; 0.12; 0.12; 0.20].
Proof. reflexivity. Qed.

End StreamClaims.

(** ** Claims about the batch pipeline *)

Module IntelligenceClaims.

Import Intelligence IntelligenceCases.

(** C8, as stated, fails: when the parallel LLM dispatch returns an
    executive summary, step 7 builds the decision itself, with the average
    confidence over [max(min(len, 5), 1)], and an empty evidence list gives
    confidence 0.0 and the LLM's text, not 0.25 and the fallback text. *)
Lemma no_evidence_with_llm_summary :
  let rep := run_market_intelligence_query (fun _ => "0%") (fun _ => "0")
               "Zzz9 Corp" 10 [] no_financials (Some llm_answered) None None in
  card_confidence rep == 0
  /\ contains "No strong evidence" (report_executive_summary rep) = false
  /\ ~ (card_confidence rep == 0.25
        /\ card_risk_level rep = "low"%string
        /\ contains "No strong evidence" (report_executive_summary rep) = true).
Proof.
  repeat split; try reflexivity. intros [H _]. vm_compute in H. discriminate H.
Qed.

(** C8, amended: for every batch query whose ranking step yields zero
    evidence items, the report's decision_card has risk_level "low"; when
    the parallel LLM dispatch failed or returned no executive summary, the
    decision_card has confidence 0.25 and the executive_summary is the
    "No strong evidence" fallback text; when it returned an executive
    summary, that text is the executive_summary and the confidence is 0.0. *)
Theorem no_evidence_report (fmt_percent : Q -> string) (fmt_count : nat -> string)
    (query_text : string) (limit : nat) (fin : financials)
    (llm_results : option parallel_results) (llm_summary llm_rec : option string) :
  let rep := run_market_intelligence_query fmt_percent fmt_count query_text limit
               [] fin llm_results llm_summary llm_rec in
  card_risk_level rep = "low"%string
  /\ match llm_results with
     | Some res =>
         if truthy (executive_summary res)
         then card_confidence rep == 0
              /\ report_executive_summary rep = or_empty (executive_summary res)
         else card_confidence rep = 0.25
              /\ report_executive_summary rep = no_evidence_text
              /\ contains "No strong evidence" (report_executive_summary rep) = true
     | None =>
         card_confidence rep = 0.25
         /\ report_executive_summary rep = no_evidence_text
         /\ contains "No strong evidence" (report_executive_summary rep) = true
     end.
Proof.
  intros rep. subst rep. unfold run_market_intelligence_query, build_decision.
  rewrite firstn_nil.
  destruct llm_results as [res|]; [destruct (truthy (executive_summary res)) eqn:E|];
    cbn [report_of _summarize_decision card_risk_level card_confidence
         report_executive_summary answer_summary confidence risk_level];
    repeat split; reflexivity.
Qed.

End IntelligenceClaims.

(** ** Claims about chunking *)

Module ProcessingClaims.

Import Processing ProcessingCases.

Lemma length_take (n : nat) (s : string) : (String.length (take n s) <= n)%nat.
Proof.
  revert s. induction n as [|n IH]; intros s; [simpl; lia|].
  destruct s as [|c s]; simpl; [lia|]. specialize (IH s). lia.
Qed.

Lemma length_lstrip (s : string) : (String.length (lstrip s) <= String.length s)%nat.
Proof.
  induction s as [|c s IH]; simpl; [lia|].
  destruct (is_space c); simpl; lia.
Qed.

Lemma length_rstrip (s : string) : (String.length (rstrip s) <= String.length s)%nat.
Proof.
  induction s as [|c s IH]; simpl; [lia|].
  destruct (rstrip s) as [|d r]; [destruct (is_space c); simpl; lia|].
  simpl in *. lia.
Qed.

Lemma length_strip (s : string) : (String.length (strip s) <= String.length s)%nat.
Proof.
  unfold strip. pose proof (length_rstrip (lstrip s)). pose proof (length_lstrip s). lia.
Qed.

(** A window inside the text is at most as long as the distance between its
    bounds. *)
Lemma length_slice (s : string) (a b : Z) :
  (0 <= a <= b)%Z -> (b <= Z.of_nat (String.length s))%Z ->
  (Z.of_nat (String.length (slice s a b)) <= b - a)%Z.
Proof.
  intros Hab Hb. unfold slice, clamp_index.
  destruct (a <? 0)%Z eqn:Ea; [lia|]. destruct (b <? 0)%Z eqn:Eb; [lia|].
  pose proof (length_take
    (Z.to_nat (Z.min b (Z.of_nat (String.length s)))
     - Z.to_nat (Z.min a (Z.of_nat (String.length s))))
    (drop (Z.to_nat (Z.min a (Z.of_nat (String.length s)))) s)).
  lia.
Qed.

(** With an overlap below the chunk size, the loop ends within
    [len - start] further iterations. *)
Lemma chunk_loop_terminates (fuel : nat) (text : string) (size ov start : Z)
    (chunks : list string) :
  (0 <= ov <= size - 1)%Z -> (0 <= start)%Z ->
  (Z.max (Z.of_nat (String.length text) - start) 0 < Z.of_nat fuel)%Z ->
  Forall (good_chunk size) chunks ->
  exists out, chunk_loop fuel text size ov start chunks = Some out
              /\ Forall (good_chunk size) out.
Proof.
  revert start chunks. induction fuel as [|fuel IH]; intros start chunks Hov Hs Hfuel Hgood.
  - lia.
  - cbn [chunk_loop].
    destruct (start <? Z.of_nat (String.length text))%Z eqn:Elt;
      [|exists chunks; split; [reflexivity | exact Hgood]].
    apply Z.ltb_lt in Elt.
    set (end_ := Z.min (start + size) (Z.of_nat (String.length text))).
    set (chunk := strip (slice text start end_)).
    assert (Hlen : (Z.of_nat (String.length chunk) <= size)%Z).
    { subst chunk. pose proof (length_strip (slice text start end_)).
      pose proof (length_slice text start end_). lia. }
    set (chunks' := match chunk with
                    | EmptyString => chunks
                    | String _ _ => (chunks ++ [chunk])%list
                    end).
    assert (Hgood' : Forall (good_chunk size) chunks').
    { subst chunks'. destruct chunk as [|c rest] eqn:Ec; [exact Hgood|].
      apply Forall_app. split; [exact Hgood|].
      constructor; [|constructor]. split; [discriminate | exact Hlen]. }
    destruct (end_ =? Z.of_nat (String.length text))%Z eqn:Eend;
      [exists chunks'; split; [reflexivity | exact Hgood']|].
    apply Z.eqb_neq in Eend.
    apply IH; [exact Hov | lia | lia | exact Hgood'].
Qed.

(** C10: [chunk_text] terminates for every text and for all chunk_size and
    overlap arguments: the effective chunk size is at least 100 and the
    effective overlap lies in [0, effective chunk size - 1], so the window
    start strictly increases in every iteration that continues, and
    [len(text) + 1] iterations always suffice; every returned chunk is
    non-empty and at most max(chunk_size, 100) characters long. *)
Theorem chunk_text_terminates (text : string) (chunk_size overlap : Z) (extra : nat) :
  (exists chunks,
     chunk_text (S (String.length text) + extra) text chunk_size overlap = Some chunks
     /\ Forall (fun c => c <> ""%string
                         /\ (Z.of_nat (String.length c) <= Z.max chunk_size 100)%Z)
          chunks)
  /\ (100 <= safe_chunk_size chunk_size)%Z
  /\ (0 <= safe_overlap chunk_size overlap <= safe_chunk_size chunk_size - 1)%Z
  /\ (forall start : Z,
        (start + safe_chunk_size chunk_size < Z.of_nat (String.length text))%Z ->
        (start < next_start text chunk_size overlap start)%Z).
Proof.
  assert (Hsize : (100 <= safe_chunk_size chunk_size)%Z)
    by (unfold safe_chunk_size; lia).
  assert (Hov : (0 <= safe_overlap chunk_size overlap <= safe_chunk_size chunk_size - 1)%Z)
    by (unfold safe_overlap; lia).
  split; [|split; [exact Hsize | split; [exact Hov|]]].
  - unfold chunk_text. destruct text as [|c rest] eqn:Et.
    + exists []. split; [reflexivity | constructor].
    + rewrite <- Et.
      destruct (chunk_loop_terminates (S (String.length text) + extra) text
                  (safe_chunk_size chunk_size) (safe_overlap chunk_size overlap) 0 [])
        as [out [Hout Hgood]]; [exact Hov | lia | lia | constructor |].
      exists out. split; [exact Hout | exact Hgood].
  - intros start Hstart. unfold next_start. lia.
Qed.

Lemma chunk_text_terminates_witness :
  (0 < next_start long_text 120 20 0)%Z.
Proof.
  destruct (chunk_text_terminates long_text 120 20 0) as (_ & _ & _ & H).
  apply (H 0%Z). vm_compute. reflexivity.
Defined.

Example chunk_text_overlap_not_below_size :
  chunk_text 30 "alpha beta  gamma delta" 5 500
  = Some ["alpha beta  gamma delta"%string].
Proof. reflexivity. Qed.

Example chunk_text_sliding_window :
  option_map (List.map String.length) (chunk_text 301 long_text 120 20)
  = Some [119; 119; 99]%nat.
Proof. reflexivity. Qed.

End ProcessingClaims.

(* ===================================================================== *)
(** * Further properties of the code *)
(* ===================================================================== *)

(** ** Sorting and deduplication in [_rank_items] *)

Section SortFacts.

Import Ranking RankingOrderCases.

Lemma Qltb_false (x y : Q) : Qltb x y = false -> y <= x.
Proof.
  unfold Qltb. rewrite negb_false_iff. apply Qle_bool_iff.
Qed.

Lemma insert_desc_perm (x : enriched) (l : list enriched) :
  Permutation (insert_desc x l) (x :: l).
Proof.
  induction l as [|y l IH]; simpl; [reflexivity|].
  destruct (Qltb (rank_score y) (rank_score x)); [reflexivity|].
  rewrite IH. apply perm_swap.
Qed.

Lemma sort_desc_perm (l : list enriched) : Permutation (sort_desc l) l.
Proof.
  unfold sort_desc.
  assert (H : forall acc,
            Permutation (fold_left (fun acc x => insert_desc x acc) l acc) (acc ++ l)%list).
  { induction l as [|x l IH]; intros acc; simpl.
    - rewrite app_nil_r. reflexivity.
    - rewrite IH, insert_desc_perm. apply Permutation_middle. }
  apply (H []).
Qed.

Lemma insert_desc_descending (x : enriched) (l : list enriched) :
  descending l -> descending (insert_desc x l).
Proof.
  unfold descending. induction l as [|y l IH]; simpl; intros Hs.
  - constructor; constructor.
  - apply StronglySorted_inv in Hs. destruct Hs as [Hl Hy].
    destruct (Qltb (rank_score y) (rank_score x)) eqn:E.
    + apply Qltb_true in E. constructor.
      * constructor; assumption.
      * constructor; [lra|].
        rewrite List.Forall_forall in Hy |- *. intros z Hz.
        specialize (Hy z Hz). cbv beta in Hy. lra.
    + apply Qltb_false in E. constructor; [apply IH; exact Hl|].
      rewrite List.Forall_forall in Hy |- *. intros z Hz.
      apply (Permutation_in _ (insert_desc_perm x l)) in Hz.
      destruct Hz as [<- | Hz]; [exact E | apply Hy; exact Hz].
Qed.

Lemma sort_desc_descending (l : list enriched) : descending (sort_desc l).
Proof.
  unfold sort_desc.
  assert (H : forall acc, descending acc ->
            descending (fold_left (fun acc x => insert_desc x acc) l acc)).
  { induction l as [|x l IH]; intros acc Hacc; simpl; [exact Hacc|].
    apply IH, insert_desc_descending, Hacc. }
  apply H. constructor.
Qed.

Lemma filter_perm_length (p : enriched -> bool) (l l' : list enriched) :
  Permutation l l' -> List.length (List.filter p l) = List.length (List.filter p l').
Proof.
  induction 1 as [|x l l' _ IH|x y l|l l' l'' _ IH1 _ IH2]; simpl.
  - reflexivity.
  - destruct (p x); simpl; congruence.
  - destruct (p x), (p y); reflexivity.
  - congruence.
Qed.

Section Seen.

Variable md5 : string -> string.

Lemma seen_put_keys (key : string) (e : enriched) (seen : list (string * enriched)) :
  List.map fst (seen_put key e seen)
  = if existsb (String.eqb key) (List.map fst seen) then List.map fst seen
    else (List.map fst seen ++ [key])%list.
Proof.
  induction seen as [|[k old] seen IH]; simpl; [reflexivity|].
  rewrite (String.eqb_sym key k).
  destruct (String.eqb k key) eqn:E; simpl; [reflexivity|].
  rewrite IH. destruct (existsb _ _); reflexivity.
Qed.

Lemma seen_put_well_keyed (e : enriched) (seen : list (string * enriched)) :
  well_keyed md5 seen -> well_keyed md5 (seen_put (dedup_key md5 e) e seen).
Proof.
  intros [Hk Hn]. split.
  - clear Hn. induction seen as [|[k old] seen IH]; simpl.
    + constructor; [reflexivity | constructor].
    + apply List.Forall_cons_iff in Hk. destruct Hk as [Hk Hr].
      destruct (String.eqb k (dedup_key md5 e)) eqn:E.
      * constructor; [|exact Hr]. simpl.
        destruct (Qltb _ _); [apply String.eqb_eq, E | exact Hk].
      * constructor; [exact Hk | apply IH, Hr].
  - rewrite seen_put_keys.
    destruct (existsb _ _) eqn:E; [exact Hn|].
    apply NoDup_app; [exact Hn | constructor; [intros [] | constructor] |].
    intros k Hk' [<- | []].
    assert (existsb (String.eqb (dedup_key md5 e)) (List.map fst seen) = true).
    { apply existsb_exists. exists (dedup_key md5 e). split; [exact Hk'|].
      apply String.eqb_refl. }
    congruence.
Qed.

Lemma fold_seen_well_keyed (l : list enriched) (seen : list (string * enriched)) :
  well_keyed md5 seen ->
  well_keyed md5 (fold_left (fun seen e => seen_put (dedup_key md5 e) e seen) l seen).
Proof.
  revert seen. induction l as [|x l IH]; intros seen H; simpl; [exact H|].
  apply IH, seen_put_well_keyed, H.
Qed.

Lemma fold_seen_In (e : enriched) (l : list enriched) (seen : list (string * enriched)) :
  In e (List.map snd (fold_left (fun seen x => seen_put (dedup_key md5 x) x seen) l seen)) ->
  In e (List.map snd seen) \/ In e l.
Proof.
  revert seen. induction l as [|x l IH]; intros seen H; simpl in *; [left; exact H|].
  destruct (IH _ H) as [H' | H']; [|right; right; exact H'].
  destruct (seen_put_In _ _ _ _ H') as [-> | H'']; [right; left; reflexivity|].
  left. exact H''.
Qed.

Lemma seen_put_covers (e : enriched) (seen : list (string * enriched)) :
  covered md5 e (seen_put (dedup_key md5 e) e seen).
Proof.
  unfold covered. induction seen as [|[k old] seen IH]; simpl.
  - exists e. split; [left; reflexivity | lra].
  - destruct (String.eqb k (dedup_key md5 e)) eqn:E.
    + apply String.eqb_eq in E. subst k.
      destruct (Qltb (rank_score old) (rank_score e)) eqn:E'.
      * exists e. split; [left; reflexivity | lra].
      * apply Qltb_false in E'. exists old. split; [left; reflexivity | exact E'].
    + destruct IH as [v [Hin Hv]]. exists v. split; [right; exact Hin | exact Hv].
Qed.

Lemma seen_put_keeps (x e : enriched) (seen : list (string * enriched)) :
  covered md5 x seen -> covered md5 x (seen_put (dedup_key md5 e) e seen).
Proof.
  unfold covered. intros [v [Hin Hv]].
  induction seen as [|[k old] seen IH]; simpl; [destruct Hin|].
  destruct Hin as [Heq | Hin].
  - injection Heq as -> ->.
    destruct (String.eqb _ _) eqn:E.
    + destruct (Qltb (rank_score v) (rank_score e)) eqn:E'.
      * apply Qltb_true in E'. exists e. split; [left; reflexivity | lra].
      * exists v. split; [left; reflexivity | exact Hv].
    + exists v. split; [left; reflexivity | exact Hv].
  - destruct (String.eqb k _).
    + exists v. split; [right; exact Hin | exact Hv].
    + destruct (IH Hin) as [v' [Hin' Hv']].
      exists v'. split; [right; exact Hin' | exact Hv'].
Qed.

End Seen.

End SortFacts.

Module RankingOrder.

Import Ranking RankingOrderCases.

Section Output.

Variable md5 : string -> string.
Variable now : Q.
Variable ctx : query_context.

Lemma _rank_items_unfold (items : list item) :
  _rank_items md5 now items ctx = sort_desc (List.map snd (seen_of md5 now ctx items)).
Proof. reflexivity. Qed.

Lemma relevant_count (items : list item) :
  List.length (List.filter (fun r => Qltb 0.3 (entity_relevance r)) (scored now ctx items))
  = List.length (List.filter (relevant ctx) items).
Proof.
  unfold scored.
  rewrite (filter_perm_length _ _ _ (sort_desc_perm _)).
  induction items as [|it items IH]; simpl; [reflexivity|].
  unfold relevant at 1. destruct (Qltb _ _); simpl; rewrite IH; reflexivity.
Qed.

(** X1: the rows come back best first: no row has a higher [rank_score] than a
    row before it. *)
Theorem _rank_items_descending (items : list item) :
  descending (_rank_items md5 now items ctx).
Proof. rewrite _rank_items_unfold. apply sort_desc_descending. Qed.

(** X2: no two returned rows share a deduplication key (source name and hash of
    the insight text). *)
Theorem _rank_items_distinct_keys (items : list item) :
  NoDup (List.map (dedup_key md5) (_rank_items md5 now items ctx)).
Proof.
  rewrite _rank_items_unfold.
  apply (Permutation_NoDup
           (Permutation_sym (Permutation_map (dedup_key md5) (sort_desc_perm _)))).
  assert (H : well_keyed md5 (seen_of md5 now ctx items)).
  { apply fold_seen_well_keyed. split; constructor. }
  destruct H as [Hk Hn].
  replace (List.map (dedup_key md5) (List.map snd (seen_of md5 now ctx items)))
    with (List.map fst (seen_of md5 now ctx items)); [exact Hn|].
  clear Hn. induction Hk as [|[k v] l Hkv _ IH]; simpl; [reflexivity|].
  simpl in Hkv. rewrite Hkv, IH. reflexivity.
Qed.

(** X3: when at least three items have an entity relevance above 0.3, every
    returned row has. *)
Theorem _rank_items_hard_filter (items : list item) :
  (3 <= List.length (List.filter (relevant ctx) items))%nat ->
  forall e, In e (_rank_items md5 now items ctx) -> 0.3 < entity_relevance e.
Proof.
  intros H3 e He. rewrite _rank_items_unfold in He.
  apply (Permutation_in _ (sort_desc_perm _)) in He.
  unfold seen_of in He. apply fold_seen_In in He. destruct He as [[] | He].
  unfold kept in He. rewrite relevant_count in He.
  apply Nat.leb_le in H3. rewrite H3 in He.
  apply filter_In in He. apply Qltb_true. apply He.
Qed.

(** X4: an item is dropped only by the hard filter or for a duplicate that
    scores at least as high: the output has a row with the item's key and a
    [rank_score] not below the item's. *)
Theorem _rank_items_keeps_best (items : list item) (it : item) :
  In it items -> passes_filter ctx items it ->
  exists e, In e (_rank_items md5 now items ctx)
            /\ dedup_key md5 e = dedup_key md5 (rank_item now ctx it)
            /\ rank_score (rank_item now ctx it) <= rank_score e.
Proof.
  intros Hin Hpass. set (x := rank_item now ctx it).
  assert (Hk : In x (kept now ctx items)).
  { assert (Hs : In x (scored now ctx items)).
    { apply (Permutation_in _ (Permutation_sym (sort_desc_perm _))).
      apply in_map, Hin. }
    unfold kept. rewrite relevant_count.
    destruct (3 <=? _)%nat eqn:E; [|exact Hs].
    apply filter_In. split; [exact Hs|].
    destruct Hpass as [Hlt | Hrel]; [apply Nat.leb_le in E; lia | exact Hrel]. }
  assert (Hc : forall l seen, In x l \/ covered md5 x seen ->
                 covered md5 x
                   (fold_left (fun seen e => seen_put (dedup_key md5 e) e seen) l seen)).
  { induction l as [|y l IH]; intros seen [Hl | Hs]; simpl.
    - destruct Hl.
    - exact Hs.
    - apply IH. destruct Hl as [-> | Hl]; [right; apply seen_put_covers | left; exact Hl].
    - apply IH. right. apply seen_put_keeps, Hs. }
  destruct (Hc (kept now ctx items) [] (or_introl Hk)) as [v [Hv Hle]].
  assert (Hwk : well_keyed md5 (seen_of md5 now ctx items)).
  { apply fold_seen_well_keyed. split; constructor. }
  exists v. split; [|split; [|exact Hle]].
  - rewrite _rank_items_unfold.
    apply (Permutation_in _ (Permutation_sym (sort_desc_perm _))).
    apply (in_map snd) in Hv. exact Hv.
  - destruct Hwk as [Hf _]. rewrite List.Forall_forall in Hf.
    symmetry. apply (Hf _ Hv).
Qed.

End Output.

Lemma _rank_items_hard_filter_witness :
  0.3 < entity_relevance (rank_item 86400 RankingCases.apple_context RankingCases.filing_item).
Proof.
  apply (_rank_items_hard_filter (fun s => s) 86400 RankingCases.apple_context apple_rows).
  - vm_compute. lia.
  - vm_compute. left. reflexivity.
Defined.

Lemma _rank_items_keeps_best_witness :
  exists e,
    In e (_rank_items (fun s => s) 86400 apple_rows RankingCases.apple_context)
    /\ dedup_key (fun s => s) e
       = dedup_key (fun s => s)
           (rank_item 86400 RankingCases.apple_context RankingCases.filing_item)
    /\ rank_score (rank_item 86400 RankingCases.apple_context RankingCases.filing_item)
       <= rank_score e.
Proof.
  apply (_rank_items_keeps_best (fun s => s) 86400 RankingCases.apple_context apple_rows
           RankingCases.filing_item).
  - left. reflexivity.
  - right. vm_compute. reflexivity.
Defined.

End RankingOrder.

(** ** Scores and freshness *)

Section ScoreFacts.

Import Ranking RankingHelpers.

Lemma count_all {A} (p : A -> bool) (l : list A) :
  count p l = List.length l <-> List.Forall (fun x => p x = true) l.
Proof.
  unfold count. induction l as [|x l IH]; simpl.
  - split; [constructor | reflexivity].
  - pose proof (filter_length_le p l) as Hle.
    destruct (p x) eqn:E; simpl; split; intros H.
    + constructor; [exact E | apply IH; lia].
    + apply List.Forall_cons_iff in H. f_equal. apply IH, H.
    + lia.
    + apply List.Forall_cons_iff in H. destruct H as [H _]. congruence.
Qed.

Lemma ratio_one (a b : nat) : (0 < b)%nat -> (1 <= ratio a b <-> (b <= a)%nat).
Proof.
  intros Hb. unfold ratio.
  assert (Hb' : 0 < inject_Z (Z.of_nat b)).
  { change 0 with (inject_Z 0). rewrite <- Zlt_Qlt. lia. }
  split; intros H.
  - assert (H' : inject_Z (Z.of_nat b) <= inject_Z (Z.of_nat a)).
    { apply (Qmult_le_r _ _ _ Hb') in H. 
      setoid_replace (inject_Z (Z.of_nat a) / inject_Z (Z.of_nat b) * inject_Z (Z.of_nat b))
        with (inject_Z (Z.of_nat a)) using relation Qeq in H by (field; lra).
      lra. }
    rewrite <- Zle_Qle in H'. lia.
  - apply Qle_shift_div_l; [exact Hb'|].
    assert (H' : inject_Z (Z.of_nat b) <= inject_Z (Z.of_nat a)).
    { rewrite <- Zle_Qle. lia. }
    lra.
Qed.

Lemma fold_max_init (r : list Q) (t : Q) : t <= fold_left Qmax r t.
Proof.
  revert t. induction r as [|y r IH]; intros t; simpl; [lra|].
  apply Qle_trans with (Qmax t y); [apply Q.le_max_l | apply IH].
Qed.

Lemma fold_max_ge (r : list Q) (t x : Q) :
  In x (t :: r) -> x <= fold_left Qmax r t.
Proof.
  revert t. induction r as [|y r IH]; intros t Hin; simpl.
  - destruct Hin as [-> | []]. lra.
  - destruct Hin as [-> | [-> | Hin]].
    + apply fold_max_init with (r := y :: r).
    + apply Qle_trans with (Qmax t x); [apply Q.le_max_r | apply fold_max_init].
    + apply IH. right. exact Hin.
Qed.

Lemma fold_max_in (r : list Q) (t : Q) :
  exists x, In x (t :: r) /\ fold_left Qmax r t == x.
Proof.
  revert t. induction r as [|y r IH]; intros t; simpl.
  - exists t. split; [left; reflexivity | reflexivity].
  - destruct (IH (Qmax t y)) as [x [[<- | Hin] Hx]].
    + destruct (Q.max_spec t y) as [[_ H] | [_ H]].
      * exists y. split; [right; left; reflexivity | rewrite Hx; exact H].
      * exists t. split; [left; reflexivity | rewrite Hx; exact H].
    + exists x. split; [right; right; exact Hin | exact Hx].
Qed.

Lemma created_times_In (items : list item) (t : Q) :
  In t (created_times items) <->
  exists it, In it items /\ get (created_at it) = Some t.
Proof.
  unfold created_times. rewrite in_flat_map. split.
  - intros [it [Hin Ht]]. exists it. split; [exact Hin|].
    destruct (get (created_at it)); [destruct Ht as [-> | []]; reflexivity | destruct Ht].
  - intros [it [Hin Ht]]. exists it. split; [exact Hin|]. rewrite Ht. left. reflexivity.
Qed.

Lemma unique_in_order_In (x : string) (l : list string) :
  In x (unique_in_order l) <-> In x l.
Proof.
  induction l as [|y l IH]; simpl; [tauto|].
  rewrite filter_In, IH. split.
  - intros [H | [H _]]; [left | right]; exact H.
  - intros [H | H]; [left; exact H|].
    destruct (String.eqb y x) eqn:E.
    + left. apply String.eqb_eq, E.
    + right. split; [exact H | reflexivity].
Qed.

Lemma unique_in_order_NoDup (l : list string) : NoDup (unique_in_order l).
Proof.
  induction l as [|y l IH]; simpl; [constructor|].
  constructor.
  - intros H. apply filter_In in H. destruct H as [_ H].
    rewrite String.eqb_refl in H. discriminate.
  - apply List.NoDup_filter, IH.
Qed.

Lemma unique_in_order_length (l : list string) :
  (List.length (unique_in_order l) <= List.length l)%nat.
Proof.
  induction l as [|y l IH]; simpl; [lia|].
  pose proof (filter_length_le (fun y0 => negb (String.eqb y y0)) (unique_in_order l)).
  lia.
Qed.

End ScoreFacts.

Module RankingScores.

Import Ranking RankingHelpers.

(** X5: [_recency_score]: an item created at or after the reference instant
    scores 1, and of two items the newer one never scores lower. *)
Theorem _recency_score_newer (now t1 t2 : Q) :
  t1 <= t2 ->
  _recency_score now (Some t1) <= _recency_score now (Some t2)
  /\ (now <= t2 -> _recency_score now (Some t2) == 1).
Proof.
  intros Hle. unfold _recency_score.
  set (a1 := Qmax ((now - t1) / 3600) 0). set (a2 := Qmax ((now - t2) / 3600) 0).
  assert (H1 : 0 <= a1) by apply Q.le_max_r.
  assert (H2 : 0 <= a2) by apply Q.le_max_r.
  assert (H21 : a2 <= a1).
  { unfold a1, a2. apply Q.max_le_compat_r.
    apply Qle_shift_div_l; [reflexivity|].
    setoid_replace ((now - t2) / 3600 * 3600) with (now - t2) using relation Qeq
      by field.
    lra. }
  assert (E1 : a1 / 24 == a1 * (1 # 24)) by field.
  assert (E2 : a2 / 24 == a2 * (1 # 24)) by field.
  rewrite E1, E2. clear E1 E2.
  split.
  - clearbody a1 a2.
    apply Qle_shift_div_l; [lra|].
    setoid_replace (1 / (1 + a1 * (1 # 24)) * (1 + a2 * (1 # 24)))
      with ((1 + a2 * (1 # 24)) / (1 + a1 * (1 # 24))) using relation Qeq
      by (field; lra).
    apply Qle_shift_div_r; lra.
  - intros Hnow. assert (Ha : a2 == 0).
    { unfold a2. apply Q.max_r.
      apply Qle_shift_div_r; [reflexivity|]. lra. }
    clearbody a2. rewrite Ha. reflexivity.
Qed.

Lemma _recency_score_newer_witness :
  _recency_score 86400 (Some 0) <= _recency_score 86400 (Some 43200).
Proof.
  refine (proj1 (_recency_score_newer 86400 0 43200 _)).
  unfold Qle. simpl. lia.
Defined.

(** X6: [_token_relevance] of a non-empty token list is 1 exactly when every
    token occurs in the lowercased insight and recommendation text. *)
Theorem _token_relevance_full (toks : list string) (ins rec : option string) :
  toks <> [] ->
  (_token_relevance toks ins rec == 1 <->
   List.Forall
     (fun token => contains token (lower (or_empty ins ++ " " ++ or_empty rec)) = true)
     toks).
Proof.
  intros Hne. unfold _token_relevance.
  destruct toks as [|t toks]; [congruence|].
  cbv zeta. set (l := t :: toks).
  set (text := lower (or_empty ins ++ " " ++ or_empty rec)).
  set (p := fun token => contains token text).
  assert (Hlen : Nat.max (List.length l) 1 = List.length l) by (simpl; lia).
  rewrite Hlen. etransitivity; [|apply (count_all p l)].
  pose proof (count_le_length p l) as Hc.
  assert (Hpos : (0 < List.length l)%nat) by (simpl; lia).
  pose proof (ratio_one (count p l) (List.length l) Hpos) as Hr.
  destruct (Q.min_spec (ratio (count p l) (List.length l)) 1) as [[Hlt Hm] | [Hge Hm]];
    rewrite Hm.
  - split; intros H.
    + lra.
    + assert (1 <= ratio (count p l) (List.length l)) by (apply Hr; lia). lra.
  - split; intros _; [apply Hr in Hge; lia | reflexivity].
Qed.

Lemma _token_relevance_full_witness :
  _token_relevance ["apple"; "revenue"] (Some "Apple revenue grew") None == 1.
Proof.
  refine (proj2 (_token_relevance_full ["apple"; "revenue"]
                   (Some "Apple revenue grew") None _) _).
  - discriminate.
  - repeat constructor.
Defined.

(** X7: [_needs_refresh] answers [False] exactly when there are at least
    [min_evidence] items and one of them carries a creation time at most
    [stale_after_hours] hours before the reference instant. *)
Theorem _needs_refresh_false (now : Q) (items : list item)
    (min_evidence stale_after_hours : Z) :
  _needs_refresh now items min_evidence stale_after_hours = false <->
  (min_evidence <= Z.of_nat (List.length items))%Z
  /\ exists it t, In it items /\ get (created_at it) = Some t
                  /\ (now - t) / 3600 <= inject_Z stale_after_hours.
Proof.
  unfold _needs_refresh, freshest.
  destruct (Z.of_nat _ <? min_evidence)%Z eqn:E.
  - split; [discriminate | intros [H _]; apply Z.ltb_lt in E; lia].
  - apply Z.ltb_ge in E.
    destruct (created_times items) as [|t r] eqn:Et.
    + split; [discriminate|]. intros [_ [it [t [Hin [Ht _]]]]].
      assert (H : In t (created_times items)).
      { apply created_times_In. exists it. split; assumption. }
      rewrite Et in H. destruct H.
    + split.
      * intros H. split; [exact E|].
        destruct (fold_max_in r t) as [x [Hx Hf]].
        rewrite <- Et in Hx. apply created_times_In in Hx.
        destruct Hx as [it [Hin Hit]]. exists it, x. split; [exact Hin|].
        split; [exact Hit|].
        apply Qltb_false in H. rewrite Hf in H. exact H.
      * intros [_ [it [x [Hin [Hit Hage]]]]].
        assert (Hx : In x (t :: r)).
        { rewrite <- Et. apply created_times_In. exists it. split; assumption. }
        apply fold_max_ge in Hx.
        destruct (Qltb _ _) eqn:E'; [|reflexivity].
        apply Qltb_true in E'. exfalso.
        assert (Hq : (now - fold_left Qmax r t) / 3600 <= (now - x) / 3600).
        { apply Qle_shift_div_l; [reflexivity|].
          setoid_replace ((now - fold_left Qmax r t) / 3600 * 3600)
            with (now - fold_left Qmax r t) using relation Qeq by field.
          lra. }
        lra.
Qed.

(** X8: [_build_signal_shifts] returns between one and three lines, none of
    them twice. *)
Theorem _build_signal_shifts_lines (fmt_value : option Q -> string)
    (items : list enriched) :
  (1 <= List.length (_build_signal_shifts fmt_value items) <= 3)%nat
  /\ NoDup (_build_signal_shifts fmt_value items).
Proof.
  unfold _build_signal_shifts.
  set (f := fun e : enriched => _).
  set (l := match List.map f (firstn 3 items) with [] => _ | _ => List.map f (firstn 3 items) end).
  assert (Hl : (1 <= List.length l <= 3)%nat).
  { subst l. pose proof (firstn_le_length 3 items) as H1.
    assert (H3 : (List.length (firstn 3 items) <= 3)%nat)
      by (rewrite length_firstn; lia).
    destruct (firstn 3 items) as [|e r]; simpl in *; [lia|].
    rewrite length_map. lia. }
  split; [|apply unique_in_order_NoDup].
  pose proof (unique_in_order_length l) as Hu.
  split; [|lia].
  destruct l as [|x l']; [simpl in Hl; lia|]. simpl. lia.
Qed.

End RankingScores.

(** ** Splitting, stripping and slicing *)

Section SplitFacts.

Import TextCases.

(** One step of [String.append] on a string whose head is known. *)
Ltac append_step :=
  repeat first
    [ progress change (String ?c ?a ++ ?b)%string with (String c (a ++ b))
    | progress change (EmptyString ++ ?b)%string with b ].

Lemma append_nil_r' (s : string) : (s ++ "")%string = s.
Proof.
  induction s as [|c s IH]; [reflexivity|].
  change (String c s ++ "") with (String c (s ++ "")). rewrite IH. reflexivity.
Qed.

Lemma string_of_rev_rev (w : string) :
  string_of_list_ascii (rev (rev (list_ascii_of_string w))) = w.
Proof. rewrite rev_involutive. apply string_of_list_ascii_of_string. Qed.

Lemma string_of_list_nonempty (c : ascii) (l : list ascii) :
  string_of_list_ascii (rev (c :: l)) <> ""%string.
Proof.
  intros H. apply (f_equal list_ascii_of_string) in H.
  rewrite list_ascii_of_string_of_list_ascii in H. simpl in H.
  destruct (rev l); discriminate.
Qed.

Lemma split_go_wordlike (s : string) (cur : list ascii) :
  List.Forall (fun c => is_space c = false) cur ->
  List.Forall wordlike (split_go cur s).
Proof.
  revert cur. induction s as [|c s IH]; intros cur Hcur.
  - simpl. destruct cur as [|d cur]; [constructor|].
    constructor; [|constructor]. split; [apply string_of_list_nonempty|].
    rewrite list_ascii_of_string_of_list_ascii.
    apply List.Forall_rev. exact Hcur.
  - cbn [split_go]. destruct (is_space c) eqn:E.
    + destruct cur as [|d cur]; [apply IH; constructor|].
      constructor; [|apply IH; constructor].
      split; [apply string_of_list_nonempty|].
      rewrite list_ascii_of_string_of_list_ascii.
      apply List.Forall_rev. exact Hcur.
    + apply IH. constructor; assumption.
Qed.

Lemma split_wordlike (s : string) : List.Forall wordlike (split s).
Proof. apply split_go_wordlike. constructor. Qed.

Lemma split_go_word (w s : string) (cur : list ascii) :
  List.Forall (fun c => is_space c = false) (list_ascii_of_string w) ->
  split_go cur (w ++ s) = split_go (rev (list_ascii_of_string w) ++ cur)%list s.
Proof.
  revert cur. induction w as [|c w IH]; intros cur Hw; [reflexivity|].
  simpl in Hw. apply List.Forall_cons_iff in Hw. destruct Hw as [Hc Hw].
  change (String c w ++ s) with (String c (w ++ s)).
  cbn [split_go]. rewrite Hc, (IH _ Hw). simpl.
  rewrite <- app_assoc. reflexivity.
Qed.

(** Splitting the single-blank join of words gives the words back. *)
Lemma split_concat (l : list string) :
  List.Forall wordlike l -> split (String.concat " " l) = l.
Proof.
  unfold split. induction 1 as [|w l [Hne Hw] Hl IH]; [reflexivity|].
  destruct l as [|w' l'].
  - simpl. rewrite <- (append_nil_r' w) at 1.
    rewrite (split_go_word w "" [] Hw), app_nil_r. simpl.
    destruct (rev (list_ascii_of_string w)) as [|d r] eqn:E.
    + destruct w; [congruence|]. simpl in E. destruct (rev _); discriminate.
    + rewrite <- E, string_of_rev_rev. reflexivity.
  - change (String.concat " " (w :: w' :: l'))
      with (w ++ String " " (String.concat " " (w' :: l'))).
    rewrite (split_go_word w _ [] Hw), app_nil_r.
    cbn [split_go]. change (is_space " ") with true. cbv iota.
    rewrite IH.
    destruct (rev (list_ascii_of_string w)) as [|d r] eqn:E.
    + destruct w; [congruence|]. simpl in E. destruct (rev _); discriminate.
    + rewrite <- E, string_of_rev_rev. reflexivity.
Qed.

Lemma length_append (a b : string) :
  String.length (a ++ b) = (String.length a + String.length b)%nat.
Proof.
  induction a as [|x a IH]; [reflexivity|].
  change (String x a ++ b) with (String x (a ++ b)). simpl. rewrite IH. reflexivity.
Qed.

Lemma append_assoc (a b c : string) : ((a ++ b) ++ c = a ++ (b ++ c))%string.
Proof.
  induction a as [|x a IH]; [reflexivity|].
  change ((String x a ++ b) ++ c) with (String x ((a ++ b) ++ c)).
  rewrite IH. reflexivity.
Qed.

Lemma take_drop (n : nat) (s : string) : (take n s ++ drop n s)%string = s.
Proof.
  revert s. induction n as [|n IH]; intros s; [reflexivity|].
  destruct s as [|c s]; [reflexivity|]. simpl take. simpl drop. append_step.
  rewrite IH. reflexivity.
Qed.

Lemma piece_of_refl (s : string) : piece_of s s.
Proof. exists ""%string, ""%string. simpl. rewrite append_nil_r'. reflexivity. Qed.

Lemma piece_of_trans (a b c : string) : piece_of a b -> piece_of b c -> piece_of a c.
Proof.
  intros [p1 [q1 H1]] [p2 [q2 H2]]. exists (p2 ++ p1)%string, (q1 ++ q2)%string.
  rewrite H2, H1. rewrite !append_assoc. reflexivity.
Qed.

Lemma piece_of_take (n : nat) (s : string) : piece_of (take n s) s.
Proof.
  exists ""%string, (drop n s). simpl. symmetry. apply take_drop.
Qed.

Lemma piece_of_drop (n : nat) (s : string) : piece_of (drop n s) s.
Proof.
  exists (take n s), ""%string. rewrite append_nil_r'. symmetry. apply take_drop.
Qed.

Lemma piece_of_lstrip (s : string) : piece_of (lstrip s) s.
Proof.
  induction s as [|c s IH]; simpl; [apply piece_of_refl|].
  destruct (is_space c); [|apply piece_of_refl].
  destruct IH as [p [q H]]. exists (String c p), q. append_step. rewrite <- H.
  reflexivity.
Qed.

Lemma piece_of_rstrip (s : string) : piece_of (rstrip s) s.
Proof.
  induction s as [|c s IH]; simpl; [apply piece_of_refl|].
  destruct IH as [p [q H]].
  destruct (rstrip s) as [|d r] eqn:E.
  - destruct (is_space c).
    + exists ""%string, (String c s). reflexivity.
    + exists ""%string, s. reflexivity.
  - (* the kept part starts at the head, so nothing precedes it *)
    assert (Hp : exists q', s = (String d r ++ q')%string).
    { clear H p q. revert d r E. induction s as [|c' s IHs]; intros d r E;
        [discriminate|].
      simpl in E. destruct (rstrip s) as [|d' r'] eqn:E'.
      - destruct (is_space c'); [discriminate|]. injection E as <- <-.
        exists s. reflexivity.
      - injection E as <- <-. destruct (IHs d' r' eq_refl) as [q' Hq'].
        exists q'. append_step. rewrite Hq' at 1. append_step. reflexivity. }
    destruct Hp as [q' Hq']. exists ""%string, q'. append_step. rewrite Hq' at 1.
    append_step. reflexivity.
Qed.

Lemma piece_of_strip (s : string) : piece_of (strip s) s.
Proof.
  unfold strip. eapply piece_of_trans; [apply piece_of_rstrip | apply piece_of_lstrip].
Qed.

Lemma piece_of_slice (s : string) (a b : Z) : piece_of (slice s a b) s.
Proof.
  unfold slice. eapply piece_of_trans; [apply piece_of_take | apply piece_of_drop].
Qed.

Lemma take_all (n : nat) (s : string) : (String.length s <= n)%nat -> take n s = s.
Proof.
  revert s. induction n as [|n IH]; intros s H.
  - destruct s; [reflexivity | simpl in H; lia].
  - destruct s as [|c s]; [reflexivity|]. simpl in *. rewrite IH; [reflexivity | lia].
Qed.

End SplitFacts.

Module TextProperties.

Import Text Processing TextCases ProcessingCases.

Lemma normalize_space_idempotent (s : string) :
  normalize_space (normalize_space s) = normalize_space s.
Proof.
  unfold normalize_space. rewrite (split_concat _ (split_wordlike s)). reflexivity.
Qed.

(** X9: whatever the HTML parser extracts, [normalize_content] returns text in
    normal form: normalising its whitespace again changes nothing, and
    splitting it gives back the words it was joined from. *)
Theorem normalize_content_normal (get_text : string -> string)
    (raw_content source_url : string) :
  normalize_space (normalize_content get_text raw_content source_url)
  = normalize_content get_text raw_content source_url
  /\ List.Forall wordlike (split (normalize_content get_text raw_content source_url)).
Proof.
  unfold normalize_content.
  destruct (_ || _); (split; [apply normalize_space_idempotent | apply split_wordlike]).
Qed.

(** X10: [build_excerpt] with a non-negative [max_length] returns at most
    [max_length] characters, and the whole normalised content when that
    fits. *)
Theorem build_excerpt_bounded (content : string) (max_length : Z) :
  (0 <= max_length)%Z ->
  (Z.of_nat (String.length (build_excerpt content max_length)) <= max_length)%Z
  /\ ((Z.of_nat (String.length (normalize_space content)) <= max_length)%Z ->
      build_excerpt content max_length = normalize_space content).
Proof.
  intros Hm. unfold build_excerpt, slice, clamp_index.
  set (s := normalize_space content).
  change (0 <? 0)%Z with false. cbv iota.
  destruct (max_length <? 0)%Z eqn:E; [apply Z.ltb_lt in E; lia|].
  replace (Z.to_nat (Z.min 0 (Z.of_nat (String.length s)))) with 0%nat by lia.
  change (drop 0 s) with s. rewrite Nat.sub_0_r.
  split.
  - pose proof (ProcessingClaims.length_take
                  (Z.to_nat (Z.min max_length (Z.of_nat (String.length s)))) s).
    lia.
  - intros Hfit. apply take_all. lia.
Qed.

Lemma build_excerpt_bounded_witness :
  (Z.of_nat (String.length (build_excerpt "  Apple   beats  estimates " 500)) <= 500)%Z.
Proof.
  refine (proj1 (build_excerpt_bounded "  Apple   beats  estimates " 500 _)). lia.
Defined.

(** X11: a non-empty text no longer than the effective chunk size comes back as
    one chunk, the text without its surrounding whitespace, or as no chunk
    when it is all whitespace. *)
Theorem chunk_text_short (fuel : nat) (text : string) (chunk_size overlap : Z) :
  text <> ""%string ->
  (Z.of_nat (String.length text) <= Z.max chunk_size 100)%Z ->
  chunk_text (S fuel) text chunk_size overlap
  = Some (match strip text with EmptyString => [] | c => [c] end).
Proof.
  intros Hne Hlen. unfold chunk_text.
  destruct text as [|c rest] eqn:Et; [congruence|]. rewrite <- Et in *.
  assert (Hpos : (0 < Z.of_nat (String.length text))%Z) by (rewrite Et; simpl; lia).
  cbn [chunk_loop]. unfold safe_chunk_size.
  apply Z.ltb_lt in Hpos. rewrite Hpos. apply Z.ltb_lt in Hpos.
  replace (Z.min (0 + Z.max chunk_size 100) (Z.of_nat (String.length text)))
    with (Z.of_nat (String.length text)) by lia.
  rewrite Z.eqb_refl.
  assert (Hs : slice text 0 (Z.of_nat (String.length text)) = text).
  { unfold slice, clamp_index. change (0 <? 0)%Z with false. cbv iota.
    destruct (Z.of_nat (String.length text) <? 0)%Z eqn:E; [apply Z.ltb_lt in E; lia|].
    replace (Z.to_nat (Z.min 0 (Z.of_nat (String.length text)))) with 0%nat by lia.
    change (drop 0 text) with text. apply take_all. lia. }
  rewrite Hs. destruct (strip text); reflexivity.
Qed.

Lemma chunk_text_short_witness :
  chunk_text 1 "  quarterly revenue up  " 500 100 = Some ["quarterly revenue up"%string].
Proof.
  refine (chunk_text_short 0 "  quarterly revenue up  " 500 100 _ _).
  - discriminate.
  - vm_compute. discriminate.
Defined.

Lemma chunk_loop_pieces (fuel : nat) (text : string) (size ov start : Z)
    (chunks out : list string) :
  chunk_loop fuel text size ov start chunks = Some out ->
  List.Forall (fun c => piece_of c text) chunks ->
  List.Forall (fun c => piece_of c text) out.
Proof.
  revert start chunks. induction fuel as [|fuel IH]; intros start chunks Hout Hc;
    [discriminate|].
  cbn [chunk_loop] in Hout.
  destruct (start <? _)%Z; [|injection Hout as <-; exact Hc].
  set (end_ := Z.min _ _) in Hout.
  assert (Hc' : List.Forall (fun c => piece_of c text)
                  match strip (slice text start end_) with
                  | EmptyString => chunks
                  | _ => (chunks ++ [strip (slice text start end_)])%list
                  end).
  { destruct (strip (slice text start end_)) eqn:E; [exact Hc|].
    rewrite <- E. apply List.Forall_app. split; [exact Hc|].
    constructor; [|constructor].
    eapply piece_of_trans; [apply piece_of_strip | apply piece_of_slice]. }
  destruct (end_ =? _)%Z; [injection Hout as <-; exact Hc'|].
  apply (IH _ _ Hout Hc').
Qed.

(** X12: [chunk_text] never invents text: with [len(text) + 1] iterations or
    more it returns, and every chunk occurs in the text as a contiguous
    piece. *)
Theorem chunk_text_pieces (text : string) (chunk_size overlap : Z) (extra : nat) :
  exists chunks,
    chunk_text (S (String.length text) + extra) text chunk_size overlap = Some chunks
    /\ List.Forall (fun c => piece_of c text) chunks.
Proof.
  unfold chunk_text. destruct text as [|c rest] eqn:Et.
  - exists []. split; [reflexivity | constructor].
  - rewrite <- Et.
    destruct (ProcessingClaims.chunk_loop_terminates
                (S (String.length text) + extra) text
                (safe_chunk_size chunk_size) (safe_overlap chunk_size overlap) 0 [])
      as [out [Hout _]].
    + unfold safe_overlap, safe_chunk_size. lia.
    + lia.
    + lia.
    + constructor.
    + exists out. split; [exact Hout|].
      apply (chunk_loop_pieces _ _ _ _ _ _ _ Hout). constructor.
Qed.

End TextProperties.

(** ** Provider requests and the dispatch summary *)

Module ProviderCallProperties.

Import Providers ProviderCalls ProviderCallCases.

Lemma reset_if_new_day_same (today : Z) (b : budget) :
  _last_reset_date b = Some today -> reset_if_new_day today b = b.
Proof.
  intros H. unfold reset_if_new_day. destruct (decide _) as [_ | Hn]; [reflexivity|].
  contradiction.
Qed.

Lemma reset_if_new_day_date (today : Z) (b : budget) :
  _last_reset_date (reset_if_new_day today b) = Some today.
Proof.
  unfold reset_if_new_day. destruct (decide _) as [H | _]; [exact H | reflexivity].
Qed.

Lemma reset_if_new_day_limit (today : Z) (b : budget) :
  _daily_limit (reset_if_new_day today b) = _daily_limit b.
Proof. unfold reset_if_new_day. destruct (decide _); reflexivity. Qed.

Lemma calls_same_day (today : Z) (cs : list clock) (b : budget) :
  (0 < _daily_limit b)%Z ->
  List.Forall (fun c => date_today c = today) cs ->
  _last_reset_date b = Some today ->
  fst (calls cs b)
  = Nat.min (List.length cs) (Z.to_nat (_daily_limit b - _calls_today b)).
Proof.
  intros Hl Hcs. revert b Hl. induction Hcs as [|c cs Hc _ IH]; intros b Hl Hd.
  - reflexivity.
  - cbn [calls]. unfold _get, rate_limit_ok.
    destruct (_daily_limit b <=? 0)%Z eqn:E; [apply Z.leb_le in E; lia|].
    rewrite Hc, (reset_if_new_day_same _ _ Hd).
    destruct (_calls_today b <? _daily_limit b)%Z eqn:Elt; cbn [negb].
    + unfold _track_call. rewrite Hc, (reset_if_new_day_same _ _ Hd).
      set (b1 := {| _daily_limit := _ |}).
      specialize (IH b1 Hl Hd). destruct (calls cs b1) as [n b2].
      cbn [fst] in IH |- *. rewrite IH. apply Z.ltb_lt in Elt. subst b1.
      cbn [_daily_limit _calls_today List.length]. lia.
    + specialize (IH b Hl Hd). destruct (calls cs b) as [n b2].
      cbn [fst List.length] in IH |- *. rewrite IH. apply Z.ltb_ge in Elt. lia.
Qed.

Lemma _get_after_reset (today : Z) (c : clock) (b : budget) :
  (0 < _daily_limit b)%Z -> date_today c = today ->
  _get c (reset_if_new_day today b) = _get c b.
Proof.
  intros Hl Hc. unfold _get, rate_limit_ok.
  rewrite reset_if_new_day_limit.
  destruct (_daily_limit b <=? 0)%Z eqn:E; [apply Z.leb_le in E; lia|].
  rewrite Hc.
  rewrite (reset_if_new_day_same today (reset_if_new_day today b)
             (reset_if_new_day_date today b)).
  reflexivity.
Qed.

(** X13: the request gate of a provider with a positive daily limit lets through,
    of any series of calls made on one local day, exactly as many as the
    budget has left on that day, and no more. *)
Theorem _get_daily_budget (today : Z) (cs : list clock) (b : budget) :
  (0 < _daily_limit b)%Z ->
  List.Forall (fun c => date_today c = today) cs ->
  fst (calls cs b) = Nat.min (List.length cs) (remaining today b).
Proof.
  intros Hl Hcs. unfold remaining.
  destruct cs as [|c cs]; [reflexivity|].
  assert (Hc : date_today c = today) by (inversion Hcs; assumption).
  rewrite <- (reset_if_new_day_limit today b).
  rewrite <- (calls_same_day today (c :: cs) (reset_if_new_day today b));
    [| rewrite reset_if_new_day_limit; exact Hl | exact Hcs
     | apply reset_if_new_day_date].
  cbn [calls]. rewrite (_get_after_reset today c b Hl Hc). reflexivity.
Qed.

Lemma _get_daily_budget_witness :
  fst (calls [morning; morning; morning] nearly_spent) = 2%nat.
Proof.
  refine (_get_daily_budget 0 [morning; morning; morning] nearly_spent _ _).
  - reflexivity.
  - repeat constructor.
Defined.

Lemma fold_records (results : list ProviderResult) (n : Z) :
  fold_left (fun n r => (n + records_stored r)%Z) results n
  = (n + records_sum results)%Z.
Proof.
  revert n. induction results as [|r l IH]; intros n; simpl; [lia|].
  rewrite IH. unfold records_sum. lia.
Qed.

Lemma records_sum_app (l1 l2 : list ProviderResult) :
  records_sum (l1 ++ l2)%list = (records_sum l1 + records_sum l2)%Z.
Proof.
  unfold records_sum. induction l1 as [|r l IH]; simpl; [reflexivity|].
  rewrite IH. lia.
Qed.

(** X14: the [total_records] of an enrichment summary is the sum of the
    [records_stored] of its [providers_run] entries, whichever providers
    were skipped, answered or raised; so it is for the dispatch loop run
    on any list of provider objects. *)
Theorem run_full_enrichment_total (c : clock) (entity : option Entities.entity_row)
    (configured : list provider_class) :
  total_records (run_full_enrichment c entity configured)
  = records_sum (providers_run (run_full_enrichment c entity configured))
  /\ (forall ps : list provider_obj,
        total_records (dispatch c ps) = records_sum (providers_run (dispatch c ps))).
Proof.
  assert (H : forall ps s, total_records s = records_sum (providers_run s) ->
            total_records (fold_left (dispatch_one c) ps s)
            = records_sum (providers_run (fold_left (dispatch_one c) ps s))).
  { induction ps as [|p ps IH]; intros s Hs; simpl; [exact Hs|].
    apply IH. unfold dispatch_one.
    destruct (rate_limit_ok c (state p)) as [ok b]. destruct ok; cbn [negb]; [|exact Hs].
    destruct (fst (fetch_company_data p c b)) as [results | exc]; cbn.
    - rewrite fold_records, records_sum_app, Hs. reflexivity.
    - rewrite records_sum_app, Hs. unfold records_sum. simpl. lia. }
  split.
  - unfold run_full_enrichment. destruct entity; [|reflexivity].
    apply H. reflexivity.
  - intros ps. apply H. reflexivity.
Qed.

(** X15: the dispatch loop calls the fetch of every configured provider whose
    budget admits it, once and in order: a provider that raises does not
    keep the ones after it from being called. *)
Theorem dispatch_calls_every_admitted (c : clock) (ps : list provider_obj) :
  fetch_calls (dispatch c ps)
  = List.map provider_name
      (List.filter (fun p => fst (rate_limit_ok c (state p))) ps).
Proof.
  unfold dispatch.
  assert (H : forall s,
            fetch_calls (fold_left (dispatch_one c) ps s)
            = (fetch_calls s
               ++ List.map provider_name
                    (List.filter (fun p => fst (rate_limit_ok c (state p))) ps))%list).
  { induction ps as [|p ps IH]; intros s; simpl.
    - rewrite app_nil_r. reflexivity.
    - rewrite IH. unfold dispatch_one.
      destruct (rate_limit_ok c (state p)) as [ok b]. cbn [fst].
      destruct ok; cbn [negb]; [|reflexivity].
      destruct (fst (fetch_company_data p c b)); cbn [fetch_calls List.map];
        rewrite <- app_assoc; reflexivity. }
  apply (H empty_summary).
Qed.

End ProviderCallProperties.

(** ** Query parsing and discovered feeds *)

Section QueryFacts.

Import TextCases QueryCases.

Lemma split_go_chars (P : ascii -> Prop) (s : string) (cur : list ascii) :
  List.Forall P cur -> List.Forall P (list_ascii_of_string s) ->
  List.Forall (fun w => List.Forall P (list_ascii_of_string w)) (split_go cur s).
Proof.
  assert (Hflush : forall cur, List.Forall P cur ->
            List.Forall P (list_ascii_of_string (string_of_list_ascii (rev cur)))).
  { intros cur' H. rewrite list_ascii_of_string_of_list_ascii.
    apply List.Forall_rev, H. }
  revert cur. induction s as [|c s IH]; intros cur Hcur Hs.
  - simpl. destruct cur; [constructor|].
    constructor; [apply Hflush, Hcur | constructor].
  - simpl in Hs. apply List.Forall_cons_iff in Hs. destruct Hs as [Hc Hs].
    cbn [split_go]. destruct (is_space c).
    + destruct cur; [apply IH; [constructor | exact Hs]|].
      constructor; [apply Hflush, Hcur | apply IH; [constructor | exact Hs]].
    + apply IH; [constructor; assumption | exact Hs].
Qed.

Lemma lstrip_chars (P : ascii -> Prop) (s : string) :
  List.Forall P (list_ascii_of_string s) ->
  List.Forall P (list_ascii_of_string (lstrip s)).
Proof.
  induction s as [|c s IH]; intros H; [exact H|].
  simpl. destruct (is_space c); [|exact H].
  simpl in H. apply List.Forall_cons_iff in H. apply IH, H.
Qed.

Lemma rstrip_chars (P : ascii -> Prop) (s : string) :
  List.Forall P (list_ascii_of_string s) ->
  List.Forall P (list_ascii_of_string (rstrip s)).
Proof.
  induction s as [|c s IH]; intros H; [exact H|].
  simpl in H. apply List.Forall_cons_iff in H. destruct H as [Hc Hs].
  simpl. specialize (IH Hs). destruct (rstrip s) as [|d r].
  - destruct (is_space c); [constructor | constructor; [exact Hc | constructor]].
  - simpl. constructor; [exact Hc | exact IH].
Qed.

Lemma lower_char_not_upper (c : ascii) : is_upper (lower_char c) = false.
Proof. destruct c as [[] [] [] [] [] [] [] []]; reflexivity. Qed.

Lemma lower_chars (s : string) :
  List.Forall (fun c => is_upper c = false) (list_ascii_of_string (lower s)).
Proof.
  induction s as [|c s IH]; simpl; constructor; [apply lower_char_not_upper | exact IH].
Qed.

Lemma replace_comma_chars (s : string) :
  List.Forall (fun c => is_upper c = false) (list_ascii_of_string s) ->
  List.Forall (fun c => Ascii.eqb c "," = false /\ is_upper c = false)
    (list_ascii_of_string (Query.replace_char "," " " s)).
Proof.
  induction s as [|c s IH]; intros H; simpl; [constructor|].
  simpl in H. apply List.Forall_cons_iff in H. destruct H as [Hc Hs].
  constructor; [|apply IH, Hs].
  destruct (Ascii.eqb c ",") eqn:E; [split; reflexivity | split; assumption].
Qed.

(** Every word [split] yields occurs in the text. *)
Lemma split_go_pieces (s : string) (cur : list ascii) :
  List.Forall (fun w => piece_of w (string_of_list_ascii (rev cur) ++ s))
    (split_go cur s).
Proof.
  assert (Hstep : forall c cur' s',
            (string_of_list_ascii (rev (c :: cur')) ++ s')%string
            = (string_of_list_ascii (rev cur') ++ String c s')%string).
  { intros c cur' s'. simpl. generalize (rev cur'). intros l.
    induction l as [|x l IHl]; [reflexivity|].
    simpl. change (String x ?a ++ ?b)%string with (String x (a ++ b)).
    rewrite IHl. reflexivity. }
  revert cur. induction s as [|c s IH]; intros cur.
  - simpl. destruct cur as [|d cur]; [constructor|].
    constructor; [|constructor]. rewrite append_nil_r'. apply piece_of_refl.
  - cbn [split_go]. destruct (is_space c).
    + assert (Hrest : List.Forall
                (fun w => piece_of w (string_of_list_ascii (rev cur) ++ String c s))
                (split_go [] s)).
      { eapply List.Forall_impl; [|apply (IH [])].
        intros w [pre [post Hw]]. simpl in Hw.
        exists (string_of_list_ascii (rev cur) ++ String c pre)%string, post.
        rewrite append_assoc.
        change (String c pre ++ w ++ post)%string with (String c (pre ++ w ++ post)).
        rewrite <- Hw. reflexivity. }
      destruct cur as [|d cur]; [exact Hrest|].
      constructor; [|exact Hrest].
      exists ""%string, (String c s). reflexivity.
    + eapply List.Forall_impl; [|apply (IH (c :: cur))].
      intros w Hw. rewrite Hstep in Hw. exact Hw.
Qed.

Lemma split_pieces (s : string) : List.Forall (fun w => piece_of w s) (split s).
Proof. apply (split_go_pieces s []). Qed.

End QueryFacts.

(** ** Entity relevance of an unresolved query *)

Module EntityRelevanceClaims.

Import Ranking RankingCases TextCases.

(** What [_parse_query] hands to ranking when entity resolution finds
    nothing: no ticker, and the first word of the query as entity name. *)
Lemma unresolved_context_of (q : string) :
  let ctx := Query.ranking_context (Query._parse_query q None) in
  ticker ctx = None
  /\ entity ctx = Some (match split q with w :: _ => w | [] => q end)
  /\ (truthy (entity ctx) = false <-> q = ""%string).
Proof.
  cbv zeta. unfold Query.ranking_context, Query._parse_query.
  cbn [ticker entity Query.ticker Query.entity option_map].
  split; [reflexivity|]. split; [reflexivity|].
  pose proof (split_wordlike q) as Hw.
  destruct (split q) as [|w r] eqn:E.
  - cbn [truthy]. destruct q; split; intros H; try reflexivity; discriminate.
  - apply List.Forall_cons_iff in Hw. destruct Hw as [[Hne _] _].
    destruct w as [|c w]; [congruence|]. cbn [truthy].
    split; [discriminate|]. intros ->. discriminate E.
Qed.

(** C9, as stated, fails for an unresolved query: [_parse_query] passes
    the first word of the query as entity name, so the items are scored
    against that word, and an item that mentions it nowhere gets 0, not
    0.5, and does not pass the 0.3 filter. *)
Lemma unresolved_query_item_scores_zero :
  let parsed := Query._parse_query "Zzz9 Corp" None in
  let ctx := Query.ranking_context parsed in
  Query.ticker parsed = None
  /\ entity ctx = Some "Zzz9"%string
  /\ _entity_relevance (ticker ctx) (entity ctx) heavy_text_item == 0
  /\ ~ _entity_relevance (ticker ctx) (entity ctx) heavy_text_item == 0.5
  /\ Qltb 0.3 (entity_relevance (rank_item 0 ctx heavy_text_item)) = false.
Proof.
  cbv zeta. split; [reflexivity|]. split; [reflexivity|].
  split; [reflexivity|]. split; [|reflexivity].
  intros H. vm_compute in H. discriminate H.
Qed.

(** C9, amended: for every evidence item, when both the ticker and the
    entity name handed to [_entity_relevance] are missing ([None] or
    empty), it returns exactly 0.5, which is strictly above the 0.3
    threshold of the relevance filter; and in all cases the value lies in
    [0, 1].  For an unresolved query the pipeline hands over no ticker and,
    as entity name, the first word of the query text (the whole text when
    it holds no word), so the neutral 0.5 is reached only when the query
    text is empty. *)
Theorem entity_relevance_neutral_and_bounded (it : item) :
  (_entity_relevance None None it = 0.5
   /\ _entity_relevance None (Some ""%string) it = 0.5
   /\ _entity_relevance (Some ""%string) None it = 0.5
   /\ _entity_relevance (Some ""%string) (Some ""%string) it = 0.5)
  /\ 0.3 < 0.5
  /\ (forall tk nm, 0 <= _entity_relevance tk nm it <= 1)
  /\ (forall q : string,
        let ctx := Query.ranking_context (Query._parse_query q None) in
        ticker ctx = None
        /\ entity ctx = Some (match split q with w :: _ => w | [] => q end)
        /\ (truthy (entity ctx) = false <-> q = ""%string)
        /\ (q = ""%string ->
            forall now, entity_relevance (rank_item now ctx it) = 0.5
                        /\ Qltb 0.3 (entity_relevance (rank_item now ctx it)) = true)).
Proof.
  split; [repeat split|]. split; [reflexivity|].
  split; [intros tk nm; apply _entity_relevance_unit|].
  intros q. destruct (unresolved_context_of q) as (H1 & H2 & H3).
  cbv zeta. split; [exact H1|]. split; [exact H2|]. split; [exact H3|].
  intros -> now. split; reflexivity.
Qed.

Lemma entity_relevance_neutral_and_bounded_witness :
  entity_relevance
    (rank_item 0 (Query.ranking_context (Query._parse_query "" None)) heavy_text_item)
  = 0.5.
Proof.
  destruct (entity_relevance_neutral_and_bounded heavy_text_item)
    as (_ & _ & _ & H).
  destruct (H ""%string) as (_ & _ & _ & H').
  apply (H' eq_refl 0).
Defined.

End EntityRelevanceClaims.

Module QueryProperties.

Import Query Discovery TextCases QueryCases.

(** X16: for ASCII query text, the tokens [_parse_query] returns are
    non-empty and hold no blank, no comma and none of the capitals A to Z. *)
Theorem _parse_query_tokens (query_text : string)
    (entity_record : option Entities.entity_row) :
  List.Forall clean_token (tokens (_parse_query query_text entity_record)).
Proof.
  unfold _parse_query. cbn [tokens].
  set (text := replace_char "," " " (strip (lower query_text))).
  assert (Hw : List.Forall wordlike (split text)) by apply split_wordlike.
  assert (Hc : List.Forall
                 (fun w => List.Forall
                             (fun c => Ascii.eqb c "," = false /\ is_upper c = false)
                             (list_ascii_of_string w)) (split text)).
  { apply split_go_chars; [constructor|]. apply replace_comma_chars.
    unfold strip. apply rstrip_chars, lstrip_chars, lower_chars. }
  rewrite List.Forall_forall in Hw, Hc |- *.
  intros t Ht. apply filter_In in Ht. destruct Ht as [Ht _].
  destruct (Hw t Ht) as [Hne Hsp]. specialize (Hc t Ht).
  split; [exact Hne|].
  rewrite List.Forall_forall in Hsp, Hc |- *. intros c Hin.
  destruct (Hc c Hin) as [H1 H2]. unfold token_char.
  rewrite (Hsp c Hin), H1, H2. reflexivity.
Qed.

(** X17: an item from the Google News feed discovered for a query is not
    downweighted as cross-pollution when the same query, unresolved, is
    ranked: the entity name is then the first word of the query, which the
    feed's name contains. *)
Theorem own_google_feed_not_penalised (quote_plus : string -> string)
    (query_text : string) (symbol : option string) (src : source_candidate)
    (it : Ranking.item) :
  nth_error (discover_query_sources quote_plus query_text symbol) 0 = Some src ->
  Ranking.source_name it = Val (name src) ->
  Ranking.pollution_penalty
    (Ranking.entity (ranking_context (_parse_query query_text None))) it = 1.
Proof.
  intros Hsrc Hname. injection Hsrc as <-. cbn [name] in Hname.
  unfold Ranking.pollution_penalty. rewrite Hname.
  cbn [get_default str ranking_context Ranking.entity _parse_query entity or_empty].
  set (src_name := lower ("Google News: " ++ query_text)).
  set (entity_name := match split query_text with w :: _ => w | [] => query_text end).
  assert (Hpiece : piece_of entity_name query_text).
  { subst entity_name. pose proof (split_pieces query_text) as H.
    destruct (split query_text) as [|w r]; [apply piece_of_refl|].
    apply List.Forall_cons_iff in H. apply H. }
  assert (Hin : contains (lower entity_name) src_name = true).
  { apply contains_app. destruct Hpiece as [pre [post H]].
    exists (lower ("Google News: " ++ pre)), (lower post).
    subst src_name. rewrite H at 1.
    rewrite <- !lower_app. rewrite !append_assoc. reflexivity. }
  rewrite Hin, andb_false_r.
  destruct (_ || _); reflexivity.
Qed.

Lemma own_google_feed_not_penalised_witness :
  Ranking.pollution_penalty
    (Ranking.entity (ranking_context (_parse_query "tesla earnings" None)))
    tesla_feed_item = 1.
Proof.
  apply (own_google_feed_not_penalised (fun s => s) "tesla earnings" (Some "TSLA")
           tesla_feed tesla_feed_item); reflexivity.
Defined.

End QueryProperties.

(** ** The entity and financial stores *)

Module EntityProperties.

Import Entities EntityCases StoreCases.

Lemma coalesce_nonempty_twice (x old : string) :
  coalesce_nonempty x (coalesce_nonempty x old) = coalesce_nonempty x old.
Proof. unfold coalesce_nonempty. destruct (String.eqb x ""); reflexivity. Qed.

Lemma coalesce_nonempty_self (x : string) : coalesce_nonempty x x = x.
Proof. unfold coalesce_nonempty. destruct (String.eqb x ""); reflexivity. Qed.

(** X18: repeating an upsert changes nothing but [updated_at]: the row after the
    second of two identical upserts is the row after the first, stamped
    with the later time, whether or not the ticker was known before. *)
Theorem _upsert_entity_repeat (now1 now2 : Z) (a : upsert_args) (t : table) :
  let r1 := fst (_upsert_entity now1 a t) in
  let t1 := snd (_upsert_entity now1 a t) in
  fst (_upsert_entity now2 a t1)
  = {| id := id r1; name := name r1; ticker := ticker r1; cik := cik r1;
       sector := sector r1; industry := industry r1; exchange := exchange r1;
       entity_type := entity_type r1; aliases := aliases r1;
       created_at := created_at r1; updated_at := now2 |}.
Proof.
  cbv zeta. unfold _upsert_entity at 1. cbn [fst snd].
  pose proof (EntityClaims._upsert_entity_stored now1 a t) as Hst.
  rewrite Hst. clear Hst.
  unfold _upsert_entity. cbn [fst].
  destruct (rows t !! arg_ticker a) as [old|]; cbn;
    rewrite ?coalesce_nonempty_twice, ?coalesce_nonempty_self; reflexivity.
Qed.

(** X19: an upsert keeps the table consistent: rows stay under their own ticker,
    ids stay below the sequence, and no two tickers come to share an id. *)
Theorem _upsert_entity_consistent (now : Z) (a : upsert_args) (t : table) :
  consistent t -> consistent (snd (_upsert_entity now a t)).
Proof.
  intros [Hrow Hid]. unfold _upsert_entity. cbn [snd rows next_id].
  set (r := match rows t !! arg_ticker a with Some old => _ | None => _ end).
  assert (Hr : ticker r = arg_ticker a /\ (id r < next_id t + 1)%Z
               /\ forall k r', rows t !! k = Some r' -> id r' = id r -> k = arg_ticker a).
  { subst r. destruct (rows t !! arg_ticker a) as [old|] eqn:E; cbn.
    - destruct (Hrow _ _ E) as [H1 H2]. split; [exact H1|]. split; [lia|].
      intros k r' Hk Heq. apply (Hid _ _ _ _ Hk E Heq).
    - split; [reflexivity|]. split; [lia|].
      intros k r' Hk Heq. destruct (Hrow _ _ Hk) as [_ Hlt]. lia. }
  clearbody r. destruct Hr as (Hr1 & Hr2 & Hr3).
  split.
  - intros k r0 Hk. cbn [rows next_id] in Hk |- *.
    destruct (decide (k = arg_ticker a)) as [->|Hne].
    + rewrite lookup_insert_eq in Hk. injection Hk as <-. split; [exact Hr1 | exact Hr2].
    + rewrite lookup_insert_ne in Hk by congruence.
      destruct (Hrow _ _ Hk) as [H1 H2]. split; [exact H1 | lia].
  - intros k1 k2 r1 r2 H1 H2 Heq. cbn [rows next_id] in H1, H2.
    destruct (decide (k1 = arg_ticker a)) as [->|Hn1];
      destruct (decide (k2 = arg_ticker a)) as [->|Hn2].
    + reflexivity.
    + rewrite lookup_insert_eq in H1. injection H1 as <-.
      rewrite lookup_insert_ne in H2 by congruence.
      symmetry. apply (Hr3 _ _ H2). congruence.
    + rewrite lookup_insert_eq in H2. injection H2 as <-.
      rewrite lookup_insert_ne in H1 by congruence.
      apply (Hr3 _ _ H1). exact Heq.
    + rewrite lookup_insert_ne in H1 by congruence.
      rewrite lookup_insert_ne in H2 by congruence.
      apply (Hid _ _ _ _ H1 H2 Heq).
Qed.

Lemma _upsert_entity_consistent_witness :
  consistent (snd (_upsert_entity 100 apple_args empty_table)).
Proof.
  apply (_upsert_entity_consistent 100 apple_args empty_table).
  split.
  - intros k r H. cbn [rows empty_table] in H. rewrite lookup_empty in H. discriminate.
  - intros k1 k2 r1 r2 H. cbn [rows empty_table] in H. rewrite lookup_empty in H.
    discriminate.
Defined.

End EntityProperties.

Module FinancialProperties.

Import Financials FinancialCases StoreCases.

Lemma deep_merge_lookup (target excluded : gmap string json) (key : string) :
  deep_merge target excluded !! key
  = match excluded !! key with Some v => Some v | None => target !! key end.
Proof.
  unfold deep_merge. destruct (decide (excluded = ∅)) as [->|_].
  - rewrite lookup_empty. reflexivity.
  - unfold jsonb_concat. rewrite lookup_union.
    destruct (excluded !! key), (target !! key); reflexivity.
Qed.

Lemma deep_merge_twice (target excluded : gmap string json) :
  deep_merge (deep_merge target excluded) excluded = deep_merge target excluded.
Proof.
  apply map_eq. intros key. rewrite !deep_merge_lookup.
  destruct (excluded !! key); reflexivity.
Qed.

Lemma deep_merge_self (m : gmap string json) : deep_merge m m = m.
Proof.
  apply map_eq. intros key. rewrite deep_merge_lookup.
  destruct (m !! key); reflexivity.
Qed.

Lemma coalesce_twice (x cur : option Z) : coalesce x (coalesce x cur) = coalesce x cur.
Proof. destruct x; reflexivity. Qed.

Lemma coalesce_self (x : option Z) : coalesce x x = x.
Proof. destruct x; reflexivity. Qed.

(** X20: repeating an upsert of a financial period changes nothing: the second
    of two identical upserts returns the same row and leaves the table as
    the first left it. *)
Theorem upsert_financial_period_repeat (k : period_key) (a : upsert_args)
    (t : gmap period_key period_row) :
  upsert_financial_period k a (snd (upsert_financial_period k a t))
  = upsert_financial_period k a t.
Proof.
  unfold upsert_financial_period at 1. cbn [snd].
  set (r1 := fst (upsert_financial_period k a t)).
  assert (Ht : snd (upsert_financial_period k a t) = <[k := r1]> t) by reflexivity.
  rewrite Ht, lookup_insert_eq, insert_insert_eq.
  assert (Hr : {| entity_id := coalesce (arg_entity_id a) (entity_id r1);
                  fiscal_year := coalesce (arg_fiscal_year a) (fiscal_year r1);
                  fiscal_quarter := coalesce (arg_fiscal_quarter a) (fiscal_quarter r1);
                  income_statement :=
                    deep_merge (income_statement r1) (or_empty_map (arg_income_statement a));
                  balance_sheet :=
                    deep_merge (balance_sheet r1) (or_empty_map (arg_balance_sheet a));
                  cash_flow := deep_merge (cash_flow r1) (or_empty_map (arg_cash_flow a));
                  key_metrics :=
                    deep_merge (key_metrics r1) (or_empty_map (arg_key_metrics a)) |}
               = r1).
  { subst r1. unfold upsert_financial_period. cbn [fst].
    destruct (t !! k) as [old|]; cbn;
      rewrite ?deep_merge_twice, ?deep_merge_self, ?coalesce_twice, ?coalesce_self;
      reflexivity. }
  rewrite Hr. reflexivity.
Qed.

Lemma upsert_keeps_income_key (k k' : period_key) (a : upsert_args)
    (t : gmap period_key period_row) (row : period_row) (key : string) :
  t !! k = Some row -> is_Some (income_statement row !! key) ->
  exists row', snd (upsert_financial_period k' a t) !! k = Some row'
               /\ is_Some (income_statement row' !! key).
Proof.
  intros Hk Hkey. unfold upsert_financial_period. cbn [snd].
  destruct (decide (k' = k)) as [->|Hne].
  - rewrite lookup_insert_eq, Hk. eexists. split; [reflexivity|].
    cbn. rewrite deep_merge_lookup.
    destruct (or_empty_map (arg_income_statement a) !! key); [eexists; reflexivity|].
    exact Hkey.
  - rewrite lookup_insert_ne by exact Hne. exists row. split; assumption.
Qed.

(** X21: no upsert deletes a stored entry: an income-statement key present in a
    period's row is still present, in that period's row, after any series
    of upserts. *)
Theorem upserts_never_drop_keys
    (ups : list (period_key * upsert_args)) (t : gmap period_key period_row)
    (k : period_key) (row : period_row) (key : string) :
  t !! k = Some row -> is_Some (income_statement row !! key) ->
  exists row', upsert_all ups t !! k = Some row'
               /\ is_Some (income_statement row' !! key).
Proof.
  unfold upsert_all. revert t row.
  induction ups as [|[k' a] ups IH]; intros t row Hk Hkey; simpl.
  - exists row. split; assumption.
  - destruct (upsert_keeps_income_key k k' a t row key Hk Hkey) as [row' [H1 H2]].
    apply (IH _ row' H1 H2).
Qed.

Lemma upserts_never_drop_keys_witness :
  exists row', upsert_all [(q3_key, q3_update)] {[ q3_key := q3_row ]} !! q3_key
               = Some row'
               /\ is_Some (income_statement row' !! "net_income"%string).
Proof.
  apply (upserts_never_drop_keys [(q3_key, q3_update)] {[ q3_key := q3_row ]}
           q3_key q3_row "net_income").
  - apply lookup_singleton_eq.
  - exists (JNum 21448). vm_compute. reflexivity.
Defined.

End FinancialProperties.

(** ** Coverage scores *)

Module CoverageProperties.

Import Coverage CoverageCases.

Lemma Qofnat_pos (n : nat) : (0 < n)%nat -> 0 < Qofnat n.
Proof.
  intros H. unfold Qofnat. change 0 with (inject_Z 0). rewrite <- Zlt_Qlt. lia.
Qed.

(** A capped share [min(n / full, 1)]: 1 from [full] on, at most
    [(full - 1) / full] below. *)
Lemma capped_share (n full : nat) :
  (0 < full)%nat ->
  0 <= Qmin (Qofnat n / Qofnat full) 1 <= 1
  /\ ((full <= n)%nat -> Qmin (Qofnat n / Qofnat full) 1 == 1)
  /\ ((n < full)%nat ->
      Qmin (Qofnat n / Qofnat full) 1 <= (Qofnat full - 1) / Qofnat full).
Proof.
  intros Hf. pose proof (Qofnat_pos full Hf) as Hfull.
  assert (Hn : 0 <= Qofnat n).
  { unfold Qofnat. change 0 with (inject_Z 0). rewrite <- Zle_Qle. lia. }
  assert (Hq : 0 <= Qofnat n / Qofnat full).
  { apply Qle_shift_div_l; [exact Hfull | lra]. }
  split; [|split].
  - split; [apply Q.min_glb; lra | apply Q.le_min_r].
  - intros Hge. apply Q.min_r. apply Qle_shift_div_l; [exact Hfull|].
    assert (Qofnat full <= Qofnat n).
    { unfold Qofnat. rewrite <- Zle_Qle. lia. }
    lra.
  - intros Hlt. eapply Qle_trans; [apply Q.le_min_l|].
    apply Qle_shift_div_l; [exact Hfull|].
    setoid_replace ((Qofnat n / Qofnat full) * Qofnat full) with (Qofnat n)
      using relation Qeq by (field; lra).
    assert (Qofnat n + 1 <= Qofnat full).
    { unfold Qofnat. change 1 with (inject_Z 1). rewrite <- inject_Z_plus.
      rewrite <- Zle_Qle. lia. }
    lra.
Qed.

Lemma classic_full (c : counts) : full_coverage c \/ ~ full_coverage c.
Proof.
  unfold full_coverage.
  destruct (Nat.lt_ge_cases (fin_q c) 8); [right; lia|].
  destruct (Nat.lt_ge_cases (filing_cnt c) 5); [right; lia|].
  destruct (Nat.lt_ge_cases 0 (macro_cnt c)); [|right; lia].
  destruct (Nat.lt_ge_cases 0 (social_cnt c)); [|right; lia].
  destruct (Nat.lt_ge_cases 0 (news_cnt c)); [|right; lia].
  destruct (Nat.lt_ge_cases 0 (price_cnt c)); [|right; lia].
  left. lia.
Qed.

Lemma weighted_score_bounds (c : counts) :
  0 <= weighted_score c <= 1
  /\ (full_coverage c -> weighted_score c == 1)
  /\ (~ full_coverage c -> weighted_score c <= 0.9625).
Proof.
  unfold weighted_score, full_coverage.
  destruct (capped_share (fin_q c) 8 ltac:(lia)) as (Ha & Ha1 & Ha2).
  destruct (capped_share (filing_cnt c) 5 ltac:(lia)) as (Hb & Hb1 & Hb2).
  change (Qofnat 8) with 8 in *. change (Qofnat 5) with 5 in *.
  set (a := Qmin (Qofnat (fin_q c) / 8) 1) in *.
  set (b := Qmin (Qofnat (filing_cnt c) / 5) 1) in *.
  assert (Ha2' : (fin_q c < 8)%nat -> a <= 7 / 8).
  { intros H. eapply Qle_trans; [apply Ha2, H|]. unfold Qle. simpl. lia. }
  assert (Hb2' : (filing_cnt c < 5)%nat -> b <= 4 / 5).
  { intros H. eapply Qle_trans; [apply Hb2, H|]. unfold Qle. simpl. lia. }
  clear Ha2 Hb2. clearbody a b.
  assert (E78 : 7 / 8 == 7 # 8) by reflexivity.
  assert (E45 : 4 / 5 == 4 # 5) by reflexivity.
  rewrite E78 in Ha2'. rewrite E45 in Hb2'.
  destruct (Nat.ltb_spec 0 (fin_q c)) as [F1|F1];
    destruct (Nat.ltb_spec 0 (filing_cnt c)) as [F2|F2];
    destruct (Nat.ltb_spec 0 (macro_cnt c)) as [F3|F3];
    destruct (Nat.ltb_spec 0 (social_cnt c)) as [F4|F4];
    destruct (Nat.ltb_spec 0 (news_cnt c)) as [F5|F5];
    destruct (Nat.ltb_spec 0 (price_cnt c)) as [F6|F6];
    (split; [lra|]);
    (split;
     [ intros (G1 & G2 & G3 & G4 & G5 & G6);
       try lia; specialize (Ha1 G1); specialize (Hb1 G2); lra
     | intros Hnot;
       try (destruct (Nat.lt_ge_cases (fin_q c) 8) as [L1|L1];
            [specialize (Ha2' L1); lra|];
            destruct (Nat.lt_ge_cases (filing_cnt c) 5) as [L2|L2];
            [specialize (Hb2' L2); lra|];
            exfalso; apply Hnot; repeat split; assumption);
       lra ]).
Qed.

(** X22: the score [update_entity_coverage] stores lies in [0, 1], and it is 1
    exactly when all six kinds of data are there with at least eight
    quarters and five filings. *)
Theorem update_entity_coverage_score (c : counts) :
  0 <= coverage_score (update_entity_coverage c) <= 1
  /\ (coverage_score (update_entity_coverage c) == 1 <-> full_coverage c).
Proof.
  cbn [coverage_score update_entity_coverage].
  destruct (weighted_score_bounds c) as (Hr & Hfull & Hpart).
  split; [apply round_unit, Hr|].
  split.
  - intros H1. destruct (classic_full c) as [Hf | Hn]; [exact Hf|].
    exfalso. specialize (Hpart Hn).
    assert (Hle : round 4 (weighted_score c) <= inject_Z 9625 / inject_Z (10 ^ Z.of_nat 4)).
    { apply round_le. eapply Qle_trans; [exact Hpart|]. unfold Qle. simpl. lia. }
    assert (E : inject_Z 9625 / inject_Z (10 ^ Z.of_nat 4) == 0.9625) by reflexivity.
    rewrite E in Hle. lra.
  - intros Hf. specialize (Hfull Hf).
    assert (E : inject_Z 10000 / inject_Z (10 ^ Z.of_nat 4) == 1) by reflexivity.
    apply Qle_antisym.
    + rewrite <- E. apply round_le. rewrite E. lra.
    + rewrite <- E. apply round_ge. rewrite E. lra.
Qed.

End CoverageProperties.

Module AssessmentProperties.

Import Coverage CoverageCases.

Lemma computed_score_unit (b : breakdown) : 0 <= computed_score b <= 1.
Proof.
  destruct b as [f ? g ? m s n p].
  destruct f, g, m, s, n, p; vm_compute; split; discriminate.
Qed.

Lemma computed_score_unstored (live : live_signals) :
  computed_score (overlay None live) <= 0.55.
Proof.
  destruct live as [a b c d e].
  destruct a, b, c, d, e; vm_compute; discriminate.
Qed.

(** X23: for a ticker, the coverage score shown is the higher of the stored
    score, rounded, and the score recomputed from the flags; it stays in
    [0, 1] when the stored score does; a flag the stored row has set stays
    set; and without a stored row the score cannot pass 0.55. *)
Theorem _build_coverage_assessment_score (tk : string) (row : coverage_row)
    (live : live_signals) :
  tk <> ""%string -> 0 <= coverage_score row <= 1 ->
  let a := _build_coverage_assessment (Some tk) (Some row) live in
  available a = true
  /\ round 4 (coverage_score row) <= score a
  /\ computed_score (overlay (Some row) live) <= score a
  /\ 0 <= score a <= 1
  /\ (has_financials row = true -> b_has_financials (overlay (Some row) live) = true)
  /\ (has_social row = true -> b_has_social (overlay (Some row) live) = true)
  /\ (has_price row = true -> b_has_price (overlay (Some row) live) = true)
  /\ score (_build_coverage_assessment (Some tk) None live) <= 0.55.
Proof.
  intros Htk Hrow. cbv zeta. unfold _build_coverage_assessment.
  destruct tk as [|c tk]; [congruence|]. cbn [truthy negb available score].
  pose proof (round_unit 4 _ Hrow) as Hr.
  pose proof (computed_score_unit (overlay (Some row) live)) as Hc.
  set (r := round 4 (coverage_score row)) in *.
  set (s := computed_score (overlay (Some row) live)) in *.
  split; [reflexivity|].
  split; [apply Q.le_max_l|]. split; [apply Q.le_max_r|].
  split.
  { split.
    - eapply Qle_trans; [|apply Q.le_max_l]. apply Hr.
    - apply Q.max_lub; [apply Hr | apply Hc]. }
  split; [intros H; cbn; rewrite H; destruct (_ && _); reflexivity|].
  split; [intros H; cbn; rewrite H; destruct (social_available live); reflexivity|].
  split; [intros H; cbn; rewrite H; destruct (_ || _); reflexivity|].
  pose proof (computed_score_unstored live) as Hu.
  assert (E : round 4 0 == 0) by reflexivity.
  apply Q.max_lub; [rewrite E; unfold Qle; simpl; lia | exact Hu].
Qed.

Lemma _build_coverage_assessment_score_witness :
  available (_build_coverage_assessment (Some "AAPL")
               (Some (update_entity_coverage apple_counts)) live_quote) = true.
Proof.
  destruct (_build_coverage_assessment_score "AAPL"
              (update_entity_coverage apple_counts) live_quote) as (H & _).
  - discriminate.
  - vm_compute. split; discriminate.
  - exact H.
Defined.

End AssessmentProperties.

Module SocialProperties.

Import Social SocialCases.

Lemma fold_plus_bounds (lo hi : Q) (l : list Q) (acc : Q) :
  List.Forall (fun x => lo <= x <= hi) l ->
  acc + inject_Z (Z.of_nat (List.length l)) * lo <= fold_left Qplus l acc
  /\ fold_left Qplus l acc <= acc + inject_Z (Z.of_nat (List.length l)) * hi.
Proof.
  intros H. revert acc. induction H as [|x l Hx _ IH]; intros acc.
  - cbn [fold_left List.length]. change (inject_Z (Z.of_nat 0)) with 0. split; lra.
  - cbn [fold_left List.length]. destruct (IH (acc + x)) as [H1 H2].
    rewrite Nat2Z.inj_succ, <- Z.add_1_r, inject_Z_plus.
    change (inject_Z 1) with 1. split; lra.
Qed.

Lemma average_bounds (lo hi : Q) (l : list Q) :
  l <> [] -> List.Forall (fun x => lo <= x <= hi) l -> lo <= average l <= hi.
Proof.
  intros Hne H. unfold average. destruct l as [|x l']; [congruence|].
  set (l := x :: l') in *.
  destruct (fold_plus_bounds lo hi l 0 H) as [H1 H2].
  assert (Hn : 0 < inject_Z (Z.of_nat (List.length l))).
  { change 0 with (inject_Z 0). rewrite <- Zlt_Qlt. simpl. lia. }
  set (n := inject_Z (Z.of_nat (List.length l))) in *. clearbody n.
  set (s := fold_left Qplus l 0) in *. clearbody s.
  split.
  - apply Qle_shift_div_l; [exact Hn | lra].
  - apply Qle_shift_div_r; [exact Hn | lra].
Qed.

(** X24: the sentiment block agrees with itself and stays in range: the label is
    bullish only with a shown average of at least 0.2, bearish only with at
    most -0.2, neutral only in between; the shown average lies within
    [-1, 1] when every day's does; and at most five posts are shown. *)
Theorem _build_social_sentiment_consistent (signals : list signal)
    (b : sentiment_block) :
  _build_social_sentiment signals = Some b ->
  (sentiment_label b = "bullish" -> 0.2 <= avg_sentiment_shown b)
  /\ (sentiment_label b = "bearish" -> avg_sentiment_shown b <= -0.2)
  /\ (sentiment_label b = "neutral" -> -0.2 <= avg_sentiment_shown b <= 0.2)
  /\ (List.Forall (fun s => -1 <= avg_sentiment s <= 1) signals ->
      -1 <= avg_sentiment_shown b <= 1)
  /\ (List.length (top_posts_shown b) <= 5)%nat
  /\ days_data b = List.length signals.
Proof.
  unfold _build_social_sentiment.
  destruct signals as [|s0 rest] eqn:Es; [discriminate|]. rewrite <- Es.
  assert (Hne : List.map avg_sentiment signals <> []) by (rewrite Es; discriminate).
  clear Es. intros H. injection H as <-.
  cbn [sentiment_label avg_sentiment_shown top_posts_shown days_data].
  set (avg := average (List.map avg_sentiment signals)).
  assert (E2 : inject_Z 200 / inject_Z (10 ^ Z.of_nat 3) == 0.2) by reflexivity.
  assert (E2n : inject_Z (-200) / inject_Z (10 ^ Z.of_nat 3) == -0.2) by reflexivity.
  assert (E1 : inject_Z 1000 / inject_Z (10 ^ Z.of_nat 3) == 1) by reflexivity.
  assert (E1n : inject_Z (-1000) / inject_Z (10 ^ Z.of_nat 3) == -1) by reflexivity.
  assert (Hup : forall m q, inject_Z m / inject_Z (10 ^ Z.of_nat 3) <= q ->
                  inject_Z m / inject_Z (10 ^ Z.of_nat 3) <= round 3 q)
    by (intros; apply round_ge; assumption).
  assert (Hdn : forall m q, q <= inject_Z m / inject_Z (10 ^ Z.of_nat 3) ->
                  round 3 q <= inject_Z m / inject_Z (10 ^ Z.of_nat 3))
    by (intros; apply round_le; assumption).
  unfold label_of.
  destruct (Qltb 0.2 avg) eqn:Hb; [apply Qltb_true in Hb | apply Qltb_false in Hb];
    [|destruct (Qltb avg (-0.2)) eqn:Hs;
      [apply Qltb_true in Hs | apply Qltb_false in Hs]].
  all: split; [intros Hl; try discriminate; rewrite <- E2; apply Hup; rewrite E2; lra|].
  all: split; [intros Hl; try discriminate; rewrite <- E2n; apply Hdn; rewrite E2n; lra|].
  all: split; [intros Hl; try discriminate;
               (split; [rewrite <- E2n; apply Hup; rewrite E2n; lra
                       | rewrite <- E2; apply Hdn; rewrite E2; lra])|].
  all: split; [|split; [rewrite length_firstn; lia | reflexivity]].
  all: intros Hall;
    assert (Havg : -1 <= avg <= 1)
      by (apply average_bounds; [exact Hne|];
          apply List.Forall_map; exact Hall);
    (split; [rewrite <- E1n; apply Hup; rewrite E1n; lra
            | rewrite <- E1; apply Hdn; rewrite E1; lra]).
Qed.

Lemma _build_social_sentiment_consistent_witness :
  0.2 <= avg_sentiment_shown week_block.
Proof.
  destruct (_build_social_sentiment_consistent week week_block) as (H & _).
  - reflexivity.
  - apply H. reflexivity.
Defined.

End SocialProperties.

Module RulesProperties.

Import Rules.

(** X25: the critic approves what the analyst builds exactly when both the
    source URL and the excerpt are non-empty: the analyst's confidence is
    never below the critic's floor and its threat level is never high. *)
Theorem review_of_build_analysis (source_name source_url : string)
    (has_changed : bool) (excerpt : string) :
  let critique :=
    review_analysis (build_analysis source_name source_url has_changed excerpt) in
  (critic_status critique = "approved"%string <->
   source_url <> ""%string /\ excerpt <> ""%string)
  /\ (critic_status critique = "approved" \/ critic_status critique = "flagged")
  /\ has_evidence critique = nonempty source_url && nonempty excerpt.
Proof.
  cbv zeta. unfold review_analysis, nonempty.
  destruct has_changed; cbn [build_analysis confidence evidence_ref evidence_excerpt
                              threat_level critic_status has_evidence];
    (destruct (String.eqb_spec source_url "") as [Eu|Eu];
     destruct (String.eqb_spec excerpt "") as [Ee|Ee]; cbn;
     repeat split; try (intros H; try discriminate; try tauto); auto; try tauto).
Qed.

End RulesProperties.

(** ** Events of the stream *)

Module StreamProperties.

Import Stream StreamMoreCases.

Lemma count_stage_app (s : stage) (l1 l2 : list event) :
  count_stage s (l1 ++ l2)%list = (count_stage s l1 + count_stage s l2)%nat.
Proof. unfold count_stage. rewrite List.filter_app, length_app. reflexivity. Qed.

Lemma count_stage_tokens (s s' : stage) (p : Q) (toks : list string) :
  count_stage s (token_events s' p toks)
  = if bool_decide (s' = s) then List.length toks else 0%nat.
Proof.
  unfold count_stage, token_events.
  induction toks as [|t toks IH]; simpl; [destruct (bool_decide _); reflexivity|].
  destruct (bool_decide (s' = s)); simpl; rewrite IH; reflexivity.
Qed.

Lemma count_stage_repeat (s s' : stage) (p : Q) (n : nat) :
  count_stage s (repeat (_event s' p) n)
  = if bool_decide (s' = s) then n else 0%nat.
Proof.
  unfold count_stage.
  induction n as [|n IH]; simpl; [destruct (bool_decide _); reflexivity|].
  destruct (bool_decide (s' = s)); simpl; rewrite IH; reflexivity.
Qed.

Ltac count_events r :=
  unfold run_market_intelligence_query_stream, optional_block, enrichment_events;
  destruct r as [tk enr a tr nw ins dts nts cts]; cbn [has_ticker enrichment analyst_ok
    trends_available news_ok insider_ok decision_tokens narrative_tokens
    competitive_tokens providers_reported];
  destruct enr as [| |n rss]; try destruct rss;
  destruct tk, a, tr, nw, ins; cbn [andb providers_reported];
  rewrite ?count_stage_app, ?count_stage_tokens, ?count_stage_repeat;
  repeat match goal with
  | |- context [bool_decide (?a = ?b)] =>
      let v := eval vm_compute in (bool_decide (a = b)) in
      change (bool_decide (a = b)) with v
  end;
  repeat match goal with
  | |- context [count_stage ?s ?l] =>
      let v := eval vm_compute in (count_stage s l) in
      change (count_stage s l) with v
  end;
  cbv beta iota; lia.

(** X26: every streamed token gives exactly one event of its stage, and every
    provider result one [provider_complete] event; [complete] is emitted
    once. *)
Theorem stream_event_counts (r : run) :
  let events := run_market_intelligence_query_stream r in
  count_stage decision_token events = List.length (decision_tokens r)
  /\ count_stage narrative_token events = List.length (narrative_tokens r)
  /\ count_stage competitive_token events = List.length (competitive_tokens r)
  /\ count_stage provider_complete events = providers_reported (enrichment r)
  /\ count_stage complete events = 1%nat.
Proof.
  cbv zeta. repeat split; count_events r.
Qed.

End StreamProperties.

Module StreamTickerProperties.

Import Stream StreamMoreCases.

Lemma Forall_token_events (P : event -> Prop) (s : stage) (p : Q) (toks : list string) :
  P (_event s p) -> List.Forall P (token_events s p toks).
Proof.
  intros H. unfold token_events. induction toks; simpl; constructor; assumption.
Qed.

Lemma Forall_repeat_event (P : event -> Prop) (e : event) (n : nat) :
  P e -> List.Forall P (repeat e n).
Proof. intros H. induction n; simpl; constructor; assumption. Qed.

(** X27: a run without a ticker emits none of the stages that sit behind
    [if ticker:]: analyst consensus, trend analysis, market news, insider
    activity and the price-history start. *)
Theorem stream_without_ticker (r : run) :
  has_ticker r = false ->
  List.Forall (fun e => ticker_only (ev_stage e) = false)
    (run_market_intelligence_query_stream r).
Proof.
  intros Htk.
  unfold run_market_intelligence_query_stream, optional_block, enrichment_events.
  rewrite Htk, andb_false_r.
  repeat (apply List.Forall_app; split);
    try (apply Forall_token_events; reflexivity);
    try (repeat constructor; fail).
  destruct (enrichment r) as [| |n rss]; [constructor | repeat constructor|].
  apply List.Forall_app; split; [apply Forall_repeat_event; reflexivity|].
  destruct rss; repeat constructor.
Qed.

Lemma stream_without_ticker_witness :
  List.Forall (fun e => ticker_only (ev_stage e) = false)
    (run_market_intelligence_query_stream plain_run).
Proof. apply (stream_without_ticker plain_run). reflexivity. Defined.

End StreamTickerProperties.

Module DecisionProperties.

Import Ranking Intelligence DecisionCases.

Lemma sum_confidence_bounds (l : list enriched) (acc : Q) :
  List.Forall (fun e => 0 <= confidence_of e <= 1) l ->
  acc <= fold_left (fun a e => a + confidence_of e) l acc
  /\ fold_left (fun a e => a + confidence_of e) l acc
     <= acc + inject_Z (Z.of_nat (List.length l)).
Proof.
  intros H. revert acc. induction H as [|e l He _ IH]; intros acc.
  - cbn [fold_left List.length]. change (inject_Z (Z.of_nat 0)) with 0. split; lra.
  - cbn [fold_left List.length]. destruct (IH (acc + confidence_of e)) as [H1 H2].
    rewrite Nat2Z.inj_succ, <- Z.add_1_r, inject_Z_plus.
    change (inject_Z 1) with 1. split; lra.
Qed.

Lemma Forall_firstn_keep {A} (P : A -> Prop) (n : nat) (l : list A) :
  List.Forall P l -> List.Forall P (firstn n l).
Proof.
  intros H. revert n. induction H as [|x l Hx _ IH]; intros [|n]; simpl;
    constructor; [exact Hx | apply IH].
Qed.

Lemma average_confidence_unit (items : list enriched) (d : nat) :
  List.Forall (fun e => 0 <= confidence_of e <= 1) items ->
  (List.length (firstn 5 items) <= d)%nat -> (0 < d)%nat ->
  0 <= sum_confidence items / inject_Z (Z.of_nat d) <= 1.
Proof.
  intros Hall Hd Hpos. unfold sum_confidence.
  destruct (sum_confidence_bounds (firstn 5 items) 0
              (Forall_firstn_keep _ 5 _ Hall)) as [H1 H2].
  assert (Hn : inject_Z (Z.of_nat (List.length (firstn 5 items)))
               <= inject_Z (Z.of_nat d)).
  { rewrite <- Zle_Qle. lia. }
  assert (Hd0 : 0 < inject_Z (Z.of_nat d)).
  { change 0 with (inject_Z 0). rewrite <- Zlt_Qlt. lia. }
  set (s := fold_left _ _ 0) in *. clearbody s.
  set (n := inject_Z (Z.of_nat (List.length (firstn 5 items)))) in *. clearbody n.
  set (dd := inject_Z (Z.of_nat d)) in *. clearbody dd.
  split.
  - apply Qle_shift_div_l; [exact Hd0 | lra].
  - apply Qle_shift_div_r; [exact Hd0 | lra].
Qed.

(** X28: the confidence on the decision card lies in [0, 1] whenever the stored
    confidence of every evidence item does, whichever path builds the
    decision. *)
Theorem decision_confidence_unit (fmt_percent : Q -> string)
    (fmt_count : nat -> string) (query_text : string) (limit : nat)
    (ranked : list enriched) (fin : financials)
    (llm_results : option parallel_results) (llm_summary llm_rec : option string) :
  List.Forall (fun e => 0 <= confidence_of e <= 1) ranked ->
  0 <= card_confidence
         (run_market_intelligence_query fmt_percent fmt_count query_text limit
            ranked fin llm_results llm_summary llm_rec) <= 1.
Proof.
  intros Hall. unfold run_market_intelligence_query, report_of. cbn [card_confidence].
  pose proof (Forall_firstn_keep _ limit _ Hall) as Htop.
  set (top := firstn limit ranked) in *. clearbody top.
  pose proof (length_firstn 5 top) as Hlen.
  unfold build_decision.
  set (from_llm := match llm_results with Some _ => _ | None => _ end).
  destruct from_llm as [res|].
  - cbn [Intelligence.confidence]. apply round_unit.
    apply average_confidence_unit; [exact Htop | lia | lia].
  - unfold _summarize_decision. destruct top as [|e top'] eqn:Et.
    + cbn [Intelligence.confidence]. split; unfold Qle; simpl; lia.
    + rewrite <- Et in *. cbn [Intelligence.confidence]. apply round_unit.
      apply average_confidence_unit; [exact Htop | lia |].
      rewrite Et. simpl. lia.
Qed.

Lemma decision_confidence_unit_witness :
  0 <= card_confidence
         (run_market_intelligence_query (fun _ => "72%") (fun _ => "1")
            "apple revenue" 10 [scored_filing] IntelligenceCases.no_financials
            None None None) <= 1.
Proof.
  apply (decision_confidence_unit (fun _ => "72%") (fun _ => "1") "apple revenue" 10
           [scored_filing] IntelligenceCases.no_financials None None None).
  constructor; [|constructor]. vm_compute. split; discriminate.
Defined.

Lemma threat_rank_range (e : enriched) :
  (1 <= threat_rank e <= 3)%Z /\ (threat_rank e = 3%Z <-> high_threat e).
Proof.
  unfold threat_rank, high_threat.
  destruct (get_default "low" (threat_level (row e))) as [s|].
  - destruct (String.eqb_spec s "high") as [->|Hne].
    + split; [lia | split; reflexivity].
    + destruct (String.eqb s "medium"); (split; [lia|]);
        (split; [lia | intros H; injection H as H; contradiction]).
  - split; [lia | split; [lia | discriminate]].
Qed.

Lemma fold_max_reaches (m : Z) (r : list Z) (x : Z) :
  (m <= fold_left Z.max r x)%Z <-> (m <= x)%Z \/ List.Exists (fun y => (m <= y)%Z) r.
Proof.
  revert x. induction r as [|y r IH]; intros x; simpl.
  - split; [intros H; left; exact H | intros [H | H]; [exact H | inversion H]].
  - rewrite IH, List.Exists_cons. split.
    + intros [H | H]; [|right; right; exact H].
      destruct (Z.max_spec x y) as [[_ E] | [_ E]]; rewrite E in H;
        [right; left | left]; exact H.
    + intros [H | [H | H]]; [left; lia | left; lia | right; exact H].
Qed.

Lemma max_threat_high (items : list enriched) :
  (3 <= max_threat items)%Z <-> List.Exists high_threat (firstn 5 items).
Proof.
  unfold max_threat. destruct (firstn 5 items) as [|e l]; simpl.
  - split; [lia | intros H; inversion H].
  - rewrite fold_max_reaches, List.Exists_cons, List.Exists_map.
    assert (Hr : forall x, (3 <= threat_rank x)%Z <-> high_threat x).
    { intros x. destruct (threat_rank_range x) as [Hr Hh]. rewrite <- Hh. lia. }
    rewrite Hr. split; (intros [H | H]; [left; exact H | right]);
      (eapply List.Exists_impl; [|exact H]); intros x Hx; apply Hr, Hx.
Qed.

(** X29: the risk level on the decision card is one of low, medium and high, and
    it is high exactly when one of the first five evidence items has the
    threat level high. *)
Theorem decision_risk_level (fmt_percent : Q -> string)
    (fmt_count : nat -> string) (query_text : string) (limit : nat)
    (ranked : list enriched) (fin : financials)
    (llm_results : option parallel_results) (llm_summary llm_rec : option string) :
  let rep := run_market_intelligence_query fmt_percent fmt_count query_text limit
               ranked fin llm_results llm_summary llm_rec in
  (card_risk_level rep = "high"%string <->
   List.Exists high_threat (firstn 5 (firstn limit ranked)))
  /\ In (card_risk_level rep) ["low"; "medium"; "high"]%string.
Proof.
  cbv zeta. unfold run_market_intelligence_query, report_of. cbn [card_risk_level].
  set (top := firstn limit ranked).
  assert (E : risk_level (build_decision fmt_percent fmt_count query_text top fin
                            llm_results llm_summary llm_rec)
              = risk_level_of (max_threat top)).
  { unfold build_decision.
    destruct (match llm_results with Some _ => _ | None => _ end); [reflexivity|].
    unfold _summarize_decision. destruct top; reflexivity. }
  rewrite E, <- max_threat_high. unfold risk_level_of.
  destruct (3 <=? max_threat top)%Z eqn:E3.
  - apply Z.leb_le in E3. split; [tauto | simpl; tauto].
  - apply Z.leb_gt in E3.
    destruct (max_threat top =? 2)%Z;
      (split; [split; [discriminate | lia] | simpl; tauto]).
Qed.

End DecisionProperties.

(** ** Fallback scenarios *)

Module ScenarioProperties.

Import Scenarios ScenarioCases.

Lemma round3_range (lo hi : Z) (q : Q) :
  lo # 1000 <= q <= hi # 1000 -> lo # 1000 <= round 3 q <= hi # 1000.
Proof.
  assert (E : forall m, inject_Z m / inject_Z (10 ^ Z.of_nat 3) == m # 1000).
  { intros m. unfold Qeq. simpl. lia. }
  intros [H1 H2]. split.
  - rewrite <- E. apply round_ge. rewrite E. exact H1.
  - rewrite <- E. apply round_le. rewrite E. exact H2.
Qed.

Lemma base_confidence_of_unit (q : Q) :
  0 <= q <= 1 -> 0 <= base_confidence_of (Val q) <= 1.
Proof.
  intros H. unfold base_confidence_of. cbn [get_default].
  destruct (Qeq_bool q 0); [split; unfold Qle; simpl; lia | exact H].
Qed.

Lemma fallback_shares (c : Q) :
  0 <= c <= 1 ->
  let bull := Qmin (c + 0.12) 0.92 in
  let base := Qmax (Qmin c 0.8) 0.1 in
  let bear := Qmax (1 - c + 0.05) 0.1 in
  let total := bull + base + bear in
  (40 # 1000) <= bull / total <= (830 # 1000)
  /\ (30 # 1000) <= base / total <= (790 # 1000)
  /\ (36 # 1000) <= bear / total
  /\ bull / total + base / total + bear / total == 1.
Proof.
  intros Hc bull base bear total.
  assert (Hb : 0.12 <= bull <= 0.92).
  { subst bull. destruct (Q.min_spec (c + 0.12) 0.92) as [[H E] | [H E]];
      rewrite E; lra. }
  assert (Hs : 0.1 <= base <= 0.8).
  { subst base. split; [apply Q.le_max_r|].
    apply Q.max_lub; [apply Q.le_min_r | unfold Qle; simpl; lia]. }
  assert (Hr : 0.1 <= bear <= 1.05).
  { subst bear. destruct (Q.max_spec (1 - c + 0.05) 0.1) as [[H E] | [H E]];
      rewrite E; lra. }
  clearbody bull base bear.
  assert (Ht : 0 < total) by (subst total; lra).
  repeat split.
  - apply Qle_shift_div_l; [exact Ht | subst total; lra].
  - apply Qle_shift_div_r; [exact Ht | subst total; lra].
  - apply Qle_shift_div_l; [exact Ht | subst total; lra].
  - apply Qle_shift_div_r; [exact Ht | subst total; lra].
  - apply Qle_shift_div_l; [exact Ht | subst total; lra].
  - subst total. field. lra.
Qed.

(** X30: without usable LLM scenarios and with a decision confidence in [0, 1],
    [_build_scenarios] returns the bull, base and bear baseline, each with
    a probability strictly between 0 and 1: none of the three is ruled out
    and none is certain. *)
Theorem fallback_probabilities_open (q : Q) (evidence : list Ranking.enriched) :
  0 <= q <= 1 ->
  exists scs, _build_scenarios (Val q) evidence None = Some scs
    /\ List.map name scs = [Val "bull"; Val "base"; Val "bear"]%string
    /\ List.Forall (fun s => exists p, probability s = Val p /\ 0 < p < 1) scs.
Proof.
  intros Hq. unfold _build_scenarios. eexists. split; [reflexivity|].
  split; [reflexivity|].
  pose proof (base_confidence_of_unit q Hq) as Hc.
  set (c := base_confidence_of (Val q)) in *. clearbody c.
  unfold fallback_scenarios.
  destruct (fallback_shares c Hc) as (Hbull & Hbase & Hbear & Hsum).
  set (bull := Qmin (c + 0.12) 0.92) in *.
  set (base := Qmax (Qmin c 0.8) 0.1) in *.
  set (bear := Qmax (1 - c + 0.05) 0.1) in *.
  set (total := bull + base + bear) in *.
  pose proof (round3_range _ _ _ Hbull) as Rbull.
  pose proof (round3_range _ _ _ Hbase) as Rbase.
  destruct (ScenarioClaims.round3_near (bull / total)) as [Nb _].
  destruct (ScenarioClaims.round3_near (base / total)) as [Ns _].
  set (bp := round 3 (bull / total)) in *.
  set (bs := round 3 (base / total)) in *.
  set (sb := bull / total) in *. set (ss := base / total) in *.
  set (sr := bear / total) in *. clearbody sb ss sr bp bs.
  assert (Hrest : (35 # 1000) <= Qmax (1 - bp - bs) 0 <= (930 # 1000)).
  { assert (H0 : 0 <= 1 - bp - bs) by lra.
    rewrite (Q.max_l _ _ H0). lra. }
  pose proof (round3_range _ _ _ Hrest) as Rbear.
  set (br := round 3 (Qmax (1 - bp - bs) 0)) in *. clearbody br.
  repeat constructor; cbn [probability]; eexists; (split; [reflexivity|]); lra.
Qed.

Lemma fallback_probabilities_open_witness :
  exists scs, _build_scenarios (Val 0.72) [] None = Some scs
    /\ List.map name scs = [Val "bull"; Val "base"; Val "bear"]%string
    /\ List.Forall (fun s => exists p, probability s = Val p /\ 0 < p < 1) scs.
Proof.
  apply (fallback_probabilities_open 0.72 []). split; unfold Qle; simpl; lia.
Defined.

End ScenarioProperties.
